(** * jvpm/class_file.py: a shallow embedding of the class-file reader

    The Python module reads a Java [.class] file into a [ClassFile] object.
    Every helper ([get_u1], [get_u2], ..., [get_constant_pool], [get_info],
    [get_attributes], [get_an_attribute]) takes the object under construction
    as [self], reads [self.data] at [self.offset] and mutates [self].  Here
    the mutable part of [self] is an explicit [state], and a helper is a
    function from a state to an [outcome]: a returned value with the new
    state, or a raised Python exception with the state at the raise. *)

From Stdlib Require Import ZArith List Lia.
From Stdlib.Strings Require Import Byte.
From stdpp Require Import base gmap list.

Local Open Scope Z_scope.

(** ** Python values *)

(** The integer value of one byte, as [data[i]] yields it. *)
Definition u8 (b : byte) : Z := Z.of_N (Byte.to_N b).

(** [int.from_bytes(bs, byteorder="big")] (unsigned). *)
Definition int_from_bytes (bs : list byte) : Z :=
  fold_left (fun acc b => acc * 256 + u8 b) bs 0.

(** A slice bound as Python normalises it: a negative bound counts from
    the end, and the result is clamped to [0 .. n]. *)
Definition clamp (n i : Z) : Z :=
  if i <? 0 then Z.max (i + n) 0 else Z.min i n.

(** [l[lo:hi]]: never raises; out-of-range bounds give a shorter result. *)
Definition py_slice {A} (l : list A) (lo hi : Z) : list A :=
  let n := Z.of_nat (length l) in
  take (Z.to_nat (clamp n hi - clamp n lo)) (drop (Z.to_nat (clamp n lo)) l).

(** [l[i]]: [None] stands for the [IndexError] Python raises. *)
Definition py_index {A} (l : list A) (i : Z) : option A :=
  let n := Z.of_nat (length l) in
  let i' := if i <? 0 then i + n else i in
  if (0 <=? i') && (i' <? n) then l !! Z.to_nat i' else None.

(** [range(lo, hi)]. *)
Definition py_range (lo hi : Z) : list Z :=
  map (fun k => lo + Z.of_nat k) (seq 0 (Z.to_nat (hi - lo))).

(** A Python [str] is its sequence of code points. *)
Definition py_str := list Z.

Definition is_continuation (c : Z) : bool := (0x80 <=? c) && (c <=? 0xBF).

(** [bs.decode("utf-8")] with the default strict error handling: shortest
    forms only, no surrogates, nothing above U+10FFFF.  [None] stands for
    the [UnicodeDecodeError]. *)
Fixpoint utf8_decode (bs : list byte) : option py_str :=
  match bs with
  | [] => Some []
  | b0 :: t0 =>
    let c0 := u8 b0 in
    if c0 <? 0x80 then cons c0 <$> utf8_decode t0
    else if (0xC2 <=? c0) && (c0 <=? 0xDF) then
      match t0 with
      | b1 :: t1 =>
        let c1 := u8 b1 in
        if is_continuation c1
        then cons ((c0 - 0xC0) * 64 + (c1 - 0x80)) <$> utf8_decode t1
        else None
      | _ => None
      end
    else if (0xE0 <=? c0) && (c0 <=? 0xEF) then
      match t0 with
      | b1 :: b2 :: t2 =>
        let c1 := u8 b1 in
        let c2 := u8 b2 in
        let lo := if c0 =? 0xE0 then 0xA0 else 0x80 in
        let hi := if c0 =? 0xED then 0x9F else 0xBF in
        if (lo <=? c1) && (c1 <=? hi) && is_continuation c2
        then cons ((c0 - 0xE0) * 4096 + (c1 - 0x80) * 64 + (c2 - 0x80))
               <$> utf8_decode t2
        else None
      | _ => None
      end
    else if (0xF0 <=? c0) && (c0 <=? 0xF4) then
      match t0 with
      | b1 :: b2 :: b3 :: t3 =>
        let c1 := u8 b1 in
        let c2 := u8 b2 in
        let c3 := u8 b3 in
        let lo := if c0 =? 0xF0 then 0x90 else 0x80 in
        let hi := if c0 =? 0xF4 then 0x8F else 0xBF in
        if (lo <=? c1) && (c1 <=? hi) && is_continuation c2 && is_continuation c3
        then cons ((c0 - 0xF0) * 262144 + (c1 - 0x80) * 4096
                   + (c2 - 0x80) * 64 + (c3 - 0x80))
               <$> utf8_decode t3
        else None
      | _ => None
      end
    else None
  end.

(** The literal ["Code"]. *)
Definition str_Code : py_str := [67; 111; 100; 101].

(** ** The object under construction *)

(** The attributes of [self] that the helpers read and write. [pool_count]
    is assigned by [ClassFile.__init__] before [get_constant_pool] reads it. *)
Record state := mkState {
  data : list byte;
  offset : Z;
  i_am_code : Z;
  run_code : list byte;
  pool_count : Z
}.

Definition set_offset (o : Z) (st : state) : state :=
  mkState (data st) o (i_am_code st) (run_code st) (pool_count st).
Definition set_i_am_code (i : Z) (st : state) : state :=
  mkState (data st) (offset st) i (run_code st) (pool_count st).
Definition set_run_code (c : list byte) (st : state) : state :=
  mkState (data st) (offset st) (i_am_code st) c (pool_count st).
Definition set_pool_count (n : Z) (st : state) : state :=
  mkState (data st) (offset st) (i_am_code st) (run_code st) n.

(** The exceptions the module can raise: [data[offset]] past the end,
    [None.copy()] for a tag missing from [tag_table], a failed
    [.decode("utf-8")], and [struct.unpack] on a buffer of the wrong size.
    None of them is raised by the module itself with arguments of its own. *)
Inductive exn := IndexError | AttributeError | UnicodeDecodeError | StructError.

Inductive outcome (A : Type) :=
| Return (a : A) (st : state)
| Raise (e : exn) (st : state).
Arguments Return {A} a st.
Arguments Raise {A} e st.

Definition M (A : Type) := state -> outcome A.

Definition ret {A} (a : A) : M A := fun st => Return a st.
Definition raise {A} (e : exn) : M A := fun st => Raise e st.
Definition bind {A B} (m : M A) (k : A -> M B) : M B :=
  fun st => match m st with
            | Return a st' => k a st'
            | Raise e st' => Raise e st'
            end.
Definition modify (f : state -> state) : M unit := fun st => Return tt (f st).
Definition gets {A} (f : state -> A) : M A := fun st => Return (f st) st.

Notation "x <- c1 ;; c2" := (bind c1 (fun x => c2))
  (at level 100, c1 at next level, right associativity).
Notation "c1 ;;; c2" := (bind c1 (fun _ => c2))
  (at level 100, right associativity).

(** ** The read primitives *)

(** [self.data[self.offset : self.offset + n]; self.offset += n] *)
Definition read_slice (n : Z) : M (list byte) :=
  fun st => Return (py_slice (data st) (offset st) (offset st + n))
                   (set_offset (offset st + n) st).

Definition get_u1 : M Z :=
  fun st => match py_index (data st) (offset st) with
            | Some b => Return (u8 b) (set_offset (offset st + 1) st)
            | None => Raise IndexError st
            end.

Definition get_u2 : M (list byte) := read_slice 2.
Definition get_u4 : M (list byte) := read_slice 4.
Definition get_u8 : M (list byte) := read_slice 8.

(** [length] is the keyword argument, [0] when the caller omits it. *)
Definition get_extended (length : Z) : M (list byte) :=
  length <- (if length =? 0
             then (bs <- get_u2 ;; ret (int_from_bytes bs))
             else ret length) ;;
  read_slice length.

(** [int.from_bytes(get_u2(self), byteorder="big")] and its wider kin. *)
Definition int_u2 : M Z := bs <- get_u2 ;; ret (int_from_bytes bs).
Definition int_u4 : M Z := bs <- get_u4 ;; ret (int_from_bytes bs).
Definition int_u8 : M Z := bs <- get_u8 ;; ret (int_from_bytes bs).

(** [struct.unpack(fmt, bs)] for the one-field formats ["f"] (4 bytes) and
    ["d"] (8 bytes): [struct.error] unless the buffer has exactly that size.
    The floating-point value is kept as the bytes it was unpacked from. *)
Definition struct_unpack (size : nat) (bs : list byte) : M (list byte) :=
  if Nat.eqb (List.length bs) size then ret bs else raise StructError.

Definition str_decode (bs : list byte) : M py_str :=
  match utf8_decode bs with
  | Some s => ret s
  | None => raise UnicodeDecodeError
  end.

(** ** The constant pool *)

(** One entry of the pool: the dictionary copied from [tag_table], with its
    ["type"] as the constructor and its other aspects as the arguments, in
    the order the dictionary lists (and so evaluates) them. *)
Inductive constant :=
| Utf8 (value : py_str)
| Integer (value : Z)
| Float (value : list byte)
| Long (value : Z)
| Double (value : list byte)
| Class (name_index : Z)
| String (string_index : Z)
| Fieldref (class_index name_and_type_index : Z)
| Methodref (class_index name_and_type_index : Z)
| InterfaceMethodref (class_index name_and_type_index : Z)
| NameAndType (name_index descriptor_index : Z)
| MethodHandle (reference_kind reference_index : Z)
| MethodType (descriptor_index : Z)
| InvokeDynamic (bootstrap_method_attr_index name_and_type_index : Z).

(** [tag_table.get(tag, None)]: for a known tag, the reader that calls the
    entry's lambdas in order and fills the copy. *)
Definition tag_table (tag : Z) : option (M constant) :=
  match tag with
  | 1 => Some (bs <- get_extended 0 ;; s <- str_decode bs ;; ret (Utf8 s))
  | 3 => Some (v <- int_u4 ;; ret (Integer v))
  | 4 => Some (bs <- get_u4 ;; v <- struct_unpack 4 bs ;; ret (Float v))
  | 5 => Some (v <- int_u8 ;; ret (Long v))
  | 6 => Some (bs <- get_u8 ;; v <- struct_unpack 8 bs ;; ret (Double v))
  | 7 => Some (n <- int_u2 ;; ret (Class n))
  | 8 => Some (n <- int_u2 ;; ret (String n))
  | 9 => Some (c <- int_u2 ;; n <- int_u2 ;; ret (Fieldref c n))
  | 10 => Some (c <- int_u2 ;; n <- int_u2 ;; ret (Methodref c n))
  | 11 => Some (c <- int_u2 ;; n <- int_u2 ;; ret (InterfaceMethodref c n))
  | 12 => Some (n <- int_u2 ;; d <- int_u2 ;; ret (NameAndType n d))
  | 15 => Some (k <- get_u1 ;; i <- int_u2 ;; ret (MethodHandle k i))
  | 16 => Some (d <- int_u2 ;; ret (MethodType d))
  | 18 => Some (b <- int_u2 ;; n <- int_u2 ;; ret (InvokeDynamic b n))
  | _ => None
  end.

(** What the pool dictionary holds: the count under key 0, entries above. *)
Inductive pool_value :=
| PoolCount (n : Z)
| PoolConstant (c : constant).

(** [tag == 1 and constant["value"] == "Code"] *)
Definition names_code (tag : Z) (c : constant) : bool :=
  (tag =? 1) &&
  match c with
  | Utf8 s => bool_decide (s = str_Code)
  | _ => false
  end.

(** [tag in [5, 6]] *)
Definition is_wide (tag : Z) : bool := (tag =? 5) || (tag =? 6).

(** The body of the [for index in range(1, self.pool_count)] loop. It
    returns the pool and the value the local [index] has when the body
    ends, after the [index += 1] of a wide constant. *)
Definition constant_pool_body (index : Z) (pool : gmap Z pool_value)
  : M (Z * gmap Z pool_value) :=
  tag <- get_u1 ;;
  match tag_table tag with
  | None => raise AttributeError
  | Some read =>
    constant <- read ;;
    let pool := <[index := PoolConstant constant]> pool in
    (if names_code tag constant then modify (set_i_am_code index) else ret tt) ;;;
    let index := if is_wide tag then index + 1 else index in
    ret (index, pool)
  end.

(** The [for] statement: each iteration binds [index] to the next element
    of the range, whatever the previous body left in it. *)
Fixpoint constant_pool_loop (indices : list Z) (pool : gmap Z pool_value)
  : M (gmap Z pool_value) :=
  match indices with
  | [] => ret pool
  | index :: rest =>
    r <- constant_pool_body index pool ;;
    constant_pool_loop rest (snd r)
  end.

Definition get_constant_pool : M (gmap Z pool_value) :=
  n <- gets pool_count ;;
  constant_pool_loop (py_range 1 n) (<[0 := PoolCount n]> ∅).

(** ** Attributes *)

Record attribute := mkAttribute {
  attr_name_index : Z;
  attr_length : Z;
  attr_info : list byte
}.

Definition get_an_attribute : M attribute :=
  name_index <- int_u2 ;;
  length <- int_u4 ;;
  info <- get_extended length ;;
  code <- gets i_am_code ;;
  (if name_index =? code
   then modify (fun st => set_run_code (run_code st ++ info) st)
   else ret tt) ;;;
  ret (mkAttribute name_index length info).

(** The list [get_attributes] builds holds an integer at position 0 and the
    attribute dictionaries after it. *)
Inductive attr_item :=
| Span (n : Z)
| Attr (a : attribute).

(** [attributes[0] += d] *)
Definition add_span (d : Z) (attributes : list attr_item) : list attr_item :=
  match attributes with
  | Span n :: rest => Span (n + d) :: rest
  | _ => attributes
  end.

(** [while num_attributes < count], entered with [num_attributes = 0] and
    stepping by one: [trips] is the number of iterations still to run,
    [count - num_attributes]. *)
Fixpoint attributes_loop (trips : nat) (attributes : list attr_item)
  : M (list attr_item) :=
  match trips with
  | O => ret attributes
  | S trips' =>
    attr <- get_an_attribute ;;
    attributes_loop trips'
      (add_span (6 + attr_length attr) (attributes ++ [Attr attr]))
  end.

Definition get_attributes (count : Z) : M (list attr_item) :=
  let attributes := [Span 0] in
  if count =? 0 then ret attributes
  else attributes_loop (Z.to_nat count) attributes.

(** ** Field and method sections *)

Record member := mkMember {
  access_flags : list byte;
  name_index : Z;
  descriptor_index : Z;
  attributes_count : Z;
  attributes : list attr_item
}.

Inductive info_value :=
| ValuesCount (count : Z)
| Member (m : member).

Definition get_member : M member :=
  flags <- get_u2 ;;
  name <- int_u2 ;;
  descriptor <- int_u2 ;;
  count <- int_u2 ;;
  attrs <- get_attributes count ;;
  ret (mkMember flags name descriptor count attrs).

(** [for val in range(1, count + 1)] *)
Fixpoint info_loop (vals : list Z) (info : gmap Z info_value)
  : M (gmap Z info_value) :=
  match vals with
  | [] => ret info
  | val :: rest =>
    m <- get_member ;;
    info_loop rest (<[val := Member m]> info)
  end.

Definition get_info (count : Z) : M (gmap Z info_value) :=
  info_loop (py_range 1 (count + 1)) (<[0 := ValuesCount count]> ∅).

(** ** The constructor *)

(** The attributes of a finished [ClassFile] object. [interfaces],
    [fields], [methods] and [class_attributes] are assigned under an [if]:
    [None] is an object without that attribute. *)
Record class_file := mkClassFile {
  magic : list byte;
  minor : Z;
  major : Z;
  cp_begin : Z;
  constant_pool : gmap Z pool_value;
  cf_access_flags : list byte;
  this_class : list byte;
  super_class : list byte;
  interfaces_count : Z;
  interfaces_begin : Z;
  interfaces : option (gmap Z info_value);
  fields_count : Z;
  fields_begin : Z;
  fields : option (gmap Z info_value);
  methods_count : Z;
  methods_begin : Z;
  methods : option (gmap Z info_value);
  class_attributes_count : Z;
  class_attributes : option (list attr_item);
  self : state
}.

(** [if count: self.x = reader(self, count)] *)
Definition when_nonzero {A} (count : Z) (reader : Z -> M A) : M (option A) :=
  if count =? 0 then ret None else (x <- reader count ;; ret (Some x)).

(** The state [__init__] starts from on a file with the given contents. *)
Definition init_state (contents : list byte) : state :=
  mkState contents 0 0 [] 0.

Definition init : M class_file :=
  magic <- get_u4 ;;
  minor <- int_u2 ;;
  major <- int_u2 ;;
  n <- int_u2 ;;
  modify (set_pool_count n) ;;;
  cp_begin <- gets offset ;;
  constant_pool <- get_constant_pool ;;
  access_flags <- get_u2 ;;
  this_class <- get_u2 ;;
  super_class <- get_u2 ;;
  interfaces_count <- int_u2 ;;
  interfaces_begin <- gets offset ;;
  interfaces <- when_nonzero interfaces_count get_info ;;
  fields_count <- int_u2 ;;
  fields_begin <- gets offset ;;
  fields <- when_nonzero fields_count get_info ;;
  methods_count <- int_u2 ;;
  methods_begin <- gets offset ;;
  methods <- when_nonzero methods_count get_info ;;
  class_attributes_count <- int_u2 ;;
  class_attributes <- when_nonzero class_attributes_count get_attributes ;;
  self <- gets id ;;
  ret (mkClassFile magic minor major cp_begin constant_pool
         access_flags this_class super_class
         interfaces_count interfaces_begin interfaces
         fields_count fields_begin fields
         methods_count methods_begin methods
         class_attributes_count class_attributes self).

(** [ClassFile(name)] on a file whose contents are [contents]. *)
Definition ClassFile (contents : list byte) : outcome class_file :=
  init (init_state contents).

(** ** Test data *)

Definition byte_of_Z (z : Z) : byte :=
  match Byte.of_N (Z.to_N z) with
  | Some b => b
  | None => x00
  end.

Definition bytes_of (zs : list Z) : list byte := map byte_of_Z zs.



(** ** Vocabulary of the specification *)

(** The number of bytes from the cursor to the end of the buffer. *)
Definition remaining (st : state) : Z :=
  Z.of_nat (length (data st)) - offset st.

(** The cursor invariant [0 <= offset <= len(buffer)]. *)
Definition cursor_inv (st : state) : Prop :=
  0 <= offset st <= Z.of_nat (length (data st)).

(** Fewer than [n] bytes remain. *)
Definition truncated (n : Z) (st : state) : Prop := remaining st < n.

(** [read] returns, having moved the cursor over a prefix of [skip] bytes
    and a value of [n] bytes, with as much of the value as the buffer holds. *)
Definition reads (read : M (list byte)) (st : state) (skip n : Z) : Prop :=
  exists v,
    read st = Return v (set_offset (offset st + skip + n) st) /\
    Z.of_nat (length v) = Z.min n (Z.max 0 (remaining st - skip)).


(** A read keeps the cursor inside the buffer whenever it returns. *)
Definition keeps_cursor_inv {A} (read : M A) : Prop :=
  forall st a st', cursor_inv st -> read st = Return a st' -> cursor_inv st'.


(** A buffer of one byte, with the cursor at its start. *)
Definition one_byte_buffer : state := init_state [x01].

(** ** Class files used as examples *)

Definition u2_bytes (n : Z) : list byte :=
  [byte_of_Z (n / 256); byte_of_Z (n mod 256)].
Definition u4_bytes (n : Z) : list byte :=
  u2_bytes (n / 65536) ++ u2_bytes (n mod 65536).
Definition u8_bytes (n : Z) : list byte :=
  u4_bytes (n / 4294967296) ++ u4_bytes (n mod 4294967296).

(** Constant-pool entries as a compiler writes them. *)
Definition utf8_entry (text : list Z) : list byte :=
  x01 :: u2_bytes (Z.of_nat (length text)) ++ bytes_of text.
Definition class_entry (name : Z) : list byte := x07 :: u2_bytes name.
Definition long_entry (value : Z) : list byte := x05 :: u8_bytes value.

Definition text_A : list Z := [65].
Definition text_I : list Z := [73].
Definition text_Object : list Z :=
  [106; 97; 118; 97; 47; 108; 97; 110; 103; 47; 79; 98; 106; 101; 99; 116].
Definition text_Deprecated : list Z :=
  [68; 101; 112; 114; 101; 99; 97; 116; 101; 100].
Definition text_SourceFile : list Z :=
  [83; 111; 117; 114; 99; 101; 70; 105; 108; 101].
Definition text_A_java : list Z := [65; 46; 106; 97; 118; 97].

(** Magic number, minor version 0, major version 52. *)
Definition header : list byte := bytes_of [0xCA; 0xFE; 0xBA; 0xBE; 0; 0; 0; 52].

(** The second scenario of the specification's section 8, for any choice
    of the bytes it leaves open: magic number and versions, the class's
    access flags, [this_class] and [super_class], and the method's access
    flags, name index and descriptor index. *)
Definition code_method_class
    (magic : (byte * byte) * (byte * byte))
    (minor major flags this super mflags mname mdescriptor : byte * byte)
  : list byte :=
  let pair (p : byte * byte) := [fst p; snd p] in
  pair (fst magic) ++ pair (snd magic) ++ pair minor ++ pair major
  ++ u2_bytes 2 ++ utf8_entry str_Code
  ++ pair flags ++ pair this ++ pair super
  ++ u2_bytes 0                                   (* interfaces_count *)
  ++ u2_bytes 0                                   (* fields_count *)
  ++ u2_bytes 1                                   (* methods_count *)
  ++ pair mflags ++ pair mname ++ pair mdescriptor
  ++ u2_bytes 1                                   (* attributes_count *)
  ++ u2_bytes 1 ++ u4_bytes 3 ++ [x01; x02; x03]  (* the "Code" attribute *)
  ++ u2_bytes 0.                                  (* class attributes *)

(** The first scenario of section 8: the same class, its one method
    without attributes. *)
Definition bare_method_class : list byte :=
  header
  ++ u2_bytes 2 ++ utf8_entry str_Code
  ++ u2_bytes 0x0021 ++ u2_bytes 1 ++ u2_bytes 0
  ++ u2_bytes 0 ++ u2_bytes 0
  ++ u2_bytes 1 ++ u2_bytes 1 ++ u2_bytes 1 ++ u2_bytes 1 ++ u2_bytes 0
  ++ u2_bytes 0.

(** [abstract class A { long x = 1; }], cut down to its structure: the
    [Long] constant sits at index 5, so the format numbers the next entry
    7.  The access flags are [ACC_ABSTRACT | ACC_SUPER | ACC_PUBLIC]. *)
Definition long_class_pool : list byte :=
  utf8_entry text_A ++ class_entry 1
  ++ utf8_entry text_Object ++ class_entry 3
  ++ long_entry 1
  ++ utf8_entry str_Code.

Definition long_class (flags : Z) : list byte :=
  header ++ u2_bytes 8 ++ long_class_pool
  ++ u2_bytes flags ++ u2_bytes 2 ++ u2_bytes 4
  ++ u2_bytes 0 ++ u2_bytes 0 ++ u2_bytes 0 ++ u2_bytes 0.

(** [class A implements I {}]: one interface, the class at pool index 6. *)
Definition interface_class : list byte :=
  header ++ u2_bytes 7
  ++ utf8_entry text_A ++ class_entry 1
  ++ utf8_entry text_Object ++ class_entry 3
  ++ utf8_entry text_I ++ class_entry 5
  ++ u2_bytes 0x0021 ++ u2_bytes 2 ++ u2_bytes 4
  ++ u2_bytes 1 ++ u2_bytes 6                     (* interfaces *)
  ++ u2_bytes 0 ++ u2_bytes 0 ++ u2_bytes 0.

(** [@Deprecated class A {}]: two class attributes, [Deprecated] of length
    0 and [SourceFile] of length 2. *)
Definition deprecated_class_head : list byte :=
  header ++ u2_bytes 8
  ++ utf8_entry text_A ++ class_entry 1
  ++ utf8_entry text_Object ++ class_entry 3
  ++ utf8_entry text_Deprecated ++ utf8_entry text_SourceFile
  ++ utf8_entry text_A_java
  ++ u2_bytes 0x0021 ++ u2_bytes 2 ++ u2_bytes 4
  ++ u2_bytes 0 ++ u2_bytes 0 ++ u2_bytes 0
  ++ u2_bytes 2.

Definition deprecated_class : list byte :=
  deprecated_class_head
  ++ u2_bytes 5 ++ u4_bytes 0                     (* Deprecated *)
  ++ u2_bytes 6 ++ u4_bytes 2 ++ u2_bytes 7.      (* SourceFile *)

(** The object when [get_attributes] reaches the first class attribute of
    [deprecated_class]. *)
Definition at_deprecated_attribute : state :=
  mkState deprecated_class (Z.of_nat (length deprecated_class_head)) 0 [] 8.

(** ** Attribute lists, code bodies and the sentinel *)

(** The attribute dictionaries of a list built by [get_attributes]. *)
Definition attrs_of (items : list attr_item) : list attribute :=
  flat_map (fun i => match i with Attr a => [a] | Span _ => [] end) items.

(** The sum of [6 + length] over the attributes. *)
Definition declared_span (attrs : list attribute) : Z :=
  foldr (fun a acc => 6 + attr_length a + acc) 0 attrs.

(** The bytes of the attributes whose name index is [code], in order. *)
Definition code_bodies (code : Z) (attrs : list attribute) : list byte :=
  flat_map (fun a => if attr_name_index a =? code then attr_info a else []) attrs.

(** Only the offset differs between the two states. *)
Definition only_offset (st st' : state) : Prop :=
  st' = set_offset (offset st') st.

(** Everything but the offset and the accumulator is the same. *)
Definition same_file (st st' : state) : Prop :=
  data st' = data st /\ i_am_code st' = i_am_code st /\
  pool_count st' = pool_count st.

(** The pool entry is a [Utf8] constant with the text ["Code"]. *)
Definition is_code_entry (v : option pool_value) : bool :=
  match v with
  | Some (PoolConstant (Utf8 s)) => bool_decide (s = str_Code)
  | _ => false
  end.

(** The count stored under key 0 of a pool. *)
Definition stored_count (pool : gmap Z pool_value) : Z :=
  match pool !! 0 with
  | Some (PoolCount n) => n
  | _ => 0
  end.

(** The last index of [indices] holding a ["Code"] entry, else [start]. *)
Definition last_code_index (pool : gmap Z pool_value) (indices : list Z)
    (start : Z) : Z :=
  default start (last (filter (fun i => is_code_entry (pool !! i) = true) indices)).

(** The sentinel a pool determines: the highest index holding a [Utf8]
    entry ["Code"], and [0] when there is none. *)
Definition code_sentinel (pool : gmap Z pool_value) : Z :=
  last_code_index pool (py_range 1 (stored_count pool)) 0.

(** The attributes of the members of a section built by [get_info], in
    the order they were read. *)
Definition member_attributes (v : option info_value) : list attribute :=
  match v with
  | Some (Member m) => attrs_of (attributes m)
  | _ => []
  end.

Definition values_count (info : gmap Z info_value) : Z :=
  match info !! 0 with
  | Some (ValuesCount count) => count
  | _ => 0
  end.

Definition info_attributes (info : gmap Z info_value) : list attribute :=
  flat_map (fun val => member_attributes (info !! val))
           (py_range 1 (values_count info + 1)).

Definition section_attributes (section : option (gmap Z info_value))
  : list attribute :=
  match section with
  | Some info => info_attributes info
  | None => []
  end.

(** Every attribute of a decoded class file, in the order it was read. *)
Definition all_attributes (cf : class_file) : list attribute :=
  section_attributes (interfaces cf)
  ++ section_attributes (fields cf)
  ++ section_attributes (methods cf)
  ++ match class_attributes cf with
     | Some items => attrs_of items
     | None => []
     end.

(** What an exception value of this module tells its handler about the
    pool: a tag and the offset it was read at, if any.  [IndexError] and
    [AttributeError] are raised by the interpreter with a message only,
    [UnicodeDecodeError] by the codec about the string it was given and
    [struct.error] by [struct.unpack] about a buffer size. *)
Definition reported_tag (e : exn) : option (Z * Z) :=
  match e with
  | IndexError => None
  | AttributeError => None
  | UnicodeDecodeError => None
  | StructError => None
  end.

(** The failure the specification asks for on an unknown tag. *)
Definition reports_unknown_tag {A} (o : outcome A) (tag off : Z) : Prop :=
  exists e st, o = Raise e st /\ reported_tag e = Some (tag, off).

(** A pool of two declared entries whose first tag byte is the undefined
    2, and the same as a whole file. *)
Definition tag2_pool : state := mkState (bytes_of [2; 0; 1]) 0 0 [] 2.
Definition tag2_class : list byte := header ++ u2_bytes 2 ++ bytes_of [2; 0; 1].

(** A pool of three declared entries: a [Class] entry, then tag 2. *)
Definition class_then_tag2_pool : state :=
  mkState (class_entry 1 ++ bytes_of [2; 0; 1]) 0 0 [] 3.

(** ** Proof steps *)

(** Evaluating a bind chain held in a hypothesis: slices and integer
    reads always return; the other steps are split on their outcome. *)
Ltac run_reader H :=
  cbv [bind ret raise get_extended int_u2 int_u4 int_u8 get_u2 get_u4 get_u8
         read_slice struct_unpack str_decode get_u1] in H;
  cbn [Z.eqb] in H;
  repeat case_match; simplify_eq.


(** ** Vocabulary of the further properties *)

(** The bytes an entry of the given tag takes after its tag byte, for the
    tags whose entries have a fixed shape (every tag of [tag_table] but 1). *)
Definition entry_width (tag : Z) : Z :=
  match tag with
  | 3 | 4 => 4
  | 5 | 6 => 8
  | 7 | 8 | 16 => 2
  | 9 | 10 | 11 | 12 | 18 => 4
  | 15 => 3
  | _ => 0
  end.

(** The values an entry can hold: what [int.from_bytes] yields for a slice
    of two, four or eight bytes and [data[i]] for one byte, and the buffers
    [struct.unpack] accepts. *)
Definition constant_in_range (c : constant) : Prop :=
  let u1 (n : Z) := 0 <= n < 256 in
  let u2 (n : Z) := 0 <= n < 65536 in
  match c with
  | Utf8 _ => True
  | Integer v => 0 <= v < 2 ^ 32
  | Long v => 0 <= v < 2 ^ 64
  | Float bs => length bs = 4%nat
  | Double bs => length bs = 8%nat
  | Class n | String n | MethodType n => u2 n
  | Fieldref a b | Methodref a b | InterfaceMethodref a b
  | NameAndType a b | InvokeDynamic a b => u2 a /\ u2 b
  | MethodHandle k i => u1 k /\ u2 i
  end.

(** An object four bytes into a buffer of eight. *)
Definition mid_buffer : state :=
  mkState (bytes_of [0xCA; 0xFE; 0xBA; 0xBE; 0x12; 0x34; 0x56; 0x78]) 4 0 [] 0.

(** An object at the start of a buffer holding the given bytes. *)
Definition at_start (bs : list Z) : state := mkState (bytes_of bs) 0 0 [] 0.

(** The bytes a [Utf8] entry starting at the cursor hands to
    [.decode("utf-8")]: those after the tag byte and the two-byte length,
    as many as the length says and the buffer holds. *)
Definition utf8_payload (st : state) : list byte :=
  let n := int_from_bytes (py_slice (data st) (offset st + 1) (offset st + 3)) in
  py_slice (data st) (offset st + 3) (offset st + 3 + n).

(** The entry at the cursor has tag 1 and the four bytes [43 6f 64 65]. *)
Definition at_code_entry (st : state) : Prop :=
  py_index (data st) (offset st) = Some x01 /\
  utf8_payload st = bytes_of str_Code.

(** A pool entry [Utf8 "Code"] at the start of a buffer. *)
Definition code_entry_buffer : state :=
  mkState (utf8_entry str_Code) 0 0 [] 2.

(** A pool that declares three entries and holds one [Class] entry. *)
Definition short_pool : state := mkState (class_entry 1) 0 0 [] 3.

(** A pool of two [Class] entries. *)
Definition two_class_pool : state :=
  mkState (class_entry 2 ++ class_entry 1) 0 0 [] 3.

(** What holds of every member [get_info] builds: its attribute list is
    the span followed by as many attributes as the member's count says,
    the span is the sum of [6 + length] over them, and the indices and
    the count are values of two bytes. *)
Definition member_shape (m : member) : Prop :=
  0 <= name_index m < 65536 /\
  0 <= descriptor_index m < 65536 /\
  0 <= attributes_count m < 65536 /\
  Z.of_nat (length (access_flags m)) <= 2 /\
  exists attrs,
    attributes m = Span (declared_span attrs) :: map Attr attrs /\
    Z.of_nat (length attrs) = attributes_count m.

(** An attribute with name index 7 and the two bytes [ca fe], at the start
    of a buffer that ends with it. *)
Definition attribute_buffer : state :=
  mkState (u2_bytes 7 ++ u4_bytes 2 ++ bytes_of [0xCA; 0xFE]) 0 0 [] 0.

(** Two members without attributes. *)
Definition two_members_buffer : state :=
  mkState (u2_bytes 1 ++ u2_bytes 2 ++ u2_bytes 3 ++ u2_bytes 0
           ++ u2_bytes 9 ++ u2_bytes 4 ++ u2_bytes 5 ++ u2_bytes 0) 0 0 [] 0.

(** The object when [__init__] calls [get_constant_pool]: the cursor
    behind the ten bytes of magic number, versions and pool count. *)
Definition after_header (contents : list byte) : state :=
  mkState contents 10 0 [] (int_from_bytes (py_slice contents 8 10)).

(** ** Bytes behind the cursor *)

(** The same object over a buffer with [extra] appended. *)
Definition extended (extra : list byte) (st : state) : state :=
  mkState (data st ++ extra) (offset st) (i_am_code st) (run_code st)
          (pool_count st).

(** The decoded class file with another object as its [self]. *)
Definition with_self (s : state) (cf : class_file) : class_file :=
  mkClassFile (magic cf) (minor cf) (major cf) (cp_begin cf) (constant_pool cf)
    (cf_access_flags cf) (this_class cf) (super_class cf)
    (interfaces_count cf) (interfaces_begin cf) (interfaces cf)
    (fields_count cf) (fields_begin cf) (fields cf)
    (methods_count cf) (methods_begin cf) (methods cf)
    (class_attributes_count cf) (class_attributes cf) s.

(** A result that does not hold the object. *)
Definition keep {A} (s : state) (a : A) : A := a.

(** A step is local when it only moves the cursor forward over the same
    buffer, and when, provided it stopped inside the buffer, it does the
    same on any longer buffer; [g] says how the result follows the
    object. *)
Definition local {A} (g : state -> A -> A) (m : M A) : Prop :=
  forall st a st',
    m st = Return a st' ->
    (offset st <= offset st' /\ data st' = data st) /\
    (forall extra,
       0 <= offset st -> offset st' <= Z.of_nat (length (data st)) ->
       m (extended extra st) = Return (g (extended extra st') a) (extended extra st')).

(** ** Attributes as the format writes them *)

(** The bytes of an attribute in a class file: name index in two bytes,
    length in four, then the attribute's bytes. *)
Definition encode_attribute (a : attribute) : list byte :=
  u2_bytes (attr_name_index a) ++ u4_bytes (attr_length a) ++ attr_info a.

(** An attribute the format can write and [get_an_attribute] reads back:
    its fields fit their widths, its length is that of its bytes, and it
    is not empty. *)
Definition writable_attribute (a : attribute) : Prop :=
  0 <= attr_name_index a < 65536 /\
  0 < attr_length a < 2 ^ 32 /\
  Z.of_nat (length (attr_info a)) = attr_length a.

(** The object after reading the attributes [attrs] from [st]. *)
Definition after_attributes (attrs : list attribute) (st : state) : state :=
  mkState (data st) (offset st + declared_span attrs) (i_am_code st)
          (run_code st ++ code_bodies (i_am_code st) attrs) (pool_count st).

(** Two attributes and a buffer that holds them behind one other byte. *)
Definition two_attributes : list attribute :=
  [mkAttribute 7 2 (bytes_of [0xCA; 0xFE]); mkAttribute 1 1 [x2a]].

Definition round_trip_buffer : state :=
  mkState ([xff] ++ flat_map encode_attribute two_attributes ++ [x00]) 1 1 [] 0.

(** ** Members as the format writes them *)

(** The bytes of a field or method: access flags, name index, descriptor
    index and attribute count in two bytes each, then the attributes. *)
Definition encode_member (m : member) : list byte :=
  access_flags m ++ u2_bytes (name_index m) ++ u2_bytes (descriptor_index m)
  ++ u2_bytes (attributes_count m)
  ++ flat_map encode_attribute (attrs_of (attributes m)).

(** A member the format can write and [get_info] reads back. *)
Definition writable_member (m : member) : Prop :=
  length (access_flags m) = 2%nat /\
  0 <= name_index m < 65536 /\
  0 <= descriptor_index m < 65536 /\
  0 <= attributes_count m < 65536 /\
  exists attrs,
    attributes m = Span (declared_span attrs) :: map Attr attrs /\
    Z.of_nat (length attrs) = attributes_count m /\
    Forall writable_attribute attrs.

(** All attributes of a list of members, in order. *)
Definition members_attributes (ms : list member) : list attribute :=
  flat_map (fun m => attrs_of (attributes m)) ms.

(** The object after reading the members [ms] from [st]. *)
Definition after_members (ms : list member) (st : state) : state :=
  mkState (data st)
          (offset st + Z.of_nat (length (flat_map encode_member ms)))
          (i_am_code st)
          (run_code st ++ code_bodies (i_am_code st) (members_attributes ms))
          (pool_count st).

(** A method with the two attributes above, and a buffer holding it. *)
Definition sample_member : member :=
  mkMember (u2_bytes 1) 5 6 2
           (Span (declared_span two_attributes) :: map Attr two_attributes).

Definition member_buffer : state :=
  mkState ([xff] ++ flat_map encode_member [sample_member] ++ [x00]) 1 1 [] 0.

(** ** Constants as the format writes them *)

(** The tag byte of an entry. *)
Definition constant_tag (c : constant) : Z :=
  match c with
  | Utf8 _ => 1
  | Integer _ => 3
  | Float _ => 4
  | Long _ => 5
  | Double _ => 6
  | Class _ => 7
  | String _ => 8
  | Fieldref _ _ => 9
  | Methodref _ _ => 10
  | InterfaceMethodref _ _ => 11
  | NameAndType _ _ => 12
  | MethodHandle _ _ => 15
  | MethodType _ => 16
  | InvokeDynamic _ _ => 18
  end.

(** The bytes of an entry behind its tag.  A text is written one byte per
    code point, which is its UTF-8 form when every code point is below
    128; a [Float] or [Double] is written as the bytes it is kept as. *)
Definition constant_payload (c : constant) : list byte :=
  match c with
  | Utf8 s => u2_bytes (Z.of_nat (length s)) ++ bytes_of s
  | Integer v => u4_bytes v
  | Float bs | Double bs => bs
  | Long v => u8_bytes v
  | Class n | String n | MethodType n => u2_bytes n
  | Fieldref a b | Methodref a b | InterfaceMethodref a b
  | NameAndType a b | InvokeDynamic a b => u2_bytes a ++ u2_bytes b
  | MethodHandle k i => byte_of_Z k :: u2_bytes i
  end.

Definition encode_constant (c : constant) : list byte :=
  byte_of_Z (constant_tag c) :: constant_payload c.

(** An entry the format can write this way and the reader reads back. *)
Definition writable_constant (c : constant) : Prop :=
  let u2 (n : Z) := 0 <= n < 65536 in
  match c with
  | Utf8 s => Forall (fun p => 0 <= p < 128) s /\ Z.of_nat (length s) < 65536
  | Integer v => 0 <= v < 2 ^ 32
  | Long v => 0 <= v < 2 ^ 64
  | Float bs => length bs = 4%nat
  | Double bs => length bs = 8%nat
  | Class n | String n | MethodType n => u2 n
  | Fieldref a b | Methodref a b | InterfaceMethodref a b
  | NameAndType a b | InvokeDynamic a b => u2 a /\ u2 b
  | MethodHandle k i => 0 <= k < 256 /\ u2 i
  end.

(** [m], started at the first byte of [bs] anywhere in the buffer,
    returns [a] with the cursor right behind [bs] and nothing else
    changed. *)
Definition consumes {A} (m : M A) (bs : list byte) (a : A) : Prop :=
  forall st pre post,
    data st = pre ++ bs ++ post ->
    offset st = Z.of_nat (length pre) ->
    m st = Return a (set_offset (offset st + Z.of_nat (length bs)) st).

(** A pool with a [Long] in the middle, and a buffer holding it. *)
Definition sample_constants : list constant :=
  [Utf8 [65]; Class 1; Long 1; Utf8 str_Code; MethodHandle 6 2; Float (u4_bytes 1)].

Definition constants_buffer : state :=
  mkState (header ++ u2_bytes 7 ++ flat_map encode_constant sample_constants
           ++ u2_bytes 0x21) 10 0 [] 7.

(** ** Class files as the format writes them *)

(** The members of a section of a decoded class file, in key order; an
    object without the section has none. *)
Definition members_of (section : option (gmap Z info_value)) : list member :=
  match section with
  | None => []
  | Some info =>
    omap (fun val => match info !! val with
                     | Some (Member m) => Some m
                     | _ => None
                     end)
         (py_range 1 (values_count info + 1))
  end.

(** The attributes of an optional attribute list. *)
Definition attributes_of (items : option (list attr_item)) : list attribute :=
  match items with
  | Some l => attrs_of l
  | None => []
  end.

(** What a class file without interfaces is made of. *)
Record class_source := mkClassSource {
  src_magic : list byte;
  src_minor : Z;
  src_major : Z;
  src_constants : list constant;
  src_flags : list byte;
  src_this : list byte;
  src_super : list byte;
  src_fields : list member;
  src_methods : list member;
  src_attributes : list attribute
}.

(** The bytes of the part of a class file before its constant pool. *)
Definition encode_header (src : class_source) : list byte :=
  src_magic src ++ u2_bytes (src_minor src) ++ u2_bytes (src_major src)
  ++ u2_bytes (Z.of_nat (length (src_constants src)) + 1).

(** The bytes of the part of a class file behind its constant pool, with
    an interface count of 0. *)
Definition encode_body (src : class_source) : list byte :=
  src_flags src ++ src_this src ++ src_super src
  ++ u2_bytes 0
  ++ u2_bytes (Z.of_nat (length (src_fields src)))
  ++ flat_map encode_member (src_fields src)
  ++ u2_bytes (Z.of_nat (length (src_methods src)))
  ++ flat_map encode_member (src_methods src)
  ++ u2_bytes (Z.of_nat (length (src_attributes src)))
  ++ flat_map encode_attribute (src_attributes src).

Definition encode_class (src : class_source) : list byte :=
  encode_header src ++ flat_map encode_constant (src_constants src)
  ++ encode_body src.

(** A class the format writes this way and the constructor reads back:
    its fields fit their widths, and it has no [Long] or [Double]
    constant (the format makes those take two indices each). *)
Definition writable_class (src : class_source) : Prop :=
  length (src_magic src) = 4%nat /\
  0 <= src_minor src < 65536 /\
  0 <= src_major src < 65536 /\
  Z.of_nat (length (src_constants src)) + 1 < 65536 /\
  Forall writable_constant (src_constants src) /\
  Forall (fun c => is_wide (constant_tag c) = false) (src_constants src) /\
  length (src_flags src) = 2%nat /\
  length (src_this src) = 2%nat /\
  length (src_super src) = 2%nat /\
  Z.of_nat (length (src_fields src)) < 65536 /\
  Forall writable_member (src_fields src) /\
  Z.of_nat (length (src_methods src)) < 65536 /\
  Forall writable_member (src_methods src) /\
  Z.of_nat (length (src_attributes src)) < 65536 /\
  Forall writable_attribute (src_attributes src).

(** A class with a field, a method with a ["Code"] attribute and a class
    attribute. *)
Definition sample_source : class_source :=
  mkClassSource
    (bytes_of [0xCA; 0xFE; 0xBA; 0xBE]) 0 52
    [Utf8 [65]; Class 1; Integer 7; Utf8 str_Code; Utf8 [120]; Utf8 [74]]
    (u2_bytes 0x21) (u2_bytes 2) (u2_bytes 0)
    [mkMember (u2_bytes 2) 5 6 0 [Span 0]]
    [mkMember (u2_bytes 1) 5 6 1
       [Span 9; Attr (mkAttribute 4 3 [x01; x02; x03])]]
    [mkAttribute 5 1 [x2a]].
(** ** Python slices, indexing and big-endian integers *)

Section PythonValues.
Context {A : Type}.
Implicit Types (l : list A) (lo hi i : Z).

(** For the bounds the reader uses ([0 <= lo <= hi]) a slice is a
    [take] of a [drop]. *)
Lemma py_slice_take_drop l lo hi :
  0 <= lo -> lo <= hi ->
  py_slice l lo hi = take (Z.to_nat (hi - lo)) (drop (Z.to_nat lo) l).
Proof.
  intros Hlo Hhi. unfold py_slice, clamp.
  destruct (Z.ltb_spec lo 0); [lia|].
  destruct (Z.ltb_spec hi 0); [lia|].
  destruct (Z_le_gt_dec (Z.of_nat (length l)) lo) as [Hge|Hlt].
  - rewrite !drop_ge by lia. by rewrite !take_nil.
  - replace (Z.min lo (Z.of_nat (length l))) with lo by lia.
    destruct (Z_le_gt_dec hi (Z.of_nat (length l))).
    + by replace (Z.min hi (Z.of_nat (length l))) with hi by lia.
    + replace (Z.min hi (Z.of_nat (length l))) with (Z.of_nat (length l)) by lia.
      rewrite !take_ge; [done| |]; rewrite length_drop; lia.
Qed.

Lemma py_slice_length l lo hi :
  0 <= lo -> lo <= hi ->
  Z.of_nat (length (py_slice l lo hi))
  = Z.min (hi - lo) (Z.max 0 (Z.of_nat (length l) - lo)).
Proof.
  intros Hlo Hhi. rewrite py_slice_take_drop by done.
  rewrite length_take, length_drop. lia.
Qed.

Lemma py_slice_length_fits l lo hi :
  0 <= lo -> lo <= hi -> hi <= Z.of_nat (length l) ->
  Z.of_nat (length (py_slice l lo hi)) = hi - lo.
Proof. intros. rewrite py_slice_length by done. lia. Qed.

Lemma py_slice_length_short l lo hi :
  0 <= lo -> lo < hi -> Z.of_nat (length l) < hi ->
  Z.of_nat (length (py_slice l lo hi)) < hi - lo.
Proof. intros. rewrite py_slice_length by lia. lia. Qed.

Lemma py_index_None l i :
  0 <= i -> Z.of_nat (length l) <= i -> py_index l i = None.
Proof.
  intros Hi Hlen. unfold py_index.
  destruct (Z.ltb_spec i 0); [lia|].
  destruct (Z.ltb_spec i (Z.of_nat (length l))); [lia|].
  by rewrite andb_false_r.
Qed.

Lemma py_index_Some l i :
  0 <= i -> i < Z.of_nat (length l) -> is_Some (py_index l i).
Proof.
  intros Hi Hlen. unfold py_index.
  destruct (Z.ltb_spec i 0); [lia|].
  destruct (Z.leb_spec 0 i); [|lia].
  destruct (Z.ltb_spec i (Z.of_nat (length l))); [|lia].
  simpl. apply lookup_lt_is_Some. lia.
Qed.

Lemma py_index_Some_inv l i x :
  0 <= i -> py_index l i = Some x -> i < Z.of_nat (length l).
Proof.
  intros Hi. unfold py_index.
  destruct (Z.ltb_spec i 0); [lia|].
  destruct (Z.ltb_spec i (Z.of_nat (length l))); [done|].
  by rewrite andb_false_r.
Qed.
End PythonValues.

Lemma u8_range b : 0 <= u8 b < 256.
Proof. unfold u8. pose proof (Byte.to_N_bounded b). lia. Qed.

Lemma int_from_bytes_acc_nonneg bs acc :
  0 <= acc -> 0 <= fold_left (fun acc b => acc * 256 + u8 b) bs acc.
Proof.
  revert acc. induction bs as [|b bs IH]; intros acc Hacc; simpl; [done|].
  apply IH. pose proof (u8_range b). lia.
Qed.

Lemma int_from_bytes_nonneg bs : 0 <= int_from_bytes bs.
Proof. by apply int_from_bytes_acc_nonneg. Qed.

Lemma py_range_cons lo hi :
  lo < hi -> py_range lo hi = lo :: py_range (lo + 1) hi.
Proof.
  intros Hlt. unfold py_range.
  replace (Z.to_nat (hi - lo)) with (S (Z.to_nat (hi - (lo + 1)))) by lia.
  simpl. f_equal; [lia|].
  rewrite <- seq_shift, map_map. apply map_ext. intros k. lia.
Qed.

Lemma py_range_nil lo hi : hi <= lo -> py_range lo hi = [].
Proof. intros Hle. unfold py_range. by replace (Z.to_nat (hi - lo)) with O by lia. Qed.

Lemma elem_of_py_range lo hi i : i ∈ py_range lo hi <-> lo <= i < hi.
Proof.
  unfold py_range. rewrite list_elem_of_In, in_map_iff. split.
  - intros (k & <- & Hk). apply in_seq in Hk. lia.
  - intros Hi. exists (Z.to_nat (i - lo)). split; [lia|]. apply in_seq. lia.
Qed.

Lemma NoDup_py_range lo hi : NoDup (py_range lo hi).
Proof.
  unfold py_range. apply NoDup_fmap_2; [|apply NoDup_seq].
  intros j k Hjk. lia.
Qed.

(** ** The monad *)

Lemma bind_Return {A B} (m : M A) (k : A -> M B) st b st' :
  bind m k st = Return b st' ->
  exists a st1, m st = Return a st1 /\ k a st1 = Return b st'.
Proof. unfold bind. destruct (m st) as [a st1|e st1]; [eauto|discriminate]. Qed.

Lemma bind_Raise {A B} (m : M A) (k : A -> M B) st e st' :
  bind m k st = Raise e st' ->
  m st = Raise e st' \/ exists a st1, m st = Return a st1 /\ k a st1 = Raise e st'.
Proof. unfold bind. destruct (m st) as [a st1|e1 st1]; [eauto|]. intros [= -> ->]. by left. Qed.

Lemma bind_eq_Return {A B} (m : M A) (k : A -> M B) st a st1 :
  m st = Return a st1 -> bind m k st = k a st1.
Proof. unfold bind. by intros ->. Qed.

(** ** The read primitives in closed form *)

Lemma read_slice_eq n st :
  read_slice n st
  = Return (py_slice (data st) (offset st) (offset st + n))
           (set_offset (offset st + n) st).
Proof. reflexivity. Qed.

Lemma int_u2_eq st :
  int_u2 st
  = Return (int_from_bytes (py_slice (data st) (offset st) (offset st + 2)))
           (set_offset (offset st + 2) st).
Proof. reflexivity. Qed.

Lemma int_u4_eq st :
  int_u4 st
  = Return (int_from_bytes (py_slice (data st) (offset st) (offset st + 4)))
           (set_offset (offset st + 4) st).
Proof. reflexivity. Qed.

Lemma get_extended_nonzero len st :
  len <> 0 -> get_extended len st = read_slice len st.
Proof.
  intros Hlen. unfold get_extended.
  destruct (Z.eqb_spec len 0); [done|]. reflexivity.
Qed.

Lemma get_extended_zero st :
  get_extended 0 st = (n <- int_u2 ;; read_slice n) st.
Proof. reflexivity. Qed.



Lemma get_u1_Raise st e st' :
  cursor_inv st -> get_u1 st = Raise e st' ->
  e = IndexError /\ st' = st /\ truncated 1 st.
Proof.
  unfold cursor_inv, truncated, remaining, get_u1. intros Hinv.
  destruct (py_index (data st) (offset st)) as [b|] eqn:Hb; [discriminate|].
  intros [= <- <-]. split; [done|]. split; [done|].
  destruct (Z_lt_ge_dec (offset st) (Z.of_nat (length (data st)))) as [Hlt|Hge]; [|lia].
  destruct (py_index_Some (data st) (offset st)) as [x Hx]; [lia|done|congruence].
Qed.

Lemma get_u1_Return st v st' :
  cursor_inv st -> get_u1 st = Return v st' ->
  st' = set_offset (offset st + 1) st /\ cursor_inv st' /\ 0 <= v < 256.
Proof.
  unfold cursor_inv, get_u1. intros Hinv.
  destruct (py_index (data st) (offset st)) as [b|] eqn:Hb; [|discriminate].
  intros [= <- <-]. apply py_index_Some_inv in Hb; [|lia].
  split; [done|]. split; [simpl; lia|apply u8_range].
Qed.

Lemma read_slice_reads n st :
  cursor_inv st -> 0 <= n -> reads (read_slice n) st 0 n.
Proof.
  unfold cursor_inv, reads, remaining. intros Hinv Hn.
  eexists. split.
  - rewrite read_slice_eq. by replace (offset st + 0 + n) with (offset st + n) by lia.
  - rewrite py_slice_length by lia. lia.
Qed.

Lemma get_extended_zero_reads st :
  cursor_inv st ->
  reads (get_extended 0) st 2
        (int_from_bytes (py_slice (data st) (offset st) (offset st + 2))).
Proof.
  unfold cursor_inv, reads, remaining. intros Hinv.
  pose proof (int_from_bytes_nonneg (py_slice (data st) (offset st) (offset st + 2))) as Hn.
  eexists. split.
  - rewrite get_extended_zero. unfold bind. rewrite int_u2_eq, read_slice_eq. reflexivity.
  - rewrite py_slice_length by (simpl; lia). simpl. lia.
Qed.

Lemma cursor_inv_advance st n :
  cursor_inv st -> 0 <= n ->
  (cursor_inv (set_offset (offset st + n) st) <-> ~ truncated n st).
Proof. unfold cursor_inv, truncated, remaining. simpl. lia. Qed.


(** ** Truncated buffers *)




(** ** The cursor invariant *)

(** C6, as the specification states it, fails: [get_u2] on a one-byte
    buffer returns and leaves the offset at 2, past the end. *)
Lemma get_u2_leaves_buffer :
  cursor_inv one_byte_buffer /\
  get_u2 one_byte_buffer = Return [x01] (set_offset 2 one_byte_buffer) /\
  ~ cursor_inv (set_offset 2 one_byte_buffer) /\
  ~ keeps_cursor_inv get_u2.
Proof.
  assert (Hinv : cursor_inv one_byte_buffer) by (unfold cursor_inv; simpl; lia).
  assert (Hout : ~ cursor_inv (set_offset 2 one_byte_buffer))
    by (unfold cursor_inv; simpl; lia).
  split; [done|]. split; [reflexivity|]. split; [done|].
  intros Hkeep. apply Hout. by eapply (Hkeep one_byte_buffer).
Qed.

(** C6 (amended): [get_u1] advances the offset by one when a byte remains
    and otherwise raises with the offset unchanged, so it preserves
    [0 <= offset <= len(buffer)].  The slicing primitives always return and
    always advance the offset by the full width asked for (2, 4, 8,
    [length], or 2 plus the prefix value when [get_extended] reads its own
    length), returning only the bytes that exist; the offset stays
    non-negative, and it stays within the buffer exactly when the span
    asked for fits in what remains. *)
Theorem cursor_advance (st : state) :
  cursor_inv st ->
  (forall v st', get_u1 st = Return v st' ->
                 st' = set_offset (offset st + 1) st /\ cursor_inv st') /\
  (forall e st', get_u1 st = Raise e st' -> st' = st) /\
  reads get_u2 st 0 2 /\
  reads get_u4 st 0 4 /\
  reads get_u8 st 0 8 /\
  (forall len, 0 < len -> reads (get_extended len) st 0 len) /\
  reads (get_extended 0) st 2
        (int_from_bytes (py_slice (data st) (offset st) (offset st + 2))) /\
  (forall n, 0 <= n ->
     0 <= offset st + n /\
     (cursor_inv (set_offset (offset st + n) st) <-> ~ truncated n st)).
Proof.
  intros Hinv. split_and!.
  - intros v st' Hret. by destruct (get_u1_Return st v st' Hinv Hret) as (? & ? & _).
  - intros e st' Hraise. by destruct (get_u1_Raise st e st' Hinv Hraise) as (_ & ? & _).
  - by apply (read_slice_reads 2).
  - by apply (read_slice_reads 4).
  - by apply (read_slice_reads 8).
  - intros len Hlen. unfold reads.
    rewrite get_extended_nonzero by lia. apply read_slice_reads; [done|lia].
  - by apply get_extended_zero_reads.
  - intros n Hn. split; [unfold cursor_inv in Hinv; lia|].
    by apply cursor_inv_advance.
Qed.

(** On the one-byte buffer [get_u4] returns the one byte and moves on by four. *)
Lemma cursor_advance_witness :
  cursor_inv one_byte_buffer /\ reads get_u4 one_byte_buffer 0 4.
Proof.
  assert (Hinv : cursor_inv one_byte_buffer) by (unfold cursor_inv; simpl; lia).
  split; [exact Hinv|].
  destruct (cursor_advance one_byte_buffer Hinv) as (_ & _ & _ & Hu4 & _).
  exact Hu4.
Defined.

(** ** One attribute *)

(** [get_an_attribute] always returns.  It changes the offset and, when the
    name index equals the sentinel, the accumulator; the offset moves by
    [6 + length] for a non-zero [length], and for [length = 0] by the 6
    bytes, a further two-byte prefix and the bytes that prefix counts,
    because [get_extended] takes the [0] for an omitted argument. *)
Lemma get_an_attribute_spec st :
  exists a st',
    get_an_attribute st = Return a st' /\
    data st' = data st /\ i_am_code st' = i_am_code st /\
    pool_count st' = pool_count st /\
    run_code st'
    = run_code st ++ (if attr_name_index a =? i_am_code st then attr_info a else []) /\
    attr_name_index a
    = int_from_bytes (py_slice (data st) (offset st) (offset st + 2)) /\
    attr_length a
    = int_from_bytes (py_slice (data st) (offset st + 2) (offset st + 6)) /\
    (attr_length a <> 0 ->
     offset st' = offset st + 6 + attr_length a /\
     attr_info a = py_slice (data st) (offset st + 6) (offset st + 6 + attr_length a)) /\
    (attr_length a = 0 ->
     let n := int_from_bytes (py_slice (data st) (offset st + 6) (offset st + 8)) in
     offset st' = offset st + 8 + n /\
     attr_info a = py_slice (data st) (offset st + 8) (offset st + 8 + n)).
Proof.
  unfold get_an_attribute, get_extended, int_u2, int_u4, get_u2, get_u4,
    read_slice, bind, ret, gets, modify.
  cbn [data offset i_am_code run_code pool_count set_offset set_run_code].
  replace (offset st + 2 + 4) with (offset st + 6) by lia.
  set (name := int_from_bytes (py_slice (data st) (offset st) (offset st + 2))).
  set (len := int_from_bytes (py_slice (data st) (offset st + 2) (offset st + 6))).
  destruct (Z.eqb_spec len 0) as [Hz|Hnz];
    cbn [data offset i_am_code run_code pool_count set_offset set_run_code].
  - replace (offset st + 6 + 2) with (offset st + 8) by lia.
    destruct (Z.eqb_spec name (i_am_code st)) as [Hc|Hc];
      (do 2 eexists; split; [reflexivity|]);
      cbn [data offset i_am_code run_code pool_count set_offset set_run_code
             attr_name_index attr_length attr_info];
      fold name;
      (destruct (Z.eqb_spec name (i_am_code st)); [|try done]; try done);
      rewrite ?app_nil_r; split_and!; try done; intros; split; reflexivity.
  - destruct (Z.eqb_spec name (i_am_code st)) as [Hc|Hc];
      (do 2 eexists; split; [reflexivity|]);
      cbn [data offset i_am_code run_code pool_count set_offset set_run_code
             attr_name_index attr_length attr_info];
      fold name;
      (destruct (Z.eqb_spec name (i_am_code st)); [|try done]; try done);
      rewrite ?app_nil_r; split_and!; try done; intros; split; reflexivity.
Qed.

(** ** Lists of attributes *)

Lemma declared_span_app xs ys :
  declared_span (xs ++ ys) = declared_span xs + declared_span ys.
Proof. induction xs as [|x xs IH]; simpl; [done|]. rewrite IH. lia. Qed.

Lemma code_bodies_app code xs ys :
  code_bodies code (xs ++ ys) = code_bodies code xs ++ code_bodies code ys.
Proof. unfold code_bodies. by rewrite flat_map_app. Qed.

Lemma attrs_of_app xs ys : attrs_of (xs ++ ys) = attrs_of xs ++ attrs_of ys.
Proof. unfold attrs_of. by rewrite flat_map_app. Qed.

Lemma attrs_of_Attr attrs : attrs_of (map Attr attrs) = attrs.
Proof. induction attrs as [|a attrs IH]; simpl; [done|]. by f_equal. Qed.

Lemma same_file_refl st : same_file st st.
Proof. by unfold same_file. Qed.

Lemma same_file_trans st1 st2 st3 :
  same_file st1 st2 -> same_file st2 st3 -> same_file st1 st3.
Proof. unfold same_file. intros (-> & -> & ->) (-> & -> & ->). done. Qed.

(** The loop of [get_attributes], started on the list [[span] + done]. *)
Lemma attributes_loop_spec trips : forall span done st,
  exists new st',
    attributes_loop trips (Span span :: map Attr done) st
    = Return (Span (span + declared_span new) :: map Attr (done ++ new)) st' /\
    length new = trips /\
    same_file st st' /\
    run_code st' = run_code st ++ code_bodies (i_am_code st) new /\
    (Forall (fun a => attr_length a <> 0) new ->
     offset st' = offset st + declared_span new).
Proof.
  induction trips as [|trips IH]; intros span done st.
  - exists [], st. simpl. rewrite Z.add_0_r, !app_nil_r.
    split_and!; try done. intros _. lia.
  - destruct (get_an_attribute_spec st)
      as (a & st1 & Hrun & Hdata & Hcode & Hcount & Hacc & _ & _ & Hnz & _).
    cbn [attributes_loop]. rewrite (bind_eq_Return _ _ _ _ _ Hrun).
    replace (add_span (6 + attr_length a) ((Span span :: map Attr done) ++ [Attr a]))
      with (Span (span + (6 + attr_length a)) :: map Attr (done ++ [a]))
      by (simpl; by rewrite map_app).
    destruct (IH (span + (6 + attr_length a)) (done ++ [a]) st1)
      as (new & st' & Hloop & Hlen & Hfile & Hacc' & Hoff).
    exists (a :: new), st'. rewrite Hloop. split_and!.
    + simpl. rewrite <- app_assoc. simpl. do 3 f_equal. lia.
    + simpl. lia.
    + eapply same_file_trans; [|exact Hfile]. by unfold same_file.
    + rewrite Hacc', Hacc, Hcode, <- app_assoc. done.
    + intros [Ha Hnew]%Forall_cons. destruct (Hnz Ha) as (Hoff1 & _).
      rewrite (Hoff Hnew), Hoff1. simpl. lia.
Qed.

Lemma get_attributes_spec count st :
  exists attrs st',
    get_attributes count st
    = Return (Span (declared_span attrs) :: map Attr attrs) st' /\
    length attrs = Z.to_nat count /\
    same_file st st' /\
    run_code st' = run_code st ++ code_bodies (i_am_code st) attrs /\
    (Forall (fun a => attr_length a <> 0) attrs ->
     offset st' = offset st + declared_span attrs).
Proof.
  unfold get_attributes. destruct (Z.eqb_spec count 0) as [->|Hcount].
  - exists [], st. simpl. rewrite app_nil_r.
    split_and!; try done. intros _. lia.
  - destruct (attributes_loop_spec (Z.to_nat count) 0 [] st)
      as (new & st' & Hloop & Hlen & Hfile & Hacc & Hoff).
    exists new, st'. simpl in Hloop. by rewrite Hloop.
Qed.

(** The retained span is the distance the cursor moved whenever no
    attribute of the list declares length 0. *)
Lemma get_attributes_consumed count st items st' :
  get_attributes count st = Return items st' ->
  Forall (fun a => attr_length a <> 0) (attrs_of items) ->
  items !! 0%nat = Some (Span (offset st' - offset st)).
Proof.
  intros Hrun Hnz.
  destruct (get_attributes_spec count st) as (attrs & st1 & Hrun' & _ & _ & _ & Hoff).
  rewrite Hrun in Hrun'. injection Hrun' as -> <-.
  change (Span (declared_span attrs) :: map Attr attrs)
    with ([Span (declared_span attrs)] ++ map Attr attrs) in Hnz.
  rewrite attrs_of_app, attrs_of_Attr in Hnz. simpl in Hnz.
  rewrite (Hoff Hnz). simpl. do 2 f_equal. lia.
Qed.

(** [get_attributes] always returns a list whose element 0 is the sum
    of [6 + length] over the attributes that follow it, and there are
    [count] of those; with no attributes the list is [[0]]. *)
Lemma get_attributes_span (count : Z) (st : state) :
  (exists attrs st',
     get_attributes count st
     = Return (Span (declared_span attrs) :: map Attr attrs) st' /\
     length attrs = Z.to_nat count) /\
  get_attributes 0 st = Return [Span 0] st.
Proof.
  split; [|reflexivity].
  destruct (get_attributes_spec count st) as (attrs & st' & Hrun & Hlen & _).
  by exists attrs, st'.
Qed.

(** C8 fails on the code, through the defect of C4: for the two class
    attributes of [deprecated_class], [get_attributes] retains the span
    12, which is the sum of [6 + length] over the two attributes it
    returns, both of declared length 0; but the cursor has moved 22 bytes,
    because each [get_extended] call took the declared 0 for an omitted
    argument and read a two-byte length of its own, the first one keeping
    the six bytes that follow.  The retained value is not the byte span
    the list consumed. *)
Theorem span_is_not_bytes_consumed :
  exists st',
    get_attributes 2 at_deprecated_attribute
    = Return [Span 12;
              Attr (mkAttribute 5 0 (u4_bytes 2 ++ u2_bytes 7));
              Attr (mkAttribute 0 0 [])] st' /\
    declared_span [mkAttribute 5 0 (u4_bytes 2 ++ u2_bytes 7); mkAttribute 0 0 []]
    = 12 /\
    offset st' - offset at_deprecated_attribute = 22 /\
    Z.of_nat (length (data st')) - offset at_deprecated_attribute = 14.
Proof.
  eexists. split; [vm_compute; reflexivity|].
  split; [reflexivity|]. split; vm_compute; reflexivity.
Qed.

(** ** The constant pool *)

Lemma only_offset_refl st : only_offset st st.
Proof. unfold only_offset. by destruct st. Qed.

Lemma only_offset_set st o : only_offset st (set_offset o st).
Proof. reflexivity. Qed.

Lemma only_offset_trans st1 st2 st3 :
  only_offset st1 st2 -> only_offset st2 st3 -> only_offset st1 st3.
Proof. unfold only_offset. intros -> ->. reflexivity. Qed.

Lemma get_u1_only_offset st v st' :
  get_u1 st = Return v st' -> only_offset st st'.
Proof.
  unfold get_u1. destruct (py_index _ _); [|discriminate].
  intros [= <- <-]. apply only_offset_set.
Qed.

(** The fourteen tags of [tag_table]. *)
Lemma tag_table_Some tag read :
  tag_table tag = Some read ->
  tag ∈ [1; 3; 4; 5; 6; 7; 8; 9; 10; 11; 12; 15; 16; 18].
Proof.
  intros Htag.
  destruct tag as [|p|p]; [discriminate| |discriminate].
  repeat match goal with
         | q : positive |- _ => destruct q; try discriminate
         end;
    set_solver.
Qed.

(** Reading one constant only moves the cursor, and the entry is a [Utf8]
    constant exactly when the tag is 1. *)
Lemma tag_table_read tag read st c st' :
  tag_table tag = Some read -> read st = Return c st' ->
  only_offset st st' /\
  names_code tag c = is_code_entry (Some (PoolConstant c)).
Proof.
  intros Htag Hread. pose proof (tag_table_Some _ _ Htag) as Hin.
  repeat (apply elem_of_cons in Hin as [->|Hin]);
    [..|by apply elem_of_nil in Hin];
    injection Htag as <-; run_reader Hread; by split.
Qed.

(** One iteration: the entry is stored under [index] itself, and the
    sentinel becomes [index] exactly when the entry is the text ["Code"]. *)
Lemma constant_pool_body_spec index (pool : gmap Z pool_value) st r st' :
  constant_pool_body index pool st = Return r st' ->
  exists tag c,
    snd r = <[index := PoolConstant c]> pool /\
    fst r = (if is_wide tag then index + 1 else index) /\
    i_am_code st' = (if is_code_entry (Some (PoolConstant c)) then index
                     else i_am_code st) /\
    data st' = data st /\ run_code st' = run_code st /\
    pool_count st' = pool_count st.
Proof.
  unfold constant_pool_body. intros Hbody.
  apply bind_Return in Hbody as (tag & st1 & Htag & Hbody).
  apply get_u1_only_offset in Htag.
  destruct (tag_table tag) as [read|] eqn:Htable; [|discriminate].
  apply bind_Return in Hbody as (c & st2 & Hread & Hbody).
  destruct (tag_table_read _ _ _ _ _ Htable Hread) as (Hoff & Hnames).
  rewrite Hnames in Hbody. exists tag, c.
  unfold only_offset in Htag, Hoff. rewrite Htag in Hoff. clear Htag.
  destruct (is_code_entry (Some (PoolConstant c)));
    cbv [bind modify ret] in Hbody; injection Hbody as <- <-;
    rewrite Hoff; by split_and!.
Qed.

Lemma last_code_index_cons (pool : gmap Z pool_value) index rest start :
  last_code_index pool (index :: rest) start
  = last_code_index pool rest
      (if is_code_entry (pool !! index) then index else start).
Proof.
  unfold last_code_index. rewrite filter_cons.
  destruct (is_code_entry (pool !! index)) eqn:Hcode.
  - rewrite decide_True by done. rewrite last_cons.
    by destruct (last (filter _ rest)).
  - by rewrite decide_False by done.
Qed.

Lemma last_code_index_ext (pool pool' : gmap Z pool_value) indices start :
  (forall i, i ∈ indices -> pool' !! i = pool !! i) ->
  last_code_index pool' indices start = last_code_index pool indices start.
Proof.
  revert start. induction indices as [|i indices IH]; intros start Hext; [done|].
  rewrite !last_code_index_cons, Hext by (apply elem_of_cons; by left).
  apply IH. intros j Hj. apply Hext. apply elem_of_cons. by right.
Qed.

(** The loop: every index of the range receives an entry, no other key
    changes, and the sentinel ends as the last index holding ["Code"]. *)
Lemma constant_pool_loop_spec indices :
  forall (pool : gmap Z pool_value) st pool' st',
  NoDup indices ->
  constant_pool_loop indices pool st = Return pool' st' ->
  (forall i, i ∉ indices -> pool' !! i = pool !! i) /\
  (forall i, i ∈ indices -> exists c, pool' !! i = Some (PoolConstant c)) /\
  i_am_code st' = last_code_index pool' indices (i_am_code st) /\
  data st' = data st /\ run_code st' = run_code st /\
  pool_count st' = pool_count st.
Proof.
  induction indices as [|index rest IH]; intros pool st pool' st' Hnd Hloop.
  - injection Hloop as <- <-. split_and!; try done.
    intros i Hi. by apply elem_of_nil in Hi.
  - apply NoDup_cons in Hnd as (Hfresh & Hnd).
    cbn [constant_pool_loop] in Hloop.
    apply bind_Return in Hloop as (r & st1 & Hbody & Hloop).
    apply constant_pool_body_spec in Hbody
      as (tag & c & Hpool & _ & Hcode & Hdata & Hacc & Hcount).
    rewrite Hpool in Hloop.
    destruct (IH _ _ _ _ Hnd Hloop) as (Hout & Hin & Hcode' & Hdata' & Hacc' & Hcount').
    assert (Hindex : pool' !! index = Some (PoolConstant c))
      by (rewrite Hout by done; apply lookup_insert_eq).
    split_and!.
    + intros i [Hne Hi]%not_elem_of_cons. rewrite Hout by done.
      by apply lookup_insert_ne.
    + intros i [->|Hi]%elem_of_cons; [eauto|by apply Hin].
    + rewrite last_code_index_cons, Hindex, Hcode'. by rewrite Hcode.
    + congruence.
    + congruence.
    + congruence.
Qed.

Lemma get_constant_pool_spec st pool st' :
  get_constant_pool st = Return pool st' ->
  pool !! 0 = Some (PoolCount (pool_count st)) /\
  (forall i, 1 <= i < pool_count st -> exists c, pool !! i = Some (PoolConstant c)) /\
  (forall i, pool_count st <= i -> 0 < i -> pool !! i = None) /\
  i_am_code st' = last_code_index pool (py_range 1 (pool_count st)) (i_am_code st) /\
  data st' = data st /\ run_code st' = run_code st /\
  pool_count st' = pool_count st.
Proof.
  unfold get_constant_pool. cbv [bind gets]. intros Hloop.
  apply constant_pool_loop_spec in Hloop
    as (Hout & Hin & Hcode & Hrest); [|apply NoDup_py_range].
  split_and!; try tauto.
  - rewrite Hout; [apply lookup_insert_eq|]. rewrite elem_of_py_range. lia.
  - intros i Hi. apply Hin. by apply elem_of_py_range.
  - intros i Hi Hpos. rewrite Hout by (rewrite elem_of_py_range; lia).
    rewrite lookup_insert_ne by lia. apply lookup_empty.
Qed.

(** ** Members and sections *)

Lemma get_an_attribute_offset st a st' :
  get_an_attribute st = Return a st' -> offset st + 6 <= offset st'.
Proof.
  intros Hrun.
  destruct (get_an_attribute_spec st) as (a' & st1 & Hrun' & _ & _ & _ & _ & _ & Hlen & Hnz & Hz).
  rewrite Hrun in Hrun'. injection Hrun' as <- <-.
  destruct (Z.eq_dec (attr_length a) 0) as [Hzero|Hnonzero].
  - destruct (Hz Hzero) as (-> & _).
    pose proof (int_from_bytes_nonneg (py_slice (data st) (offset st + 6) (offset st + 8))).
    lia.
  - destruct (Hnz Hnonzero) as (-> & _).
    pose proof (int_from_bytes_nonneg (py_slice (data st) (offset st + 2) (offset st + 6))).
    lia.
Qed.

Lemma attributes_loop_offset trips : forall items st items' st',
  attributes_loop trips items st = Return items' st' ->
  offset st + 6 * Z.of_nat trips <= offset st'.
Proof.
  induction trips as [|trips IH]; intros items st items' st' Hloop.
  - injection Hloop as <- <-. lia.
  - cbn [attributes_loop] in Hloop.
    apply bind_Return in Hloop as (a & st1 & Hattr & Hloop).
    apply get_an_attribute_offset in Hattr. apply IH in Hloop. lia.
Qed.

Lemma get_attributes_offset count st items st' :
  get_attributes count st = Return items st' ->
  offset st + 6 * Z.max 0 count <= offset st'.
Proof.
  unfold get_attributes. destruct (Z.eqb_spec count 0) as [->|Hcount].
  - intros [= <- <-]. lia.
  - intros Hloop%attributes_loop_offset. lia.
Qed.

(** One member: eight bytes of fixed fields, then its attributes. *)
Lemma get_member_spec st :
  exists m st',
    get_member st = Return m st' /\
    same_file st st' /\
    run_code st' = run_code st ++ code_bodies (i_am_code st) (attrs_of (attributes m)) /\
    offset st + 8 <= offset st'.
Proof.
  unfold get_member. cbv [bind get_u2 int_u2 read_slice ret].
  match goal with
  | |- context [get_attributes ?count ?s] =>
    destruct (get_attributes_spec count s) as (attrs & st' & Hrun & _ & Hfile & Hacc & _);
    pose proof (get_attributes_offset _ _ _ _ Hrun) as Hoff;
    rewrite Hrun
  end.
  do 2 eexists. split; [reflexivity|]. cbn [attributes].
  change (Span (declared_span attrs) :: map Attr attrs)
    with ([Span (declared_span attrs)] ++ map Attr attrs).
  rewrite attrs_of_app, attrs_of_Attr. split_and!.
  - eapply same_file_trans; [|exact Hfile]. by unfold same_file.
  - exact Hacc.
  - simpl in Hoff. lia.
Qed.

Lemma info_loop_spec vals : forall (info : gmap Z info_value) st,
  NoDup vals ->
  exists info' st',
    info_loop vals info st = Return info' st' /\
    (forall i, i ∉ vals -> info' !! i = info !! i) /\
    same_file st st' /\
    run_code st'
    = run_code st
      ++ code_bodies (i_am_code st)
           (flat_map (fun val => member_attributes (info' !! val)) vals) /\
    offset st + 8 * Z.of_nat (length vals) <= offset st'.
Proof.
  induction vals as [|val rest IH]; intros info st Hnd.
  - exists info, st. simpl. rewrite app_nil_r.
    split_and!; try done; try apply same_file_refl; lia.
  - apply NoDup_cons in Hnd as (Hfresh & Hnd).
    destruct (get_member_spec st) as (m & st1 & Hmember & Hfile & Hacc & Hoff).
    destruct (IH (<[val := Member m]> info) st1 Hnd)
      as (info' & st' & Hloop & Hout & Hfile' & Hacc' & Hoff').
    exists info', st'. cbn [info_loop].
    rewrite (bind_eq_Return _ _ _ _ _ Hmember). split; [exact Hloop|].
    assert (Hval : info' !! val = Some (Member m))
      by (rewrite Hout by done; apply lookup_insert_eq).
    split_and!.
    + intros i [Hne Hi]%not_elem_of_cons. rewrite Hout by done.
      by apply lookup_insert_ne.
    + by eapply same_file_trans.
    + destruct Hfile as (_ & Hcode & _).
      cbn [flat_map]. rewrite Hval. cbn [member_attributes].
      rewrite code_bodies_app, Hacc', Hacc, Hcode, <- app_assoc. done.
    + cbn [length]. lia.
Qed.

Lemma get_info_spec count st :
  exists info st',
    get_info count st = Return info st' /\
    values_count info = count /\
    same_file st st' /\
    run_code st' = run_code st ++ code_bodies (i_am_code st) (info_attributes info) /\
    offset st + 8 * Z.max 0 count <= offset st'.
Proof.
  unfold get_info.
  destruct (info_loop_spec (py_range 1 (count + 1)) (<[0 := ValuesCount count]> ∅) st)
    as (info & st' & Hloop & Hout & Hfile & Hacc & Hoff); [apply NoDup_py_range|].
  exists info, st'. split; [exact Hloop|].
  assert (Hcount : values_count info = count).
  { unfold values_count. rewrite Hout; [by rewrite lookup_insert_eq|].
    rewrite elem_of_py_range. lia. }
  split_and!; try done.
  - unfold info_attributes. by rewrite Hcount.
  - unfold py_range in Hoff. rewrite length_map, length_seq in Hoff. lia.
Qed.

(** ** The constructor *)

Lemma when_nonzero_Return {A} count (reader : Z -> M A) st r st' :
  when_nonzero count reader st = Return r st' ->
  (count = 0 /\ r = None /\ st' = st) \/
  (count <> 0 /\ exists x, r = Some x /\ reader count st = Return x st').
Proof.
  unfold when_nonzero. destruct (Z.eqb_spec count 0) as [->|Hcount].
  - intros [= <- <-]. by left.
  - intros (x & st1 & Hread & [= <- <-])%bind_Return. right. eauto.
Qed.

(** A section assigned under [if count:]. *)
Lemma section_spec count st section st' :
  when_nonzero count get_info st = Return section st' ->
  (section = None <-> count = 0) /\
  same_file st st' /\
  run_code st'
  = run_code st ++ code_bodies (i_am_code st) (section_attributes section) /\
  offset st + 8 * Z.max 0 count <= offset st'.
Proof.
  intros [(-> & -> & ->)|(Hcount & info & -> & Hread)]%when_nonzero_Return.
  - simpl. rewrite app_nil_r. split_and!; try done; try apply same_file_refl; lia.
  - destruct (get_info_spec count st) as (info' & st1 & Hread' & _ & Hfile & Hacc & Hoff).
    rewrite Hread in Hread'. injection Hread' as <- <-.
    split_and!; try done.
Qed.

Lemma class_attributes_spec count st items st' :
  when_nonzero count get_attributes st = Return items st' ->
  (items = None <-> count = 0) /\
  same_file st st' /\
  run_code st'
  = run_code st
    ++ code_bodies (i_am_code st)
         (match items with Some l => attrs_of l | None => [] end).
Proof.
  intros [(-> & -> & ->)|(Hcount & l & -> & Hread)]%when_nonzero_Return.
  - simpl. rewrite app_nil_r. split_and!; try done.
  - destruct (get_attributes_spec count st) as (attrs & st1 & Hread' & _ & Hfile & Hacc & _).
    rewrite Hread in Hread'. injection Hread' as -> <-.
    change (Span (declared_span attrs) :: map Attr attrs)
      with ([Span (declared_span attrs)] ++ map Attr attrs).
    rewrite attrs_of_app, attrs_of_Attr.
    split_and!; try done.
Qed.

(** The steps of [__init__] that can fail or that read a section, with
    the states between them. *)
Lemma ClassFile_inv contents cf st :
  ClassFile contents = Return cf st ->
  exists s0 s1 s2 s3 s5 s7,
    i_am_code s0 = 0 /\ run_code s0 = [] /\
    get_constant_pool s0 = Return (constant_pool cf) s1 /\
    s2 = set_offset (offset s1 + 8) s1 /\
    offset s2 = interfaces_begin cf /\
    when_nonzero (interfaces_count cf) get_info s2 = Return (interfaces cf) s3 /\
    offset s3 + 2 = fields_begin cf /\
    when_nonzero (fields_count cf) get_info (set_offset (offset s3 + 2) s3)
    = Return (fields cf) s5 /\
    when_nonzero (methods_count cf) get_info (set_offset (offset s5 + 2) s5)
    = Return (methods cf) s7 /\
    when_nonzero (class_attributes_count cf) get_attributes
                 (set_offset (offset s7 + 2) s7)
    = Return (class_attributes cf) st /\
    self cf = st.
Proof.
  unfold ClassFile, init.
  cbv [bind get_u4 get_u2 int_u2 read_slice ret modify gets].
  cbn [data offset i_am_code run_code pool_count set_offset set_pool_count init_state].
  intros Hinit.
  match type of Hinit with
  | context [get_constant_pool ?s] =>
    destruct (get_constant_pool s) as [pool s1|] eqn:Hpool; [|discriminate];
    exists s, s1
  end.
  cbn [data offset i_am_code run_code pool_count set_offset] in Hinit.
  match type of Hinit with
  | context [when_nonzero ?c get_info ?s] =>
    destruct (when_nonzero c get_info s) as [r3 s3|] eqn:H3; [|discriminate];
    exists s, s3
  end.
  cbn [data offset i_am_code run_code pool_count set_offset] in Hinit.
  match type of Hinit with
  | context [when_nonzero ?c get_info ?s] =>
    destruct (when_nonzero c get_info s) as [r5 s5|] eqn:H5; [|discriminate];
    exists s5
  end.
  cbn [data offset i_am_code run_code pool_count set_offset] in Hinit.
  match type of Hinit with
  | context [when_nonzero ?c get_info ?s] =>
    destruct (when_nonzero c get_info s) as [r7 s7|] eqn:H7; [|discriminate];
    exists s7
  end.
  cbn [data offset i_am_code run_code pool_count set_offset] in Hinit.
  match type of Hinit with
  | context [when_nonzero ?c get_attributes ?s] =>
    destruct (when_nonzero c get_attributes s) as [r9 s9|] eqn:H9; [|discriminate]
  end.
  injection Hinit as <- <-.
  cbn [constant_pool interfaces_count interfaces_begin interfaces fields_count
       fields_begin fields methods_count methods class_attributes_count
       class_attributes self i_am_code run_code].
  split_and!; try done.
  all: destruct s1 as [d o c r n]; cbn; unfold set_offset; cbn; f_equal; lia.
Qed.

Lemma constant_pool_loop_app done rest (pool : gmap Z pool_value) st :
  constant_pool_loop (done ++ rest) pool st
  = (pool1 <- constant_pool_loop done pool ;; constant_pool_loop rest pool1) st.
Proof.
  revert pool st. induction done as [|index done IH]; intros pool st; [done|].
  cbn [app constant_pool_loop]. unfold bind.
  destruct (constant_pool_body index pool st) as [r st1|e st1]; [|done].
  rewrite IH. reflexivity.
Qed.

Lemma constant_pool_body_unknown index (pool : gmap Z pool_value) st tag st1 :
  get_u1 st = Return tag st1 -> tag_table tag = None ->
  constant_pool_body index pool st = Raise AttributeError st1.
Proof.
  intros Htag Hnone. unfold constant_pool_body.
  rewrite (bind_eq_Return _ _ _ _ _ Htag). by rewrite Hnone.
Qed.

Lemma last_code_index_none (pool : gmap Z pool_value) indices start :
  (forall i, is_code_entry (pool !! i) = false) ->
  last_code_index pool indices start = start.
Proof.
  intros Hnone. revert start.
  induction indices as [|i indices IH]; intros start; [done|].
  by rewrite last_code_index_cons, Hnone, IH.
Qed.

(** ** Unknown tags *)

(** C5, as the specification states it, fails: on the tag byte 2 the
    constant pool reader raises the [AttributeError] of [None.copy()],
    which reports neither the tag nor the offset; so does the constructor
    on a whole file. *)
Lemma tag2_raises_attribute_error :
  get_constant_pool tag2_pool = Raise AttributeError (set_offset 1 tag2_pool) /\
  ~ reports_unknown_tag (get_constant_pool tag2_pool) 2 0 /\
  (exists st, ClassFile tag2_class = Raise AttributeError st /\ offset st = 11) /\
  ~ reports_unknown_tag (ClassFile tag2_class) 2 10.
Proof.
  split; [reflexivity|]. split.
  { intros (e & st & _ & Hrep). by destruct e. }
  split; [eexists; split; vm_compute; reflexivity|].
  intros (e & st & _ & Hrep). by destruct e.
Qed.

(** C5 (amended): when the constant pool reader comes to a tag byte that
    is not one of the fourteen of [tag_table], it fails there with the
    [AttributeError] raised by [None.copy()]; the offset has then moved
    past the tag byte, and the exception carries neither the tag nor the
    offset. *)
Theorem unknown_tag_raises (st : state) (done rest : list Z) (index : Z)
    (pool1 : gmap Z pool_value) (st1 : state) (tag : Z) (st2 : state) :
  py_range 1 (pool_count st) = done ++ index :: rest ->
  constant_pool_loop done (<[0 := PoolCount (pool_count st)]> ∅) st
  = Return pool1 st1 ->
  get_u1 st1 = Return tag st2 ->
  tag_table tag = None ->
  get_constant_pool st = Raise AttributeError st2 /\
  offset st2 = offset st1 + 1 /\
  reported_tag AttributeError = None.
Proof.
  intros Hrange Hdone Htag Hnone. split_and!; [|by run_reader Htag|done].
  unfold get_constant_pool. cbv [bind gets] in *.
  rewrite Hrange, constant_pool_loop_app.
  rewrite (bind_eq_Return _ _ _ _ _ Hdone). cbn [constant_pool_loop].
  unfold bind. by rewrite (constant_pool_body_unknown _ _ _ _ _ Htag Hnone).
Qed.

(** A [Class] entry decodes, the tag 2 after it raises, at offset 4. *)
Lemma unknown_tag_raises_witness :
  get_constant_pool class_then_tag2_pool
  = Raise AttributeError (set_offset 4 class_then_tag2_pool).
Proof.
  refine (proj1 (unknown_tag_raises class_then_tag2_pool [1] [] 2
                   (<[1 := PoolConstant (Class 1)]> (<[0 := PoolCount 3]> ∅))
                   (set_offset 3 class_then_tag2_pool) 2
                   (set_offset 4 class_then_tag2_pool) _ _ _ _));
    reflexivity.
Defined.

(** ** Zero counts *)

(** C9: [interfaces], [fields], [methods] and [class_attributes] are set
    exactly when their count is not zero; with a count of zero the object
    has no such attribute. *)
Theorem zero_count_leaves_unset (contents : list byte) (cf : class_file) (st : state) :
  ClassFile contents = Return cf st ->
  (interfaces cf = None <-> interfaces_count cf = 0) /\
  (fields cf = None <-> fields_count cf = 0) /\
  (methods cf = None <-> methods_count cf = 0) /\
  (class_attributes cf = None <-> class_attributes_count cf = 0).
Proof.
  intros (s0 & s1 & s2 & s3 & s5 & s7 & _ & _ & _ & _ & _ &
          Hi & _ & Hf & Hm & Ha & _)%ClassFile_inv.
  apply section_spec in Hi as (Hi & _).
  apply section_spec in Hf as (Hf & _).
  apply section_spec in Hm as (Hm & _).
  apply class_attributes_spec in Ha as (Ha & _).
  done.
Qed.

(** [bare_method_class] has a method but no interfaces, fields or class
    attributes. *)
Lemma zero_count_leaves_unset_witness :
  exists cf st,
    ClassFile bare_method_class = Return cf st /\
    (interfaces cf = None <-> interfaces_count cf = 0) /\
    (fields cf = None <-> fields_count cf = 0) /\
    (methods cf = None <-> methods_count cf = 0) /\
    (class_attributes cf = None <-> class_attributes_count cf = 0).
Proof.
  destruct (ClassFile bare_method_class) as [cf st|e st] eqn:Hrun.
  - exists cf, st. split; [reflexivity|].
    exact (zero_count_leaves_unset bare_method_class cf st Hrun).
  - vm_compute in Hrun. discriminate Hrun.
Defined.

(** ** The sentinel and the accumulator *)

(** C10: the sentinel starts at 0 and ends as the highest pool index
    holding a [Utf8] entry ["Code"], 0 when there is none; the accumulator
    ends as the bytes of every attribute whose name index equals the
    sentinel, in reading order.  So without a ["Code"] entry the bytes of
    the attributes with name index 0 are what is accumulated: while the
    sentinel is 0, reading an attribute with name index 0 appends its
    bytes. *)
Theorem sentinel_and_accumulator (contents : list byte) (cf : class_file) (st : state) :
  ClassFile contents = Return cf st ->
  i_am_code (init_state contents) = 0 /\
  i_am_code (self cf) = code_sentinel (constant_pool cf) /\
  run_code (self cf) = code_bodies (i_am_code (self cf)) (all_attributes cf) /\
  ((forall i, is_code_entry (constant_pool cf !! i) = false) ->
   i_am_code (self cf) = 0 /\
   run_code (self cf) = code_bodies 0 (all_attributes cf)) /\
  (forall s, i_am_code s = 0 ->
     exists a s', get_an_attribute s = Return a s' /\
                  (attr_name_index a = 0 -> run_code s' = run_code s ++ attr_info a)).
Proof.
  intros (s0 & s1 & s2 & s3 & s5 & s7 & Hcode0 & Hacc0 & Hpool & -> & _ &
          Hi & _ & Hf & Hm & Ha & ->)%ClassFile_inv.
  apply get_constant_pool_spec in Hpool
    as (Hzero & _ & _ & Hcode1 & _ & Hacc1 & _).
  apply section_spec in Hi as (_ & (_ & Hci & _) & Hai & _).
  apply section_spec in Hf as (_ & (_ & Hcf & _) & Haf & _).
  apply section_spec in Hm as (_ & (_ & Hcm & _) & Ham & _).
  apply class_attributes_spec in Ha as (_ & (_ & Hca & _) & Haa).
  cbn [i_am_code run_code set_offset] in *.
  assert (Hsentinel : i_am_code st = code_sentinel (constant_pool cf)).
  { unfold code_sentinel, stored_count. rewrite Hzero, <- Hcode0, <- Hcode1. congruence. }
  assert (Hbodies : run_code st = code_bodies (i_am_code st) (all_attributes cf)).
  { unfold all_attributes. rewrite !code_bodies_app.
    rewrite Haa, Ham, Haf, Hai, Hacc1, Hacc0. rewrite <- !app_assoc. simpl.
    by rewrite Hca, Hcm, Hcf, Hci. }
  split_and!; try done.
  - intros Hnone.
    assert (Hz : i_am_code st = 0).
    { rewrite Hsentinel. unfold code_sentinel. by apply last_code_index_none. }
    split; [done|]. by rewrite Hbodies, Hz.
  - intros s Hs.
    destruct (get_an_attribute_spec s) as (a & s' & Hrun & _ & _ & _ & Hacc & _).
    exists a, s'. split; [done|]. intros Hname.
    by rewrite Hacc, Hname, Hs.
Qed.

(** [deprecated_class] decodes; its pool has no ["Code"] entry. *)
Lemma sentinel_and_accumulator_witness :
  exists cf st,
    ClassFile deprecated_class = Return cf st /\
    i_am_code (self cf) = code_sentinel (constant_pool cf) /\
    run_code (self cf) = code_bodies (i_am_code (self cf)) (all_attributes cf).
Proof.
  destruct (ClassFile deprecated_class) as [cf st|e st] eqn:Hrun.
  - exists cf, st. split; [reflexivity|].
    destruct (sentinel_and_accumulator deprecated_class cf st Hrun)
      as (_ & Hsentinel & Hbodies & _).
    split; [exact Hsentinel|exact Hbodies].
  - vm_compute in Hrun. discriminate Hrun.
Defined.

(** ** The scenario of the specification *)

(** C7: the class file with one [Utf8] entry ["Code"], no interfaces, no
    fields and one method whose single attribute is named by index 1 and
    holds the three bytes 1, 2, 3 decodes; the method's attribute list
    holds that one attribute, with length 3, and the accumulator holds
    exactly 1, 2, 3.  This is so whatever the bytes the scenario leaves
    open. *)
Theorem code_method_class_decodes
    (magic : (byte * byte) * (byte * byte))
    (minor major flags this super mflags mname mdescriptor : byte * byte) :
  exists cf st,
    ClassFile (code_method_class magic minor major flags this super
                                 mflags mname mdescriptor) = Return cf st /\
    constant_pool cf !! 1 = Some (PoolConstant (Utf8 str_Code)) /\
    i_am_code (self cf) = 1 /\
    interfaces cf = None /\ fields cf = None /\ class_attributes cf = None /\
    methods cf
    = Some (<[1 := Member
                {| access_flags := [fst mflags; snd mflags];
                   name_index := int_from_bytes [fst mname; snd mname];
                   descriptor_index := int_from_bytes [fst mdescriptor; snd mdescriptor];
                   attributes_count := 1;
                   attributes := [Span 9; Attr (mkAttribute 1 3 [x01; x02; x03])] |}]>
              (<[0 := ValuesCount 1]> ∅)) /\
    run_code (self cf) = [x01; x02; x03].
Proof.
  do 2 eexists. split; [vm_compute; reflexivity|].
  split_and!; vm_compute; reflexivity.
Qed.

(** ** Wide constants *)

(** No index of the range is skipped, whatever the entries are. *)
Lemma constant_pool_no_gap st pool st' i :
  get_constant_pool st = Return pool st' ->
  1 <= i < pool_count st -> exists c, pool !! i = Some (PoolConstant c).
Proof. intros (_ & Hin & _)%get_constant_pool_spec Hi. by apply Hin. Qed.

(** C1 fails on the code: in [long_class] the [Long] constant is entry 5
    and the format numbers the ["Code"] entry after it 7, but the reader
    stores that entry under 6, makes 6 the sentinel, and reads one entry
    more, under 7, from the bytes that follow the pool (into the access
    flags, [this_class] and [super_class]).  With the usual access flags
    [0x0021] the byte read as that entry's tag is 0 and the constructor
    fails. *)
Theorem long_takes_one_index :
  (exists cf st,
     ClassFile (long_class 0x0421) = Return cf st /\
     constant_pool cf !! 5 = Some (PoolConstant (Long 1)) /\
     constant_pool cf !! 6 = Some (PoolConstant (Utf8 str_Code)) /\
     constant_pool cf !! 7 = Some (PoolConstant (Float (bytes_of [0x21; 0; 2; 0]))) /\
     i_am_code (self cf) = 6 /\
     cf_access_flags cf = bytes_of [4; 0]) /\
  (exists st, ClassFile (long_class 0x0021) = Raise AttributeError st).
Proof.
  split.
  - do 2 eexists. split; [vm_compute; reflexivity|].
    split_and!; vm_compute; reflexivity.
  - eexists. vm_compute. reflexivity.
Qed.

(** ** Interfaces *)

(** Whenever interfaces are declared, the section read for them is at
    least eight bytes per interface wide. *)
Lemma interfaces_section_width contents cf st :
  ClassFile contents = Return cf st ->
  interfaces_begin cf + 8 * Z.max 0 (interfaces_count cf) + 2 <= fields_begin cf.
Proof.
  intros (s0 & s1 & s2 & s3 & s5 & s7 & _ & _ & _ & _ & Hbegin &
          Hi & Hfields & _)%ClassFile_inv.
  apply section_spec in Hi as (_ & _ & _ & Hwidth). lia.
Qed.

(** C2 fails on the code: [interface_class] declares one interface, the
    two bytes [00 06], but the constructor reads the section with
    [get_info], as one member of eight bytes (the interface index as its
    access flags, then the three counts that follow as its name index,
    descriptor index and attribute count), so [fields_count] is read ten
    bytes after [interfaces_begin] instead of two, from beyond the end of
    the 62-byte file. *)
Theorem interface_read_as_member :
  exists cf st,
    ClassFile interface_class = Return cf st /\
    interfaces_count cf = 1 /\
    interfaces cf
    = Some (<[1 := Member
                {| access_flags := u2_bytes 6;
                   name_index := 0;
                   descriptor_index := 0;
                   attributes_count := 0;
                   attributes := [Span 0] |}]>
              (<[0 := ValuesCount 1]> ∅)) /\
    interfaces_begin cf = 54 /\
    fields_begin cf = 54 + 8 + 2 /\
    Z.of_nat (length interface_class) = 62.
Proof.
  do 2 eexists. split; [vm_compute; reflexivity|].
  split_and!; vm_compute; reflexivity.
Qed.

(** ** Attribute lengths *)

(** For a declared length other than 0 and a buffer holding the whole
    attribute, the bytes kept are as many as declared and the offset moves
    by [6 + length]. *)
Lemma get_an_attribute_fits st len :
  cursor_inv st ->
  len = int_from_bytes (py_slice (data st) (offset st + 2) (offset st + 6)) ->
  len <> 0 -> ~ truncated (6 + len) st ->
  exists a st',
    get_an_attribute st = Return a st' /\
    attr_length a = len /\
    Z.of_nat (length (attr_info a)) = attr_length a /\
    offset st' = offset st + 6 + attr_length a.
Proof.
  unfold cursor_inv, truncated, remaining. intros Hinv Hdef Hlen Hfits.
  destruct (get_an_attribute_spec st)
    as (a & st' & Hrun & _ & _ & _ & _ & _ & Hdeclared & Hnz & _).
  rewrite <- Hdef in Hdeclared. rewrite <- Hdeclared in Hlen, Hfits.
  destruct (Hnz Hlen) as (Hoff & Hinfo).
  pose proof (int_from_bytes_nonneg (py_slice (data st) (offset st + 2) (offset st + 6))).
  exists a, st'. split_and!; try done.
  rewrite Hinfo, py_slice_length_fits; lia.
Qed.

(** For a declared length of 0 the offset never moves by 6: two more bytes
    are read as a length, and the bytes they count are kept. *)
Lemma get_an_attribute_zero st a st' :
  get_an_attribute st = Return a st' -> attr_length a = 0 ->
  offset st + 8 <= offset st'.
Proof.
  intros Hrun Hzero.
  destruct (get_an_attribute_spec st)
    as (a' & st1 & Hrun' & _ & _ & _ & _ & _ & _ & _ & Hz).
  rewrite Hrun in Hrun'. injection Hrun' as <- <-.
  destruct (Hz Hzero) as (-> & _).
  pose proof (int_from_bytes_nonneg (py_slice (data st) (offset st + 6) (offset st + 8))).
  lia.
Qed.

(** C4 fails on the code at length 0: the [Deprecated] attribute of
    [deprecated_class] declares length 0, but [get_extended] takes the
    [0] for an omitted argument, reads the next two bytes (the name index
    of the attribute that follows, 6) as a length and keeps the six bytes
    after them.  The attribute has six bytes with a declared length of 0
    and the offset has moved by 14, not 6; the second attribute is then
    read from beyond the end of the file. *)
Theorem zero_length_attribute_reads_on :
  get_an_attribute at_deprecated_attribute
  = Return (mkAttribute 5 0 (u4_bytes 2 ++ u2_bytes 7))
           (set_offset (offset at_deprecated_attribute + 14) at_deprecated_attribute) /\
  exists cf st,
    ClassFile deprecated_class = Return cf st /\
    class_attributes cf
    = Some [Span 12;
            Attr (mkAttribute 5 0 (u4_bytes 2 ++ u2_bytes 7));
            Attr (mkAttribute 0 0 [])].
Proof.
  split; [vm_compute; reflexivity|].
  do 2 eexists. split; vm_compute; reflexivity.
Qed.

(** * Further properties of the reader *)

(** ** Slices and big-endian integers, continued *)

Lemma py_slice_split {A} (l : list A) lo mid hi :
  0 <= lo -> lo <= mid -> mid <= hi ->
  py_slice l lo mid ++ py_slice l mid hi = py_slice l lo hi.
Proof.
  intros Hlo Hmid Hhi. rewrite !py_slice_take_drop by lia.
  replace (drop (Z.to_nat mid) l)
    with (drop (Z.to_nat (mid - lo)) (drop (Z.to_nat lo) l))
    by (rewrite drop_drop; f_equal; lia).
  rewrite take_take_drop. f_equal. lia.
Qed.

Lemma py_slice_length_le {A} (l : list A) lo hi :
  0 <= lo -> lo <= hi -> Z.of_nat (length (py_slice l lo hi)) <= hi - lo.
Proof. intros. rewrite py_slice_length by done. lia. Qed.

Lemma py_slice_past_end {A} (l : list A) lo hi :
  0 <= lo -> Z.of_nat (length l) <= lo -> py_slice l lo hi = [].
Proof.
  intros Hlo Hlen. unfold py_slice, clamp.
  destruct (Z.ltb_spec lo 0); [lia|].
  rewrite drop_ge by lia. apply take_nil.
Qed.

Lemma int_from_bytes_acc bs acc :
  fold_left (fun acc b => acc * 256 + u8 b) bs acc
  = acc * 256 ^ Z.of_nat (length bs) + int_from_bytes bs.
Proof.
  unfold int_from_bytes. revert acc.
  induction bs as [|b bs IH]; intros acc.
  - simpl. lia.
  - cbn [fold_left length]. rewrite IH, (IH (0 * 256 + u8 b)).
    rewrite Nat2Z.inj_succ, Z.pow_succ_r by lia. lia.
Qed.

Lemma int_from_bytes_app xs ys :
  int_from_bytes (xs ++ ys)
  = int_from_bytes xs * 256 ^ Z.of_nat (length ys) + int_from_bytes ys.
Proof.
  unfold int_from_bytes at 1. rewrite fold_left_app.
  fold (int_from_bytes xs). apply int_from_bytes_acc.
Qed.

Lemma int_from_bytes_lt bs : int_from_bytes bs < 256 ^ Z.of_nat (length bs).
Proof.
  induction bs as [|b bs IH] using rev_ind; [reflexivity|].
  rewrite int_from_bytes_app, length_app. cbn [length].
  replace (int_from_bytes [b]) with (u8 b) by (unfold int_from_bytes; simpl; lia).
  pose proof (u8_range b).
  rewrite Nat2Z.inj_add, Z.pow_add_r by lia.
  change (256 ^ Z.of_nat 1) with 256. lia.
Qed.

Lemma int_from_bytes_bound bs n :
  Z.of_nat (length bs) <= n -> 0 <= int_from_bytes bs < 256 ^ n.
Proof.
  intros Hlen. split; [apply int_from_bytes_nonneg|].
  eapply Z.lt_le_trans; [apply int_from_bytes_lt|].
  apply Z.pow_le_mono_r; lia.
Qed.

Lemma int_from_slice_bound (l : list byte) lo n :
  0 <= lo -> 0 <= n -> 0 <= int_from_bytes (py_slice l lo (lo + n)) < 256 ^ n.
Proof.
  intros Hlo Hn. apply int_from_bytes_bound.
  pose proof (py_slice_length_le l lo (lo + n)). lia.
Qed.

(** ** Reads compose *)

(** X1: Two reads of two bytes return the two halves of what one read of four
    bytes returns, and leave the object in the same state; likewise four
    and eight.  When four bytes remain, the big-endian value of the four is
    the value of the first two times 65536 plus the value of the last two. *)
Theorem reads_compose (st : state) :
  cursor_inv st ->
  (v1 <- get_u2 ;; v2 <- get_u2 ;; ret (v1 ++ v2)) st = get_u4 st /\
  (v1 <- get_u4 ;; v2 <- get_u4 ;; ret (v1 ++ v2)) st = get_u8 st /\
  (~ truncated 4 st ->
   exists hi lo st1 st2,
     int_u2 st = Return hi st1 /\ int_u2 st1 = Return lo st2 /\
     int_u4 st = Return (hi * 65536 + lo) st2).
Proof.
  unfold cursor_inv, truncated, remaining. intros Hinv.
  cbv [bind get_u2 get_u4 get_u8 int_u2 int_u4 read_slice ret].
  cbn [data offset set_offset]. split_and!.
  - rewrite py_slice_split by lia.
    by replace (offset st + 2 + 2) with (offset st + 4) by lia.
  - rewrite py_slice_split by lia.
    by replace (offset st + 4 + 4) with (offset st + 8) by lia.
  - intros Hfits. do 4 eexists. split; [reflexivity|]. split; [reflexivity|].
    cbn [data offset set_offset]. unfold set_offset. cbn.
    rewrite <- (py_slice_split (data st) (offset st) (offset st + 2) (offset st + 4)) by lia.
    rewrite int_from_bytes_app.
    replace (offset st + 2 + 2) with (offset st + 4) by lia.
    assert (Hlen : Z.of_nat (length (py_slice (data st) (offset st + 2) (offset st + 4))) = 2)
      by (rewrite py_slice_length_fits; lia).
    rewrite Hlen. reflexivity.
Qed.

Lemma reads_compose_witness :
  cursor_inv mid_buffer /\ ~ truncated 4 mid_buffer /\
  exists hi lo st1 st2,
    int_u2 mid_buffer = Return hi st1 /\ int_u2 st1 = Return lo st2 /\
    int_u4 mid_buffer = Return (hi * 65536 + lo) st2.
Proof.
  assert (Hinv : cursor_inv mid_buffer) by (unfold cursor_inv; simpl; lia).
  assert (Hfits : ~ truncated 4 mid_buffer)
    by (unfold truncated, remaining; simpl; lia).
  split; [exact Hinv|]. split; [exact Hfits|].
  exact (proj2 (proj2 (reads_compose mid_buffer Hinv)) Hfits).
Defined.

(** ** One constant *)

Lemma struct_unpack_Return size bs v st st' :
  struct_unpack size bs st = Return v st' ->
  v = bs /\ st' = st /\ length bs = size.
Proof.
  unfold struct_unpack. destruct (Nat.eqb_spec (length bs) size); [|discriminate].
  by intros [= <- <-].
Qed.

(** X2: When the reader of a tag returns, the cursor has moved by the width
    of the tag's shape: the fixed width of [entry_width], and for tag 1
    the two bytes of the length prefix plus the length they give, whether
    or not the buffer holds that many bytes. *)
Theorem entry_consumes (tag : Z) (read : M constant) (st : state)
    (c : constant) (st' : state) :
  tag_table tag = Some read ->
  read st = Return c st' ->
  offset st'
  = offset st
    + (if tag =? 1
       then 2 + int_from_bytes (py_slice (data st) (offset st) (offset st + 2))
       else entry_width tag).
Proof.
  intros Htag Hread. pose proof (tag_table_Some _ _ Htag) as Hin.
  repeat (apply elem_of_cons in Hin as [->|Hin]);
    [..|by apply elem_of_nil in Hin];
    injection Htag as <-; run_reader Hread;
    cbn [offset set_offset Z.eqb Pos.eqb entry_width]; lia.
Qed.

Lemma entry_consumes_witness :
  exists c st',
    tag_table 9 = Some (c1 <- int_u2 ;; n <- int_u2 ;; ret (Fieldref c1 n)) /\
    (c1 <- int_u2 ;; n <- int_u2 ;; ret (Fieldref c1 n)) (at_start [0; 2; 0; 5])
    = Return c st' /\
    offset st' = 0 + entry_width 9.
Proof.
  do 2 eexists. split; [reflexivity|].
  assert (Hread : (c1 <- int_u2 ;; n <- int_u2 ;; ret (Fieldref c1 n))
                    (at_start [0; 2; 0; 5])
                  = Return (Fieldref 2 5) (set_offset 4 (at_start [0; 2; 0; 5])))
    by reflexivity.
  split; [exact Hread|].
  exact (entry_consumes 9 _ _ _ _ eq_refl Hread).
Defined.

(** X3: The values a returned entry holds are unsigned and bounded by the
    width of the field they were read from: an [Integer] lies in
    [0, 2^32) and a [Long] in [0, 2^64) (neither is ever negative), an
    index in [0, 65536), a reference kind in [0, 256); a [Float] keeps
    exactly four bytes and a [Double] exactly eight. *)
Theorem entry_in_range (tag : Z) (read : M constant) (st : state)
    (c : constant) (st' : state) :
  tag_table tag = Some read ->
  0 <= offset st ->
  read st = Return c st' ->
  constant_in_range c.
Proof.
  intros Htag Hoff Hread. pose proof (tag_table_Some _ _ Htag) as Hin.
  assert (Hu2 : forall (l : list byte) o, 0 <= o ->
            0 <= int_from_bytes (py_slice l o (o + 2)) < 65536)
    by (intros l o Ho; apply (int_from_slice_bound l o 2); lia).
  repeat (apply elem_of_cons in Hin as [->|Hin]);
    [..|by apply elem_of_nil in Hin];
    injection Htag as <-.
  - by run_reader Hread.
  - run_reader Hread. apply (int_from_slice_bound _ _ 4); lia.
  - apply bind_Return in Hread as (bs & st1 & _ & Hread).
    apply bind_Return in Hread as (v & st2 & Hv & [= <- _]).
    by apply struct_unpack_Return in Hv as (-> & _ & Hlen).
  - run_reader Hread. apply (int_from_slice_bound _ _ 8); lia.
  - apply bind_Return in Hread as (bs & st1 & _ & Hread).
    apply bind_Return in Hread as (v & st2 & Hv & [= <- _]).
    by apply struct_unpack_Return in Hv as (-> & _ & Hlen).
  - run_reader Hread. by apply Hu2.
  - run_reader Hread. by apply Hu2.
  - run_reader Hread. split; apply Hu2; cbn; lia.
  - run_reader Hread. split; apply Hu2; cbn; lia.
  - run_reader Hread. split; apply Hu2; cbn; lia.
  - run_reader Hread. split; apply Hu2; cbn; lia.
  - apply bind_Return in Hread as (k & st1 & Hk & Hread).
    unfold get_u1 in Hk. destruct (py_index _ _); [|discriminate].
    injection Hk as <- <-. run_reader Hread.
    split; [apply u8_range|apply Hu2; cbn; lia].
  - run_reader Hread. by apply Hu2.
  - run_reader Hread. split; apply Hu2; cbn; lia.
Qed.

Lemma entry_in_range_witness :
  constant_in_range (Integer 4294967295).
Proof.
  refine (entry_in_range 3 (v <- int_u4 ;; ret (Integer v))
            (at_start [255; 255; 255; 255]) (Integer 4294967295)
            (set_offset 4 (at_start [255; 255; 255; 255])) eq_refl _ eq_refl).
  simpl. lia.
Defined.

(** X4: An [Integer] cut off by the end of the buffer is not an error: the
    reader of tag 3 returns the value of the bytes that are left.  A
    [Float] cut off the same way makes the reader of tag 4 raise
    [struct.error]. *)
Theorem cut_off_integer_and_float (read3 read4 : M constant) (st : state) :
  tag_table 3 = Some read3 ->
  tag_table 4 = Some read4 ->
  cursor_inv st -> truncated 4 st ->
  read3 st
  = Return (Integer (int_from_bytes (drop (Z.to_nat (offset st)) (data st))))
           (set_offset (offset st + 4) st) /\
  read4 st = Raise StructError (set_offset (offset st + 4) st).
Proof.
  intros [= <-] [= <-]. unfold cursor_inv, truncated, remaining. intros Hinv Htr.
  cbv [bind int_u4 get_u4 read_slice ret struct_unpack raise].
  assert (Hslice : py_slice (data st) (offset st) (offset st + 4)
                   = drop (Z.to_nat (offset st)) (data st)).
  { rewrite py_slice_take_drop by lia. apply take_ge. rewrite length_drop. lia. }
  split; [by rewrite Hslice|].
  destruct (Nat.eqb_spec (length (py_slice (data st) (offset st) (offset st + 4))) 4)
    as [Hlen|Hlen]; [|done].
  pose proof (py_slice_length (data st) (offset st) (offset st + 4)). lia.
Qed.

Lemma cut_off_integer_and_float_witness :
  (v <- int_u4 ;; ret (Integer v)) (at_start [1; 2; 3])
  = Return (Integer 0x010203) (set_offset 4 (at_start [1; 2; 3])) /\
  (bs <- get_u4 ;; v <- struct_unpack 4 bs ;; ret (Float v)) (at_start [1; 2; 3])
  = Raise StructError (set_offset 4 (at_start [1; 2; 3])).
Proof.
  refine (cut_off_integer_and_float _ _ (at_start [1; 2; 3]) eq_refl eq_refl _ _).
  - unfold cursor_inv. simpl. lia.
  - unfold truncated, remaining. simpl. lia.
Defined.

(** X5: A reader of [tag_table] can raise in three ways only: tag 1 when the
    bytes are not UTF-8, tags 4 and 6 when fewer than four or eight bytes
    remain, and tag 15 when no byte remains for the reference kind.  The
    readers of the other ten tags always return. *)
Theorem entry_raises (tag : Z) (read : M constant) (st : state)
    (e : exn) (st' : state) :
  tag_table tag = Some read ->
  cursor_inv st ->
  read st = Raise e st' ->
  (tag = 1 /\ e = UnicodeDecodeError) \/
  (tag = 4 /\ e = StructError /\ truncated 4 st) \/
  (tag = 6 /\ e = StructError /\ truncated 8 st) \/
  (tag = 15 /\ e = IndexError /\ truncated 1 st).
Proof.
  intros Htag Hinv Hread. pose proof (tag_table_Some _ _ Htag) as Hin.
  assert (Hshort : forall n : nat,
            length (py_slice (data st) (offset st) (offset st + Z.of_nat n)) <> n ->
            truncated (Z.of_nat n) st).
  { intros n Hn. unfold truncated, remaining. unfold cursor_inv in Hinv.
    pose proof (py_slice_length (data st) (offset st) (offset st + Z.of_nat n)). lia. }
  repeat (apply elem_of_cons in Hin as [->|Hin]);
    [..|by apply elem_of_nil in Hin];
    injection Htag as <-.
  - left. by run_reader Hread.
  - by run_reader Hread.
  - right. left. apply bind_Raise in Hread as [Hread|(bs & st1 & [= <- <-] & Hread)];
      [discriminate|].
    apply bind_Raise in Hread as [Hread|(v & st2 & _ & Hread)]; [|discriminate].
    unfold struct_unpack in Hread.
    destruct (Nat.eqb_spec (length (py_slice (data st) (offset st) (offset st + 4))) 4)
      as [Hlen|Hlen]; [discriminate|].
    injection Hread as <- _. split_and!; try done. by apply (Hshort 4%nat).
  - by run_reader Hread.
  - right. right. left.
    apply bind_Raise in Hread as [Hread|(bs & st1 & [= <- <-] & Hread)];
      [discriminate|].
    apply bind_Raise in Hread as [Hread|(v & st2 & _ & Hread)]; [|discriminate].
    unfold struct_unpack in Hread.
    destruct (Nat.eqb_spec (length (py_slice (data st) (offset st) (offset st + 8))) 8)
      as [Hlen|Hlen]; [discriminate|].
    injection Hread as <- _. split_and!; try done. by apply (Hshort 8%nat).
  - by run_reader Hread.
  - by run_reader Hread.
  - by run_reader Hread.
  - by run_reader Hread.
  - by run_reader Hread.
  - by run_reader Hread.
  - right. right. right.
    apply bind_Raise in Hread as [Hread|(k & st1 & _ & Hread)];
      [|by run_reader Hread].
    by apply get_u1_Raise in Hread as (-> & _ & Htr).
  - by run_reader Hread.
  - by run_reader Hread.
Qed.

Lemma entry_raises_witness :
  (15 = 1 /\ IndexError = UnicodeDecodeError) \/
  (15 = 4 /\ IndexError = StructError /\ truncated 4 (at_start [])) \/
  (15 = 6 /\ IndexError = StructError /\ truncated 8 (at_start [])) \/
  (15 = 15 /\ IndexError = IndexError /\ truncated 1 (at_start [])).
Proof.
  refine (entry_raises 15 (k <- get_u1 ;; i <- int_u2 ;; ret (MethodHandle k i))
            (at_start []) IndexError (at_start []) eq_refl _ eq_refl).
  unfold cursor_inv. simpl. lia.
Defined.

(** ** The text "Code" *)

Lemma u8_inj b b' : u8 b = u8 b' -> b = b'.
Proof.
  unfold u8. intros Heq%N2Z.inj.
  pose proof (Byte.of_to_N b) as Hb. pose proof (Byte.of_to_N b') as Hb'.
  rewrite Heq in Hb. congruence.
Qed.

Lemma map_u8_inj bs bs' : map u8 bs = map u8 bs' -> bs = bs'.
Proof.
  revert bs'. induction bs as [|b bs IH]; intros [|b' bs'] Heq; try done.
  injection Heq as Hb%u8_inj Hbs%IH. congruence.
Qed.

(** A text of code points below 128 can only come from those same bytes:
    every longer form decodes to a code point of at least 128. *)
Lemma utf8_decode_ascii n : forall bs s,
  (length bs <= n)%nat ->
  utf8_decode bs = Some s ->
  Forall (fun p => p < 128) s ->
  s = map u8 bs.
Proof.
  induction n as [|n IH]; intros bs s Hlen Hdec Hascii.
  - destruct bs; [|simpl in Hlen; lia]. by injection Hdec as <-.
  - destruct bs as [|b0 t0]; [by injection Hdec as <-|].
    cbn [utf8_decode] in Hdec. cbv zeta in Hdec. cbn [length] in Hlen.
    destruct (Z.ltb_spec (u8 b0) 128) as [Hb0|Hb0].
    + destruct (utf8_decode t0) as [s0|] eqn:Ht0; [|discriminate].
      injection Hdec as <-. apply Forall_cons in Hascii as (_ & Hascii).
      cbn [map]. f_equal. apply IH; [lia|done|done].
    + exfalso.
      unfold is_continuation in Hdec.
      repeat match type of Hdec with
             | context [match ?l with [] => _ | _ :: _ => _ end] =>
               destruct l; [discriminate|]
             | context [if ?c then _ else _] =>
               destruct c eqn:?; [|try discriminate]
             end;
        try discriminate;
        match type of Hdec with
        | _ <$> ?d = _ => destruct d; [|discriminate]
        end;
        injection Hdec as <-; apply Forall_cons in Hascii as (Hp & _);
        repeat case_match;
        repeat match goal with
               | H : (_ && _)%bool = true |- _ => apply andb_true_iff in H as [? ?]
               | H : (_ <=? _) = true |- _ => apply Z.leb_le in H
               | H : (_ =? _) = true |- _ => apply Z.eqb_eq in H
               | H : (_ =? _) = false |- _ => apply Z.eqb_neq in H
               end;
        lia.
Qed.

Lemma utf8_decode_Code bs :
  utf8_decode bs = Some str_Code <-> bs = bytes_of str_Code.
Proof.
  split; [|by intros ->].
  intros Hdec.
  apply (utf8_decode_ascii (length bs)) in Hdec as Hmap; [|done|].
  - change str_Code with (map u8 (bytes_of str_Code)) in Hmap.
    symmetry. by apply map_u8_inj.
  - unfold str_Code. repeat constructor; lia.
Qed.

(** X6: One iteration of the pool loop makes its index the sentinel exactly
    when the entry at the cursor has tag 1 and its bytes are the four
    bytes [43 6f 64 65]; otherwise it leaves the sentinel alone.  No other
    byte sequence decodes to the text ["Code"]. *)
Theorem sentinel_moves_on_code_bytes (index : Z) (pool : gmap Z pool_value)
    (st : state) (r : Z * gmap Z pool_value) (st' : state) :
  constant_pool_body index pool st = Return r st' ->
  (at_code_entry st /\ i_am_code st' = index) \/
  (~ at_code_entry st /\ i_am_code st' = i_am_code st).
Proof.
  unfold constant_pool_body, at_code_entry, utf8_payload. intros Hbody.
  apply bind_Return in Hbody as (tag & st1 & Htag & Hbody).
  unfold get_u1 in Htag.
  destruct (py_index (data st) (offset st)) as [b|] eqn:Hb; [|discriminate].
  injection Htag as <- <-.
  destruct (tag_table (u8 b)) as [read|] eqn:Htable; [|discriminate].
  apply bind_Return in Hbody as (c & st2 & Hread & Hbody).
  destruct (tag_table_read _ _ _ _ _ Htable Hread) as (Hoff & Hnames).
  assert (Hcode2 : i_am_code st2 = i_am_code st) by (by rewrite Hoff).
  destruct (Z.eq_dec (u8 b) 1) as [Hone|Hother].
  - assert (b = x01) as -> by (by apply u8_inj).
    injection Htable as <-.
    cbv [bind get_extended get_u2 read_slice ret str_decode raise] in Hread.
    cbn [Z.eqb data offset set_offset] in Hread.
    replace (offset st + 1 + 2) with (offset st + 3) in Hread by lia.
    destruct (utf8_decode _) as [s|] eqn:Hdec in Hread; [|discriminate].
    injection Hread as <- <-.
    unfold names_code in Hbody. cbn [u8 Byte.to_N Z.of_N Z.eqb Pos.eqb andb] in Hbody.
    destruct (decide (s = str_Code)) as [->|Hs].
    + left. rewrite bool_decide_true in Hbody by done.
      cbv [bind modify ret] in Hbody. injection Hbody as _ <-.
      split; [|done]. split; [done|]. by apply utf8_decode_Code.
    + right. rewrite bool_decide_false in Hbody by done.
      cbv [bind modify ret] in Hbody. injection Hbody as _ <-.
      split; [|done]. intros (_ & Hpayload).
      apply utf8_decode_Code in Hpayload. congruence.
  - right. unfold names_code in Hbody.
    destruct (Z.eqb_spec (u8 b) 1) as [|_]; [done|].
    cbv [bind modify ret andb] in Hbody. injection Hbody as _ <-.
    split; [|done]. intros ([= ->] & _). by apply Hother.
Qed.

Lemma sentinel_moves_on_code_bytes_witness :
  (at_code_entry code_entry_buffer /\
   i_am_code (set_i_am_code 1 (set_offset 7 code_entry_buffer)) = 1) \/
  (~ at_code_entry code_entry_buffer /\
   i_am_code (set_i_am_code 1 (set_offset 7 code_entry_buffer))
   = i_am_code code_entry_buffer).
Proof.
  exact (sentinel_moves_on_code_bytes 1 ∅ code_entry_buffer
           (1, <[1 := PoolConstant (Utf8 str_Code)]> ∅)
           (set_i_am_code 1 (set_offset 7 code_entry_buffer)) eq_refl).
Defined.

(** ** The whole pool *)

(** X7: When [get_constant_pool] returns, key 0 of the dictionary holds the
    declared count, the keys are exactly 0 and the indices below the count,
    each index holds an entry, and nothing of the object but the offset
    and the sentinel has changed. *)
Theorem constant_pool_keys (st : state) (pool : gmap Z pool_value) (st' : state) :
  get_constant_pool st = Return pool st' ->
  pool !! 0 = Some (PoolCount (pool_count st)) /\
  (forall i, is_Some (pool !! i) <-> i = 0 \/ 1 <= i < pool_count st) /\
  (forall i, 1 <= i < pool_count st -> exists c, pool !! i = Some (PoolConstant c)) /\
  data st' = data st /\ run_code st' = run_code st /\
  pool_count st' = pool_count st.
Proof.
  unfold get_constant_pool. cbv [bind gets]. intros Hloop.
  apply constant_pool_loop_spec in Hloop
    as (Hout & Hin & _ & Hdata & Hacc & Hcount); [|apply NoDup_py_range].
  assert (Hzero : pool !! 0 = Some (PoolCount (pool_count st))).
  { rewrite Hout; [apply lookup_insert_eq|]. rewrite elem_of_py_range. lia. }
  split_and!; try done.
  - intros i. split.
    + intros Hsome.
      destruct (decide (i ∈ py_range 1 (pool_count st))) as [Hi|Hi].
      * right. by apply elem_of_py_range.
      * left. rewrite Hout in Hsome by done.
        destruct (decide (i = 0)) as [|Hne]; [done|].
        rewrite lookup_insert_ne, lookup_empty in Hsome by done.
        by destruct Hsome.
    + intros [->|Hi]; [by rewrite Hzero|].
      destruct (Hin i) as (c & ->); [by apply elem_of_py_range|done].
  - intros i Hi. apply Hin. by apply elem_of_py_range.
Qed.

Lemma constant_pool_keys_witness :
  exists pool st',
    get_constant_pool two_class_pool = Return pool st' /\
    pool !! 0 = Some (PoolCount 3) /\
    (forall i, is_Some (pool !! i) <-> i = 0 \/ 1 <= i < 3).
Proof.
  destruct (get_constant_pool two_class_pool) as [pool st'|e st'] eqn:Hrun.
  - exists pool, st'. split; [reflexivity|].
    destruct (constant_pool_keys two_class_pool pool st' Hrun) as (Hzero & Hkeys & _).
    split; [exact Hzero|exact Hkeys].
  - vm_compute in Hrun. discriminate Hrun.
Defined.

(** X8: With a declared count of 1 or less (0 included) nothing is read: the
    dictionary holds the count alone and the object is unchanged. *)
Theorem empty_pool_reads_nothing (st : state) :
  pool_count st <= 1 ->
  get_constant_pool st = Return (<[0 := PoolCount (pool_count st)]> ∅) st.
Proof.
  intros Hcount. unfold get_constant_pool. cbv [bind gets].
  by rewrite py_range_nil by lia.
Qed.

Lemma empty_pool_reads_nothing_witness :
  get_constant_pool (at_start [7; 0; 1])
  = Return (<[0 := PoolCount 0]> ∅) (at_start [7; 0; 1]).
Proof.
  refine (empty_pool_reads_nothing (at_start [7; 0; 1]) _). simpl. lia.
Defined.

(** X9: A pool that declares more entries than the buffer holds fails with
    [IndexError] where the first missing tag byte is read, with the object
    as the entries before it left it. *)
Theorem pool_exhausted_raises (st : state) (done rest : list Z) (index : Z)
    (pool1 : gmap Z pool_value) (st1 : state) :
  py_range 1 (pool_count st) = done ++ index :: rest ->
  constant_pool_loop done (<[0 := PoolCount (pool_count st)]> ∅) st
  = Return pool1 st1 ->
  0 <= offset st1 ->
  Z.of_nat (length (data st1)) <= offset st1 ->
  get_constant_pool st = Raise IndexError st1.
Proof.
  intros Hrange Hdone Hoff Hend.
  unfold get_constant_pool. cbv [bind gets] in *.
  rewrite Hrange, constant_pool_loop_app.
  rewrite (bind_eq_Return _ _ _ _ _ Hdone). cbn [constant_pool_loop].
  assert (Hu1 : get_u1 st1 = Raise IndexError st1)
    by (unfold get_u1; by rewrite py_index_None).
  unfold constant_pool_body, bind. by rewrite Hu1.
Qed.

Lemma pool_exhausted_raises_witness :
  get_constant_pool short_pool = Raise IndexError (set_offset 3 short_pool).
Proof.
  refine (pool_exhausted_raises short_pool [1] [] 2
            (<[1 := PoolConstant (Class 1)]> (<[0 := PoolCount 3]> ∅))
            (set_offset 3 short_pool) eq_refl eq_refl _ _);
    simpl; lia.
Defined.

Lemma tag_table_read_width tag read st c st' :
  tag_table tag = Some read -> read st = Return c st' ->
  offset st + 2 <= offset st'.
Proof.
  intros Htag Hread. pose proof (tag_table_Some _ _ Htag) as Hin.
  pose proof (int_from_bytes_nonneg (py_slice (data st) (offset st) (offset st + 2))).
  repeat (apply elem_of_cons in Hin as [->|Hin]);
    [..|by apply elem_of_nil in Hin];
    injection Htag as <-; run_reader Hread; cbn [offset set_offset]; lia.
Qed.

(** Every entry takes at least three bytes with its tag, so a pool that
    is read to its end moves the cursor by at least three bytes per
    declared entry. *)
Lemma constant_pool_body_offset index (pool : gmap Z pool_value) st r st' :
  constant_pool_body index pool st = Return r st' ->
  offset st + 3 <= offset st'.
Proof.
  unfold constant_pool_body. intros Hbody.
  apply bind_Return in Hbody as (tag & st1 & Htag & Hbody).
  unfold get_u1 in Htag. destruct (py_index _ _); [|discriminate].
  injection Htag as <- <-.
  destruct (tag_table _) as [read|] eqn:Htable; [|discriminate].
  apply bind_Return in Hbody as (c & st2 & Hread & Hbody).
  pose proof (tag_table_read_width _ _ _ _ _ Htable Hread) as Hwidth.
  assert (Hst' : offset st' = offset st2).
  { destruct (names_code _ c); cbv [bind modify ret] in Hbody;
      by injection Hbody as _ <-. }
  rewrite Hst'. cbn [offset set_offset] in Hwidth. lia.
Qed.

Lemma constant_pool_loop_offset indices : forall (pool : gmap Z pool_value) st pool' st',
  constant_pool_loop indices pool st = Return pool' st' ->
  offset st + 3 * Z.of_nat (length indices) <= offset st'.
Proof.
  induction indices as [|index rest IH]; intros pool st pool' st' Hloop.
  - injection Hloop as _ <-. simpl. lia.
  - cbn [constant_pool_loop] in Hloop.
    apply bind_Return in Hloop as (r & st1 & Hbody & Hloop).
    apply constant_pool_body_offset in Hbody. apply IH in Hloop.
    cbn [length]. lia.
Qed.

Lemma get_constant_pool_offset st pool st' :
  get_constant_pool st = Return pool st' ->
  offset st + 3 * Z.max 0 (pool_count st - 1) <= offset st'.
Proof.
  unfold get_constant_pool. cbv [bind gets].
  intros Hloop%constant_pool_loop_offset.
  unfold py_range in Hloop. rewrite length_map, length_seq in Hloop. lia.
Qed.

(** ** Attributes *)

(** X10: An attribute with a declared length other than 0 that the buffer
    holds in full is read as the format lays it out: the name index from
    the first two bytes, the length from the next four, the [length] bytes
    after them as its [info]; the cursor ends right behind it, inside the
    buffer. *)
Theorem attribute_layout (st : state) (len : Z) :
  cursor_inv st ->
  len = int_from_bytes (py_slice (data st) (offset st + 2) (offset st + 6)) ->
  len <> 0 ->
  ~ truncated (6 + len) st ->
  exists st',
    get_an_attribute st
    = Return {| attr_name_index :=
                  int_from_bytes (py_slice (data st) (offset st) (offset st + 2));
                attr_length := len;
                attr_info := take (Z.to_nat len)
                                  (drop (Z.to_nat (offset st + 6)) (data st)) |}
             st' /\
    Z.of_nat (length (take (Z.to_nat len)
                           (drop (Z.to_nat (offset st + 6)) (data st)))) = len /\
    offset st' = offset st + 6 + len /\
    cursor_inv st'.
Proof.
  unfold cursor_inv, truncated, remaining. intros Hinv Hdef Hlen Hfits.
  pose proof (int_from_bytes_nonneg
                (py_slice (data st) (offset st + 2) (offset st + 6))) as Hpos.
  destruct (get_an_attribute_spec st)
    as (a & st' & Hrun & Hdata & _ & _ & _ & Hname & Hdeclared & Hnz & _).
  rewrite <- Hdef in Hdeclared, Hpos. rewrite <- Hdeclared in Hlen.
  destruct (Hnz Hlen) as (Hoff & Hinfo).
  rewrite Hdeclared in Hoff, Hinfo.
  rewrite py_slice_take_drop in Hinfo by lia.
  replace (offset st + 6 + len - (offset st + 6)) with len in Hinfo by lia.
  exists st'. split_and!.
  - rewrite Hrun. f_equal. destruct a as [n l i]. cbn in *. congruence.
  - rewrite length_take, length_drop. lia.
  - done.
  - lia.
  - rewrite Hdata. lia.
Qed.

Lemma attribute_layout_witness :
  exists st',
    get_an_attribute attribute_buffer
    = Return (mkAttribute 7 2 (bytes_of [0xCA; 0xFE])) st' /\
    offset st' = 8.
Proof.
  destruct (attribute_layout attribute_buffer 2) as (st' & Hrun & _ & Hoff & _).
  - unfold cursor_inv. simpl. lia.
  - reflexivity.
  - lia.
  - unfold truncated, remaining. simpl. lia.
  - exists st'. split; [exact Hrun|exact Hoff].
Defined.

(** X11: Whatever the buffer holds, the name index of an attribute is below
    65536 and its length below 2^32, neither negative, and it never keeps
    more bytes than it declares, or than 65535 when it declares none. *)
Theorem attribute_bounds (st : state) (a : attribute) (st' : state) :
  0 <= offset st ->
  get_an_attribute st = Return a st' ->
  0 <= attr_name_index a < 65536 /\
  0 <= attr_length a < 2 ^ 32 /\
  Z.of_nat (length (attr_info a))
  <= (if attr_length a =? 0 then 65535 else attr_length a).
Proof.
  intros Hoff Hrun.
  destruct (get_an_attribute_spec st)
    as (a' & st1 & Hrun' & _ & _ & _ & _ & Hname & Hlen & Hnz & Hz).
  rewrite Hrun in Hrun'. injection Hrun' as <- <-.
  split_and!.
  - rewrite Hname. apply (int_from_slice_bound _ _ 2); lia.
  - rewrite Hname. apply (int_from_slice_bound _ _ 2); lia.
  - rewrite Hlen. replace (offset st + 6) with (offset st + 2 + 4) by lia.
    apply (int_from_slice_bound _ _ 4); lia.
  - rewrite Hlen. replace (offset st + 6) with (offset st + 2 + 4) by lia.
    apply (int_from_slice_bound _ _ 4); lia.
  - destruct (Z.eqb_spec (attr_length a) 0) as [Hzero|Hnonzero].
    + destruct (Hz Hzero) as (_ & ->).
      pose proof (int_from_slice_bound (data st) (offset st + 6) 2).
      replace (offset st + 6 + 2) with (offset st + 8) in * by lia.
      pose proof (py_slice_length_le (data st) (offset st + 8)
                    (offset st + 8
                     + int_from_bytes (py_slice (data st) (offset st + 6) (offset st + 8)))).
      lia.
    + destruct (Hnz Hnonzero) as (_ & ->).
      pose proof (int_from_bytes_nonneg
                    (py_slice (data st) (offset st + 2) (offset st + 6))).
      pose proof (py_slice_length_le (data st) (offset st + 6)
                    (offset st + 6 + attr_length a)).
      lia.
Qed.

Lemma attribute_bounds_witness :
  0 <= 7 < 65536 /\ 0 <= 2 < 2 ^ 32 /\
  Z.of_nat (length (bytes_of [0xCA; 0xFE])) <= (if 2 =? 0 then 65535 else 2).
Proof.
  refine (attribute_bounds attribute_buffer
            (mkAttribute 7 2 (bytes_of [0xCA; 0xFE]))
            (set_offset 8 attribute_buffer) _ eq_refl).
  simpl. lia.
Defined.


(** ** Sections *)

Lemma get_member_shape st m st' :
  0 <= offset st -> get_member st = Return m st' -> member_shape m.
Proof.
  intros Hoff. unfold get_member. cbv [bind get_u2 int_u2 read_slice ret].
  match goal with
  | |- context [get_attributes ?count ?s] =>
    destruct (get_attributes_spec count s) as (attrs & st1 & Hrun & Hlen & _);
    rewrite Hrun
  end.
  intros [= <- <-]. unfold member_shape.
  cbn [name_index descriptor_index attributes_count access_flags attributes
       data offset set_offset] in *.
  pose proof (int_from_slice_bound (data st) (offset st + 2) 2).
  pose proof (int_from_slice_bound (data st) (offset st + 2 + 2) 2).
  pose proof (int_from_slice_bound (data st) (offset st + 2 + 2 + 2) 2).
  pose proof (py_slice_length_le (data st) (offset st) (offset st + 2)).
  split_and!; try lia.
  exists attrs. split; [done|]. lia.
Qed.

Lemma info_loop_members vals : forall (info : gmap Z info_value) st info' st',
  NoDup vals -> 0 <= offset st ->
  info_loop vals info st = Return info' st' ->
  forall i, i ∈ vals -> exists m, info' !! i = Some (Member m) /\ member_shape m.
Proof.
  induction vals as [|val rest IH]; intros info st info' st' Hnd Hoff Hloop i Hi.
  - by apply elem_of_nil in Hi.
  - apply NoDup_cons in Hnd as (Hfresh & Hnd).
    cbn [info_loop] in Hloop.
    apply bind_Return in Hloop as (m & st1 & Hmember & Hloop).
    pose proof (get_member_shape _ _ _ Hoff Hmember) as Hshape.
    destruct (get_member_spec st) as (m' & st1' & Hmember' & _ & _ & Hoff1).
    rewrite Hmember in Hmember'. injection Hmember' as <- <-.
    apply elem_of_cons in Hi as [->|Hi].
    + destruct (info_loop_spec rest (<[val := Member m]> info) st1 Hnd)
        as (info2 & st2 & Hloop' & Hout & _).
      rewrite Hloop in Hloop'. injection Hloop' as <- <-.
      exists m. split; [|done]. rewrite Hout by done. apply lookup_insert_eq.
    + eapply IH; [done| |exact Hloop|done]. lia.
Qed.

(** X12: [get_info] never fails.  The dictionary it returns holds the count
    under key 0 and a member under each of the keys 1 to [count], and no
    other key; every member has as many attributes as its own count says,
    behind the span that is the sum of [6 + length] over them. *)
Theorem section_shape (count : Z) (st : state) :
  0 <= offset st ->
  exists info st',
    get_info count st = Return info st' /\
    info !! 0 = Some (ValuesCount count) /\
    (forall i, is_Some (info !! i) <-> i = 0 \/ 1 <= i <= count) /\
    (forall i, 1 <= i <= count ->
               exists m, info !! i = Some (Member m) /\ member_shape m).
Proof.
  intros Hoff. unfold get_info.
  destruct (info_loop_spec (py_range 1 (count + 1))
              (<[0 := ValuesCount count]> ∅) st (NoDup_py_range _ _))
    as (info & st' & Hloop & Hout & _).
  pose proof (info_loop_members _ _ _ _ _ (NoDup_py_range _ _) Hoff Hloop) as Hin.
  assert (Hzero : info !! 0 = Some (ValuesCount count)).
  { rewrite Hout; [apply lookup_insert_eq|]. rewrite elem_of_py_range. lia. }
  exists info, st'. split_and!; try done.
  - intros i. split.
    + intros Hsome.
      destruct (decide (i ∈ py_range 1 (count + 1))) as [Hi|Hi].
      * right. apply elem_of_py_range in Hi. lia.
      * left. rewrite Hout in Hsome by done.
        destruct (decide (i = 0)) as [|Hne]; [done|].
        rewrite lookup_insert_ne, lookup_empty in Hsome by done.
        by destruct Hsome.
    + intros [->|Hi]; [by rewrite Hzero|].
      destruct (Hin i) as (m & -> & _); [apply elem_of_py_range; lia|done].
  - intros i Hi. apply Hin. apply elem_of_py_range. lia.
Qed.

Lemma section_shape_witness :
  exists info st',
    get_info 2 two_members_buffer = Return info st' /\
    info !! 0 = Some (ValuesCount 2) /\
    (forall i, is_Some (info !! i) <-> i = 0 \/ 1 <= i <= 2) /\
    (forall i, 1 <= i <= 2 ->
               exists m, info !! i = Some (Member m) /\ member_shape m).
Proof.
  apply (section_shape 2 two_members_buffer). simpl. lia.
Defined.

(** X13: Reading a section changes neither the buffer, nor the sentinel, nor
    the pool count; it only appends to the accumulator, the bytes of the
    section's attributes named by the sentinel, and it moves the cursor
    forward by at least eight bytes per member. *)
Theorem section_effect (count : Z) (st : state)
    (info : gmap Z info_value) (st' : state) :
  get_info count st = Return info st' ->
  data st' = data st /\ i_am_code st' = i_am_code st /\
  pool_count st' = pool_count st /\
  run_code st' = run_code st ++ code_bodies (i_am_code st) (info_attributes info) /\
  offset st + 8 * Z.max 0 count <= offset st'.
Proof.
  intros Hrun.
  destruct (get_info_spec count st)
    as (info' & st1 & Hrun' & _ & (Hdata & Hcode & Hcount) & Hacc & Hoff).
  rewrite Hrun in Hrun'. injection Hrun' as <- <-. done.
Qed.

Lemma section_effect_witness :
  exists info st',
    get_info 2 two_members_buffer = Return info st' /\
    run_code st' = run_code two_members_buffer
                   ++ code_bodies (i_am_code two_members_buffer) (info_attributes info) /\
    offset two_members_buffer + 8 * Z.max 0 2 <= offset st'.
Proof.
  destruct (get_info 2 two_members_buffer) as [info st'|e st'] eqn:Hrun.
  - exists info, st'. split; [reflexivity|].
    destruct (section_effect 2 two_members_buffer info st' Hrun)
      as (_ & _ & _ & Hacc & Hoff).
    split; [exact Hacc|exact Hoff].
  - vm_compute in Hrun. discriminate Hrun.
Defined.

(** ** The constructor, continued *)

Lemma when_nonzero_get_info_returns count st :
  exists r st', when_nonzero count get_info st = Return r st'.
Proof.
  unfold when_nonzero. destruct (count =? 0); [by eexists _, _|].
  destruct (get_info_spec count st) as (info & st' & Hrun & _).
  unfold bind. rewrite Hrun. by eexists _, _.
Qed.

Lemma when_nonzero_get_attributes_returns count st :
  exists r st', when_nonzero count get_attributes st = Return r st'.
Proof.
  unfold when_nonzero. destruct (count =? 0); [by eexists _, _|].
  destruct (get_attributes_spec count st) as (attrs & st' & Hrun & _).
  unfold bind. rewrite Hrun. by eexists _, _.
Qed.

(** [__init__] up to the constant pool, and after it. *)
Lemma ClassFile_unfold contents :
  ClassFile contents
  = match get_constant_pool (after_header contents) with
    | Raise e s => Raise e s
    | Return pool s1 =>
      let s2 := set_offset (offset s1 + 2 + 2 + 2 + 2) s1 in
      let count i := int_from_bytes (py_slice (data s1) (offset s1 + i) (offset s1 + i + 2)) in
      match when_nonzero (count 6) get_info s2 with
      | Raise e s => Raise e s
      | Return interfaces s3 =>
        let fields_count := int_from_bytes (py_slice (data s3) (offset s3) (offset s3 + 2)) in
        match when_nonzero fields_count get_info (set_offset (offset s3 + 2) s3) with
        | Raise e s => Raise e s
        | Return fields s5 =>
          let methods_count := int_from_bytes (py_slice (data s5) (offset s5) (offset s5 + 2)) in
          match when_nonzero methods_count get_info (set_offset (offset s5 + 2) s5) with
          | Raise e s => Raise e s
          | Return methods s7 =>
            let attributes_count :=
              int_from_bytes (py_slice (data s7) (offset s7) (offset s7 + 2)) in
            match when_nonzero attributes_count get_attributes
                    (set_offset (offset s7 + 2) s7) with
            | Raise e s => Raise e s
            | Return class_attributes s9 =>
              Return (mkClassFile (py_slice contents 0 4)
                        (int_from_bytes (py_slice contents 4 6))
                        (int_from_bytes (py_slice contents 6 8))
                        10 pool
                        (py_slice (data s1) (offset s1) (offset s1 + 2))
                        (py_slice (data s1) (offset s1 + 2) (offset s1 + 2 + 2))
                        (py_slice (data s1) (offset s1 + 2 + 2) (offset s1 + 2 + 2 + 2))
                        (count 6) (offset s1 + 2 + 2 + 2 + 2) interfaces
                        fields_count (offset s3 + 2) fields
                        methods_count (offset s5 + 2) methods
                        attributes_count class_attributes s9)
                     s9
            end
          end
        end
      end
    end.
Proof.
  unfold ClassFile, init, after_header.
  cbv [bind get_u4 get_u2 int_u2 read_slice ret modify gets].
  cbn [data offset i_am_code run_code pool_count set_offset set_pool_count init_state].
  change (0 + 4 + 2 + 2 + 2) with 10. change (0 + 4 + 2 + 2) with 8.
  change (0 + 4 + 2) with 6. change (0 + 4) with 4.
  destruct (get_constant_pool _) as [pool s1|e s]; [|done].
  cbn [data offset set_offset]. cbv zeta.
  replace (offset s1 + 6) with (offset s1 + 2 + 2 + 2) by lia.
  destruct (when_nonzero _ get_info _) as [r3 s3|]; [|done].
  cbn [data offset set_offset].
  destruct (when_nonzero _ get_info _) as [r5 s5|]; [|done].
  cbn [data offset set_offset].
  destruct (when_nonzero _ get_info _) as [r7 s7|]; [|done].
  cbn [data offset set_offset].
  destruct (when_nonzero _ get_attributes _) as [r9 s9|]; [|done].
  reflexivity.
Qed.

(** X14: The constructor can fail in the constant pool only: if the pool
    reader raises, the constructor raises the same exception, and if the
    pool reader returns, the constructor returns, however little of the
    file is left.  The magic number and the versions are kept as read and
    never checked. *)
Theorem constructor_fails_only_in_pool (contents : list byte) :
  match get_constant_pool (after_header contents) with
  | Raise e s => ClassFile contents = Raise e s
  | Return pool s1 =>
    exists cf st,
      ClassFile contents = Return cf st /\
      constant_pool cf = pool /\
      magic cf = py_slice contents 0 4 /\
      minor cf = int_from_bytes (py_slice contents 4 6) /\
      major cf = int_from_bytes (py_slice contents 6 8) /\
      cp_begin cf = 10
  end.
Proof.
  rewrite ClassFile_unfold.
  destruct (get_constant_pool (after_header contents)) as [pool s1|e s]; [|done].
  cbv zeta.
  match goal with
  | |- context [when_nonzero ?c get_info ?s] =>
    destruct (when_nonzero_get_info_returns c s) as (r3 & s3 & ->)
  end.
  match goal with
  | |- context [when_nonzero ?c get_info ?s] =>
    destruct (when_nonzero_get_info_returns c s) as (r5 & s5 & ->)
  end.
  match goal with
  | |- context [when_nonzero ?c get_info ?s] =>
    destruct (when_nonzero_get_info_returns c s) as (r7 & s7 & ->)
  end.
  match goal with
  | |- context [when_nonzero ?c get_attributes ?s] =>
    destruct (when_nonzero_get_attributes_returns c s) as (r9 & s9 & ->)
  end.
  by eexists _, _.
Qed.

(** X15: A file of eight bytes or fewer, the empty file included, is accepted:
    the pool count and every later count are read from beyond the end as
    0, so the object has an empty pool and no sections, and the offset
    ends at 24. *)
Theorem short_file_accepted (contents : list byte) :
  (length contents <= 8)%nat ->
  exists cf st,
    ClassFile contents = Return cf st /\
    magic cf = take 4 contents /\
    constant_pool cf = <[0 := PoolCount 0]> ∅ /\
    interfaces_count cf = 0 /\ interfaces cf = None /\
    fields_count cf = 0 /\ fields cf = None /\
    methods_count cf = 0 /\ methods cf = None /\
    class_attributes_count cf = 0 /\ class_attributes cf = None /\
    offset st = 24 /\ i_am_code st = 0 /\ run_code st = [].
Proof.
  intros Hlen. rewrite ClassFile_unfold.
  assert (Hcount : pool_count (after_header contents) = 0).
  { unfold after_header. cbn [pool_count].
    by rewrite py_slice_past_end by lia. }
  unfold get_constant_pool at 1. cbv [bind gets].
  rewrite Hcount, py_range_nil by lia. cbn [constant_pool_loop]. unfold ret at 1.
  cbv zeta. cbn [data offset set_offset after_header].
  rewrite !(py_slice_past_end contents) by lia.
  change (int_from_bytes []) with 0. cbn [when_nonzero Z.eqb].
  unfold when_nonzero, ret. cbn [Z.eqb data offset set_offset].
  rewrite !(py_slice_past_end contents) by lia.
  change (int_from_bytes []) with 0. cbn [Z.eqb data offset set_offset].
  rewrite !(py_slice_past_end contents) by lia.
  change (int_from_bytes []) with 0. cbn [Z.eqb data offset set_offset].
  rewrite !(py_slice_past_end contents) by lia.
  change (int_from_bytes []) with 0. cbn [Z.eqb data offset set_offset].
  eexists _, _. split; [reflexivity|].
  cbn [magic constant_pool interfaces_count interfaces fields_count fields
       methods_count methods class_attributes_count class_attributes
       offset i_am_code run_code].
  split_and!; try done.
  rewrite py_slice_take_drop by lia. by rewrite drop_0.
Qed.

Lemma short_file_accepted_witness :
  exists cf st,
    ClassFile (bytes_of [0xCA; 0xFE; 0xBA]) = Return cf st /\
    magic cf = bytes_of [0xCA; 0xFE; 0xBA] /\
    constant_pool cf = <[0 := PoolCount 0]> ∅ /\
    offset st = 24.
Proof.
  destruct (short_file_accepted (bytes_of [0xCA; 0xFE; 0xBA]))
    as (cf & st & Hrun & Hmagic & Hpool & _ & _ & _ & _ & _ & _ & _ & _ & Hoff & _).
  - simpl. lia.
  - exists cf, st. split; [exact Hrun|]. split; [exact Hmagic|].
    split; [exact Hpool|exact Hoff].
Defined.

(** X16: In an object the constructor returns, the recorded positions are in
    file order and apart by at least what lies between them: ten bytes of
    header, three bytes per pool entry, eight bytes for flags, classes and
    the interface count, eight bytes per member of a section and two for
    the next count, six bytes per class attribute. *)
Theorem cursor_positions (contents : list byte) (cf : class_file) (st : state) :
  ClassFile contents = Return cf st ->
  cp_begin cf = 10 /\
  cp_begin cf + 3 * Z.max 0 (stored_count (constant_pool cf) - 1) + 8
  <= interfaces_begin cf /\
  interfaces_begin cf + 8 * Z.max 0 (interfaces_count cf) + 2 <= fields_begin cf /\
  fields_begin cf + 8 * Z.max 0 (fields_count cf) + 2 <= methods_begin cf /\
  methods_begin cf + 8 * Z.max 0 (methods_count cf) + 2
  + 6 * Z.max 0 (class_attributes_count cf) <= offset st.
Proof.
  rewrite ClassFile_unfold.
  destruct (get_constant_pool (after_header contents)) as [pool s1|] eqn:Hpool;
    [|discriminate].
  cbv zeta.
  match goal with
  | |- context [when_nonzero ?c get_info ?s] =>
    destruct (when_nonzero c get_info s) as [r3 s3|] eqn:H3; [|discriminate]
  end.
  match goal with
  | |- context [when_nonzero ?c get_info ?s] =>
    destruct (when_nonzero c get_info s) as [r5 s5|] eqn:H5; [|discriminate]
  end.
  match goal with
  | |- context [when_nonzero ?c get_info ?s] =>
    destruct (when_nonzero c get_info s) as [r7 s7|] eqn:H7; [|discriminate]
  end.
  match goal with
  | |- context [when_nonzero ?c get_attributes ?s] =>
    destruct (when_nonzero c get_attributes s) as [r9 s9|] eqn:H9; [|discriminate]
  end.
  intros [= <- <-].
  cbn [cp_begin constant_pool interfaces_begin interfaces_count fields_begin
       fields_count methods_begin methods_count class_attributes_count].
  pose proof (get_constant_pool_offset _ _ _ Hpool) as Hw1.
  apply get_constant_pool_spec in Hpool as (Hzero & _).
  apply section_spec in H3 as (_ & _ & _ & Hw3).
  apply section_spec in H5 as (_ & _ & _ & Hw5).
  apply section_spec in H7 as (_ & _ & _ & Hw7).
  assert (Hw9 : offset s7 + 2
                + 6 * Z.max 0 (int_from_bytes (py_slice (data s7) (offset s7) (offset s7 + 2)))
                <= offset s9).
  { apply when_nonzero_Return in H9 as [(Hc & _ & ->)|(_ & l & _ & Hrun)].
    - rewrite Hc. cbn. lia.
    - apply get_attributes_offset in Hrun. cbn in Hrun. lia. }
  unfold stored_count. rewrite Hzero.
  cbn [offset set_offset after_header pool_count] in *.
  lia.
Qed.

Lemma cursor_positions_witness :
  exists cf st,
    ClassFile bare_method_class = Return cf st /\
    fields_begin cf + 8 * Z.max 0 (fields_count cf) + 2 <= methods_begin cf /\
    methods_begin cf + 8 * Z.max 0 (methods_count cf) + 2
    + 6 * Z.max 0 (class_attributes_count cf) <= offset st.
Proof.
  destruct (ClassFile bare_method_class) as [cf st|e st] eqn:Hrun.
  - exists cf, st. split; [reflexivity|].
    destruct (cursor_positions bare_method_class cf st Hrun)
      as (_ & _ & _ & Hfields & Hmethods).
    split; [exact Hfields|exact Hmethods].
  - vm_compute in Hrun. discriminate Hrun.
Defined.

(** ** Bytes behind the cursor *)

Lemma py_slice_app {A} (l extra : list A) lo hi :
  0 <= lo -> lo <= hi -> hi <= Z.of_nat (length l) ->
  py_slice (l ++ extra) lo hi = py_slice l lo hi.
Proof.
  intros Hlo Hhi Hlen. rewrite !py_slice_take_drop by done.
  rewrite drop_app_le by lia. apply take_app_le. rewrite length_drop. lia.
Qed.

Lemma py_index_app {A} (l extra : list A) i :
  0 <= i -> i < Z.of_nat (length l) ->
  py_index (l ++ extra) i = py_index l i.
Proof.
  intros Hi Hlen. unfold py_index. rewrite length_app.
  destruct (Z.ltb_spec i 0); [lia|].
  destruct (Z.leb_spec 0 i); [|lia].
  destruct (Z.ltb_spec i (Z.of_nat (length l))); [|lia].
  destruct (Z.ltb_spec i (Z.of_nat (length l + length extra))); [|lia].
  simpl. apply lookup_app_l. lia.
Qed.

Lemma local_ret {A} (a : A) : local keep (ret a).
Proof. intros st a' st' [= <- <-]. by split. Qed.

Lemma local_raise {A} (e : exn) : local keep (@raise A e).
Proof. intros st a st' Hrun. discriminate Hrun. Qed.

Lemma local_bind {A B} (P : A -> Prop) g (m : M A) (k : A -> M B) :
  local keep m ->
  (forall st a st', m st = Return a st' -> P a) ->
  (forall a, P a -> local g (k a)) ->
  local g (bind m k).
Proof.
  intros Hm HP Hk st b st2 (a & st1 & Hrun1 & Hrun2)%bind_Return.
  destruct (Hm _ _ _ Hrun1) as ((Hoff1 & Hdata1) & Hext1).
  destruct (Hk a (HP _ _ _ Hrun1) _ _ _ Hrun2) as ((Hoff2 & Hdata2) & Hext2).
  split; [split; [lia|congruence]|].
  intros extra Hpos Hend.
  rewrite (bind_eq_Return _ _ _ _ _ (Hext1 extra Hpos ltac:(lia))).
  unfold keep. apply Hext2; [lia|]. rewrite Hdata1. lia.
Qed.

Lemma local_bind_any {A B} g (m : M A) (k : A -> M B) :
  local keep m -> (forall a, local g (k a)) -> local g (bind m k).
Proof. intros Hm Hk. apply (local_bind (fun _ => True)); auto. Qed.

Lemma local_read_slice n : 0 <= n -> local keep (read_slice n).
Proof.
  intros Hn st a st' [= <- <-]. cbn [offset data set_offset].
  split; [split; [lia|done]|]. intros extra Hpos Hend.
  unfold read_slice, extended, keep. cbn [data offset].
  by rewrite py_slice_app by lia.
Qed.

Lemma local_get_u1 : local keep get_u1.
Proof.
  intros st a st'. unfold get_u1.
  destruct (py_index (data st) (offset st)) as [b|] eqn:Hb; [|discriminate].
  intros [= <- <-]. cbn [offset data set_offset].
  split; [split; [lia|done]|]. intros extra Hpos Hend.
  unfold extended, keep. cbn [data offset].
  rewrite py_index_app, Hb by lia. done.
Qed.

Lemma local_gets {A} (f : state -> A) :
  (forall extra st, f (extended extra st) = f st) -> local keep (gets f).
Proof.
  intros Hf st a st' [= <- <-]. split; [split; [lia|done]|].
  intros extra _ _. unfold gets, keep. by rewrite Hf.
Qed.

Lemma local_modify (f : state -> state) :
  (forall st, offset (f st) = offset st /\ data (f st) = data st) ->
  (forall extra st, f (extended extra st) = extended extra (f st)) ->
  local keep (modify f).
Proof.
  intros Hframe Hf st a st' [= <- <-]. destruct (Hframe st) as (Hoff & Hdata).
  split; [split; [lia|done]|].
  intros extra _ _. unfold modify, keep. by rewrite Hf.
Qed.

Lemma local_pure {A} (m : M A) :
  (exists a, forall s, m s = Return a s) \/ (exists e, forall s, m s = Raise e s) ->
  local keep m.
Proof.
  intros [(a' & Ha)|(e & He)] st a st' Hrun.
  - rewrite Ha in Hrun. injection Hrun as <- <-.
    split; [split; [lia|done]|]. intros extra _ _. apply Ha.
  - rewrite He in Hrun. discriminate Hrun.
Qed.

Lemma local_struct_unpack size bs : local keep (struct_unpack size bs).
Proof.
  apply local_pure. unfold struct_unpack.
  destruct (Nat.eqb _ _); [left|right]; by eexists.
Qed.

Lemma local_str_decode bs : local keep (str_decode bs).
Proof.
  apply local_pure. unfold str_decode.
  destruct (utf8_decode bs); [left|right]; by eexists.
Qed.

Lemma int_result_nonneg n st a st' :
  (bs <- read_slice n ;; ret (int_from_bytes bs)) st = Return a st' -> 0 <= a.
Proof. intros [= <- _]. apply int_from_bytes_nonneg. Qed.

Lemma local_int n : 0 <= n -> local keep (bs <- read_slice n ;; ret (int_from_bytes bs)).
Proof.
  intros Hn. apply local_bind_any; [by apply local_read_slice|].
  intros bs. apply local_ret.
Qed.

Lemma local_get_extended len : 0 <= len -> local keep (get_extended len).
Proof.
  intros Hlen. unfold get_extended.
  apply (local_bind (fun n => 0 <= n)).
  - destruct (len =? 0); [apply (local_int 2); lia|apply local_ret].
  - intros st a st'. destruct (len =? 0).
    + apply (int_result_nonneg 2).
    + by intros [= <- _].
  - intros n Hn. by apply local_read_slice.
Qed.

(** Steps of the reader that are local by one of the lemmas on local
    steps. *)
Ltac local_steps :=
  repeat first
    [ apply local_ret
    | apply local_raise
    | apply local_get_u1
    | apply local_str_decode
    | apply local_struct_unpack
    | (apply local_read_slice; lia)
    | (apply local_get_extended; lia)
    | (apply local_gets; reflexivity)
    | (apply local_modify; [by intros ?|reflexivity])
    | (apply local_bind_any; [|intros ?]) ].

Lemma local_tag_table tag read : tag_table tag = Some read -> local keep read.
Proof.
  intros Htag. pose proof (tag_table_Some _ _ Htag) as Hin.
  repeat (apply elem_of_cons in Hin as [->|Hin]);
    [..|by apply elem_of_nil in Hin];
    injection Htag as <-; local_steps.
Qed.

Lemma local_constant_pool_body index (pool : gmap Z pool_value) :
  local keep (constant_pool_body index pool).
Proof.
  unfold constant_pool_body. apply local_bind_any; [apply local_get_u1|].
  intros tag. destruct (tag_table tag) as [read|] eqn:Htag; [|apply local_raise].
  apply local_bind_any; [by eapply local_tag_table|].
  intros c. destruct (names_code tag c); local_steps.
Qed.

Lemma local_constant_pool_loop indices : forall pool : gmap Z pool_value,
  local keep (constant_pool_loop indices pool).
Proof.
  induction indices as [|index rest IH]; intros pool; cbn [constant_pool_loop].
  - apply local_ret.
  - apply local_bind_any; [apply local_constant_pool_body|]. intros r. apply IH.
Qed.

Lemma local_get_constant_pool : local keep get_constant_pool.
Proof.
  unfold get_constant_pool. apply local_bind_any; [by apply local_gets|].
  intros n. apply local_constant_pool_loop.
Qed.

Lemma local_get_an_attribute : local keep get_an_attribute.
Proof.
  unfold get_an_attribute. apply local_bind_any; [local_steps|]. intros name.
  apply (local_bind (fun n => 0 <= n)); [local_steps|apply (int_result_nonneg 4)|].
  intros len Hlen. apply local_bind_any; [by apply local_get_extended|].
  intros info. apply local_bind_any; [by apply local_gets|].
  intros code. destruct (name =? code); local_steps.
Qed.

Lemma local_attributes_loop trips : forall items,
  local keep (attributes_loop trips items).
Proof.
  induction trips as [|trips IH]; intros items; cbn [attributes_loop].
  - apply local_ret.
  - apply local_bind_any; [apply local_get_an_attribute|]. intros a. apply IH.
Qed.

Lemma local_get_attributes count : local keep (get_attributes count).
Proof.
  unfold get_attributes. destruct (count =? 0);
    [apply local_ret|apply local_attributes_loop].
Qed.

Lemma local_get_member : local keep get_member.
Proof.
  unfold get_member. do 4 (apply local_bind_any; [local_steps|]; intros ?).
  apply local_bind_any; [apply local_get_attributes|]. intros attrs. apply local_ret.
Qed.

Lemma local_info_loop vals : forall info : gmap Z info_value,
  local keep (info_loop vals info).
Proof.
  induction vals as [|val rest IH]; intros info; cbn [info_loop].
  - apply local_ret.
  - apply local_bind_any; [apply local_get_member|]. intros m. apply IH.
Qed.

Lemma local_get_info count : local keep (get_info count).
Proof. apply local_info_loop. Qed.

Lemma local_when_nonzero {A} count (reader : Z -> M A) :
  (forall c, local keep (reader c)) -> local keep (when_nonzero count reader).
Proof.
  intros Hreader. unfold when_nonzero. destruct (count =? 0); [apply local_ret|].
  apply local_bind_any; [apply Hreader|]. intros x. apply local_ret.
Qed.

Lemma local_finish (f : state -> class_file) :
  (forall s s', with_self s (f s') = f s) ->
  local with_self (self <- gets id ;; ret (f self)).
Proof.
  intros Hf st a st' [= <- <-]. split; [split; [lia|done]|].
  intros extra _ _. cbv [bind gets ret id]. by rewrite Hf.
Qed.

Lemma local_init : local with_self init.
Proof.
  unfold init.
  do 4 (apply local_bind_any; [local_steps|]; intros ?).
  apply local_bind_any; [by apply local_modify|]. intros _.
  apply local_bind_any; [by apply local_gets|]. intros ?.
  apply local_bind_any; [apply local_get_constant_pool|]. intros ?.
  do 4 (apply local_bind_any; [local_steps|]; intros ?).
  apply local_bind_any; [by apply local_gets|]. intros ?.
  apply local_bind_any; [apply local_when_nonzero, local_get_info|]. intros ?.
  apply local_bind_any; [local_steps|]. intros ?.
  apply local_bind_any; [by apply local_gets|]. intros ?.
  apply local_bind_any; [apply local_when_nonzero, local_get_info|]. intros ?.
  apply local_bind_any; [local_steps|]. intros ?.
  apply local_bind_any; [by apply local_gets|]. intros ?.
  apply local_bind_any; [apply local_when_nonzero, local_get_info|]. intros ?.
  apply local_bind_any; [local_steps|]. intros ?.
  apply local_bind_any; [apply local_when_nonzero, local_get_attributes|]. intros ?.
  by apply local_finish.
Qed.

(** X17: Bytes behind the place where the constructor stops do not matter: if
    it returns with the offset inside the file, it returns the same object
    on the file followed by any further bytes (the object then holding the
    longer buffer). *)
Theorem trailing_bytes_ignored (contents extra : list byte)
    (cf : class_file) (st : state) :
  ClassFile contents = Return cf st ->
  offset st <= Z.of_nat (length contents) ->
  ClassFile (contents ++ extra)
  = Return (with_self (extended extra st) cf) (extended extra st).
Proof.
  unfold ClassFile. intros Hrun Hend.
  destruct (local_init _ _ _ Hrun) as (_ & Hext).
  exact (Hext extra ltac:(simpl; lia) Hend).
Qed.

Lemma trailing_bytes_ignored_witness :
  exists cf st,
    ClassFile bare_method_class = Return cf st /\
    offset st <= Z.of_nat (length bare_method_class) /\
    ClassFile (bare_method_class ++ [xff])
    = Return (with_self (extended [xff] st) cf) (extended [xff] st).
Proof.
  eexists _, _. split; [vm_compute; reflexivity|].
  split; [vm_compute; discriminate|].
  apply (trailing_bytes_ignored bare_method_class [xff]).
  - vm_compute. reflexivity.
  - vm_compute. discriminate.
Defined.

(** ** Attributes as the format writes them *)

Lemma u8_byte_of_Z z : 0 <= z < 256 -> u8 (byte_of_Z z) = z.
Proof.
  intros Hz. unfold u8, byte_of_Z.
  destruct (Byte.of_N (Z.to_N z)) as [b|] eqn:Hb.
  - apply Byte.to_of_N in Hb. rewrite Hb. lia.
  - apply Byte.of_N_None_iff in Hb. lia.
Qed.

Lemma int_from_bytes_u2 n : 0 <= n < 65536 -> int_from_bytes (u2_bytes n) = n.
Proof.
  intros Hn. unfold int_from_bytes, u2_bytes. cbn [fold_left].
  rewrite !u8_byte_of_Z.
  - pose proof (Z.div_mod n 256). lia.
  - apply Z.mod_pos_bound. lia.
  - split; [apply Z.div_pos; lia|apply Z.div_lt_upper_bound; lia].
Qed.

Lemma length_u2_bytes n : length (u2_bytes n) = 2%nat.
Proof. reflexivity. Qed.

Lemma length_u4_bytes n : length (u4_bytes n) = 4%nat.
Proof. reflexivity. Qed.

Lemma int_from_bytes_u4 n : 0 <= n < 2 ^ 32 -> int_from_bytes (u4_bytes n) = n.
Proof.
  intros Hn. unfold u4_bytes. rewrite int_from_bytes_app, length_u2_bytes.
  rewrite !int_from_bytes_u2.
  - change (256 ^ Z.of_nat 2) with 65536. pose proof (Z.div_mod n 65536). lia.
  - apply Z.mod_pos_bound. lia.
  - split; [apply Z.div_pos; lia|apply Z.div_lt_upper_bound; lia].
Qed.

Lemma py_slice_middle {A} (pre mid post : list A) lo hi :
  lo = Z.of_nat (length pre) -> hi = lo + Z.of_nat (length mid) ->
  py_slice (pre ++ mid ++ post) lo hi = mid.
Proof.
  intros -> ->. rewrite py_slice_take_drop by lia.
  rewrite Nat2Z.id, drop_app_length.
  replace (Z.to_nat _) with (length mid) by lia.
  apply take_app_length.
Qed.

(** One attribute written by the format and read back. *)
Lemma get_an_attribute_encoded st pre a post :
  data st = pre ++ encode_attribute a ++ post ->
  offset st = Z.of_nat (length pre) ->
  writable_attribute a ->
  get_an_attribute st = Return a (after_attributes [a] st).
Proof.
  unfold encode_attribute. intros Hdata Hoff (Hname & Hlen & Hinfo).
  rewrite <- !app_assoc in Hdata.
  set (n2 := u2_bytes (attr_name_index a)) in *.
  set (n4 := u4_bytes (attr_length a)) in *.
  destruct (get_an_attribute_spec st)
    as (a' & st' & Hrun & Hdata' & Hcode' & Hcount' & Hacc' & Hname' & Hlen' & Hnz & _).
  assert (Ha1 : attr_name_index a' = attr_name_index a).
  { rewrite Hname', Hdata.
    rewrite (py_slice_middle pre n2); [by apply int_from_bytes_u2|done|].
    subst n2. rewrite length_u2_bytes. lia. }
  assert (Ha2 : attr_length a' = attr_length a).
  { rewrite Hlen', Hdata. rewrite (app_assoc pre n2).
    rewrite (py_slice_middle (pre ++ n2) n4); [apply int_from_bytes_u4; lia| |];
      subst n2 n4; rewrite ?length_app, ?length_u2_bytes, ?length_u4_bytes; lia. }
  destruct Hnz as (Hoff' & Hinfo'); [lia|].
  assert (Ha3 : attr_info a' = attr_info a).
  { rewrite Hinfo', Hdata. rewrite (app_assoc pre n2), (app_assoc (pre ++ n2) n4).
    apply py_slice_middle;
      subst n2 n4; rewrite ?length_app, ?length_u2_bytes, ?length_u4_bytes; lia. }
  assert (a' = a) as -> by (destruct a', a; cbn in *; congruence).
  rewrite Hrun. f_equal. unfold after_attributes, code_bodies.
  cbn [flat_map declared_span foldr]. rewrite app_nil_r.
  destruct st' as [d o c r n].
  cbn [data offset i_am_code run_code pool_count] in Hdata', Hcode', Hcount', Hacc', Hoff'.
  subst d o c r n. f_equal. lia.
Qed.

Lemma attributes_loop_encoded attrs : forall st pre post span done,
  data st = pre ++ flat_map encode_attribute attrs ++ post ->
  offset st = Z.of_nat (length pre) ->
  Forall writable_attribute attrs ->
  attributes_loop (length attrs) (Span span :: map Attr done) st
  = Return (Span (span + declared_span attrs) :: map Attr (done ++ attrs))
           (after_attributes attrs st).
Proof.
  induction attrs as [|a attrs IH]; intros st pre post span done Hdata Hoff Hwf.
  - cbn [length attributes_loop declared_span foldr].
    unfold ret, after_attributes, code_bodies. cbn [flat_map].
    rewrite !Z.add_0_r, !app_nil_r. by destruct st.
  - apply Forall_cons in Hwf as (Ha & Hwf).
    cbn [flat_map] in Hdata. rewrite <- app_assoc in Hdata.
    cbn [length attributes_loop].
    rewrite (bind_eq_Return _ _ _ _ _
               (get_an_attribute_encoded st pre a _ Hdata Hoff Ha)).
    replace (add_span (6 + attr_length a) ((Span span :: map Attr done) ++ [Attr a]))
      with (Span (span + (6 + attr_length a)) :: map Attr (done ++ [a]))
      by (simpl; by rewrite map_app).
    rewrite (IH (after_attributes [a] st) (pre ++ encode_attribute a) post).
    + rewrite <- app_assoc. cbn [app].
      assert (Hspan : declared_span (a :: attrs)
                      = 6 + attr_length a + declared_span attrs) by reflexivity.
      assert (Hone : declared_span [a] = 6 + attr_length a) by (cbn; lia).
      f_equal; [do 2 f_equal; lia|].
      unfold after_attributes. cbn [data offset i_am_code run_code pool_count].
      rewrite Hspan, Hone. unfold code_bodies. cbn [flat_map].
      rewrite app_nil_r, <- app_assoc. f_equal. lia.
    + cbn [after_attributes data]. by rewrite <- app_assoc.
    + destruct Ha as (_ & _ & Hinfo).
      unfold after_attributes. cbn [offset declared_span foldr].
      unfold encode_attribute.
      rewrite !length_app, length_u2_bytes, length_u4_bytes. lia.
    + done.
Qed.

Lemma get_attributes_encoded st pre post attrs :
  data st = pre ++ flat_map encode_attribute attrs ++ post ->
  offset st = Z.of_nat (length pre) ->
  Forall writable_attribute attrs ->
  get_attributes (Z.of_nat (length attrs)) st
  = Return (Span (declared_span attrs) :: map Attr attrs)
           (after_attributes attrs st).
Proof.
  intros Hdata Hoff Hwf.
  unfold get_attributes. destruct (Z.eqb_spec (Z.of_nat (length attrs)) 0) as [Hz|Hnz].
  - destruct attrs; [|simpl in Hz; lia].
    unfold ret, after_attributes, code_bodies. cbn [length declared_span foldr flat_map].
    rewrite Z.add_0_r, app_nil_r. by destruct st.
  - rewrite Nat2Z.id.
    pose proof (attributes_loop_encoded attrs st pre post 0 [] Hdata Hoff Hwf) as Hloop.
    cbn [map app] in Hloop. by rewrite Z.add_0_l in Hloop.
Qed.

Lemma declared_span_encoded attrs :
  Forall writable_attribute attrs ->
  declared_span attrs = Z.of_nat (length (flat_map encode_attribute attrs)).
Proof.
  induction 1 as [|a attrs (_ & _ & Hinfo) _ IH]; [done|].
  cbn [declared_span foldr flat_map]. fold (declared_span attrs).
  unfold encode_attribute at 1.
  rewrite !length_app, length_u2_bytes, length_u4_bytes. lia.
Qed.

(** X18: A list of attributes written as the format writes them, anywhere in
    the buffer, is read back as written: [get_attributes] returns the
    span and exactly those attributes, with the cursor right behind the
    last one and the bytes of those named by the sentinel accumulated. *)
Theorem attributes_round_trip (st : state) (pre post : list byte)
    (attrs : list attribute) :
  data st = pre ++ flat_map encode_attribute attrs ++ post ->
  offset st = Z.of_nat (length pre) ->
  Forall writable_attribute attrs ->
  get_attributes (Z.of_nat (length attrs)) st
  = Return (Span (declared_span attrs) :: map Attr attrs)
           (after_attributes attrs st) /\
  offset (after_attributes attrs st)
  = offset st + Z.of_nat (length (flat_map encode_attribute attrs)) /\
  run_code (after_attributes attrs st)
  = run_code st ++ code_bodies (i_am_code st) attrs.
Proof.
  intros Hdata Hoff Hwf. split_and!.
  - by apply (get_attributes_encoded st pre post).
  - unfold after_attributes. cbn [offset]. by rewrite declared_span_encoded.
  - reflexivity.
Qed.

Lemma attributes_round_trip_witness :
  get_attributes 2 round_trip_buffer
  = Return (Span (declared_span two_attributes) :: map Attr two_attributes)
           (after_attributes two_attributes round_trip_buffer).
Proof.
  refine (proj1 (attributes_round_trip round_trip_buffer [xff] [x00]
                   two_attributes eq_refl eq_refl _)).
  repeat constructor; simpl; lia.
Defined.

(** ** Members as the format writes them *)

(** One member written by the format and read back. *)
Lemma get_member_encoded st pre m post :
  data st = pre ++ encode_member m ++ post ->
  offset st = Z.of_nat (length pre) ->
  writable_member m ->
  get_member st = Return m (after_members [m] st).
Proof.
  unfold encode_member.
  intros Hdata Hoff (Hflags & Hname & Hdesc & Hcount & attrs & Hattrs & Hlen & Hwf).
  rewrite Hattrs in Hdata.
  change (Span (declared_span attrs) :: map Attr attrs)
    with ([Span (declared_span attrs)] ++ map Attr attrs) in Hdata.
  rewrite attrs_of_app, attrs_of_Attr in Hdata. cbn [attrs_of flat_map app] in Hdata.
  rewrite <- !app_assoc in Hdata.
  set (n1 := u2_bytes (name_index m)) in *.
  set (n2 := u2_bytes (descriptor_index m)) in *.
  set (n3 := u2_bytes (attributes_count m)) in *.
  set (body := flat_map encode_attribute attrs) in *.
  unfold get_member. cbv [bind get_u2 int_u2 read_slice ret].
  cbn [data offset set_offset].
  rewrite !Hdata.
  rewrite (py_slice_middle pre (access_flags m) _ (offset st) (offset st + 2)) by lia.
  rewrite (app_assoc pre (access_flags m)).
  rewrite (py_slice_middle (pre ++ access_flags m) n1 _
             (offset st + 2) (offset st + 2 + 2))
    by (subst n1; rewrite ?length_app, ?length_u2_bytes; lia).
  rewrite (app_assoc _ n1).
  rewrite (py_slice_middle ((pre ++ access_flags m) ++ n1) n2 _
             (offset st + 2 + 2) (offset st + 2 + 2 + 2))
    by (subst n1 n2; rewrite ?length_app, ?length_u2_bytes; lia).
  rewrite (app_assoc _ n2).
  rewrite (py_slice_middle (((pre ++ access_flags m) ++ n1) ++ n2) n3 _
             (offset st + 2 + 2 + 2) (offset st + 2 + 2 + 2 + 2))
    by (subst n1 n2 n3; rewrite ?length_app, ?length_u2_bytes; lia).
  subst n1 n2 n3. rewrite !int_from_bytes_u2 by done.
  pose proof (declared_span_encoded attrs Hwf) as Hspan.
  match goal with
  | |- context [get_attributes _ ?s] =>
    pose proof (get_attributes_encoded s
                  (pre ++ access_flags m ++ u2_bytes (name_index m)
                   ++ u2_bytes (descriptor_index m) ++ u2_bytes (attributes_count m))
                  post attrs) as Hrun
  end.
  rewrite <- Hlen, Hrun.
  - f_equal.
    + destruct m as [f n d c a]. cbn in *. congruence.
    + unfold after_members, after_attributes, members_attributes.
      cbn [data offset i_am_code run_code pool_count set_offset flat_map].
      rewrite !app_nil_r, Hattrs, Hdata.
      change (Span (declared_span attrs) :: map Attr attrs)
        with ([Span (declared_span attrs)] ++ map Attr attrs).
      rewrite attrs_of_app, attrs_of_Attr. cbn [attrs_of flat_map app].
      f_equal. unfold encode_member. rewrite Hattrs.
      change (Span (declared_span attrs) :: map Attr attrs)
        with ([Span (declared_span attrs)] ++ map Attr attrs).
      rewrite attrs_of_app, attrs_of_Attr. cbn [attrs_of flat_map app].
      rewrite !length_app, !length_u2_bytes, Hspan. lia.
  - cbn [data set_offset]. by rewrite <- !app_assoc.
  - cbn [offset set_offset]. rewrite !length_app, !length_u2_bytes. lia.
  - done.
Qed.

Lemma after_members_nil st : after_members [] st = st.
Proof.
  unfold after_members, members_attributes, code_bodies. cbn [flat_map length].
  rewrite Z.add_0_r, app_nil_r. by destruct st.
Qed.

Lemma after_members_cons m ms st :
  after_members ms (after_members [m] st) = after_members (m :: ms) st.
Proof.
  unfold after_members, members_attributes.
  cbn [data offset i_am_code run_code pool_count flat_map].
  rewrite !app_nil_r, code_bodies_app, length_app, <- app_assoc.
  f_equal. lia.
Qed.

Lemma info_loop_encoded ms : forall vals (info : gmap Z info_value) st pre post,
  length vals = length ms -> NoDup vals ->
  data st = pre ++ flat_map encode_member ms ++ post ->
  offset st = Z.of_nat (length pre) ->
  Forall writable_member ms ->
  exists info',
    info_loop vals info st = Return info' (after_members ms st) /\
    (forall i, i ∉ vals -> info' !! i = info !! i) /\
    (forall k val m, vals !! k = Some val -> ms !! k = Some m ->
                     info' !! val = Some (Member m)).
Proof.
  induction ms as [|m ms IH]; intros vals info st pre post Hlen Hnd Hdata Hoff Hwf.
  - destruct vals; [|discriminate]. exists info. rewrite after_members_nil.
    split; [done|]. split; [done|]. intros k val m Hk. by destruct k.
  - destruct vals as [|val vals]; [discriminate|].
    injection Hlen as Hlen. apply NoDup_cons in Hnd as (Hfresh & Hnd).
    apply Forall_cons in Hwf as (Hm & Hwf).
    cbn [flat_map] in Hdata. rewrite <- app_assoc in Hdata.
    pose proof (get_member_encoded st pre m _ Hdata Hoff Hm) as Hmember.
    destruct (IH vals (<[val := Member m]> info) (after_members [m] st)
                 (pre ++ encode_member m) post) as (info' & Hloop & Hout & Hin);
      try done.
    + cbn [after_members data]. by rewrite <- app_assoc.
    + unfold after_members. cbn [offset flat_map]. rewrite app_nil_r, length_app. lia.
    + exists info'. cbn [info_loop].
      rewrite (bind_eq_Return _ _ _ _ _ Hmember), Hloop, after_members_cons.
      split; [done|]. split.
      * intros i [Hne Hi]%not_elem_of_cons. rewrite Hout by done.
        by apply lookup_insert_ne.
      * intros [|k] val' m' Hval Hm'.
        -- injection Hval as <-. injection Hm' as <-.
           rewrite Hout by done. apply lookup_insert_eq.
        -- by eapply Hin.
Qed.

Lemma lookup_py_range lo hi k :
  Z.of_nat k < hi - lo -> py_range lo hi !! k = Some (lo + Z.of_nat k).
Proof.
  intros Hk. unfold py_range. rewrite list_lookup_fmap.
  rewrite lookup_seq_lt by lia. done.
Qed.

Lemma get_info_encoded st pre post ms :
  data st = pre ++ flat_map encode_member ms ++ post ->
  offset st = Z.of_nat (length pre) ->
  Forall writable_member ms ->
  exists info,
    get_info (Z.of_nat (length ms)) st = Return info (after_members ms st) /\
    info !! 0 = Some (ValuesCount (Z.of_nat (length ms))) /\
    (forall k m, ms !! k = Some m -> info !! (1 + Z.of_nat k) = Some (Member m)) /\
    (forall i, i ∉ py_range 1 (Z.of_nat (length ms) + 1) ->
               info !! i
               = (<[0 := ValuesCount (Z.of_nat (length ms))]> (∅ : gmap Z info_value)) !! i).
Proof.
  intros Hdata Hoff Hwf. unfold get_info.
  set (n := Z.of_nat (length ms)).
  destruct (info_loop_encoded ms (py_range 1 (n + 1)) (<[0 := ValuesCount n]> ∅)
              st pre post) as (info & Hloop & Hout & Hin); try done.
  { unfold py_range. rewrite length_map, length_seq. lia. }
  { apply NoDup_py_range. }
  exists info. split; [done|]. split_and!; [| |done].
  - rewrite Hout; [apply lookup_insert_eq|]. rewrite elem_of_py_range. lia.
  - intros k m Hm. apply (Hin k); [|done].
    apply lookup_py_range. apply lookup_lt_Some in Hm. lia.
Qed.

(** X19: A field or method section written as the format writes it, anywhere
    in the buffer, is read back as written: [get_info] returns the count
    under key 0 and the members, in order, under the keys from 1, and no
    other key, with the cursor right behind the section and the bytes of
    the attributes named by the sentinel accumulated. *)
Theorem members_round_trip (st : state) (pre post : list byte) (ms : list member) :
  data st = pre ++ flat_map encode_member ms ++ post ->
  offset st = Z.of_nat (length pre) ->
  Forall writable_member ms ->
  exists info,
    get_info (Z.of_nat (length ms)) st = Return info (after_members ms st) /\
    info !! 0 = Some (ValuesCount (Z.of_nat (length ms))) /\
    (forall k m, ms !! k = Some m -> info !! (1 + Z.of_nat k) = Some (Member m)) /\
    (forall i, is_Some (info !! i) -> 0 <= i <= Z.of_nat (length ms)) /\
    offset (after_members ms st)
    = offset st + Z.of_nat (length (flat_map encode_member ms)) /\
    run_code (after_members ms st)
    = run_code st ++ code_bodies (i_am_code st) (members_attributes ms).
Proof.
  intros Hdata Hoff Hwf.
  destruct (get_info_encoded st pre post ms Hdata Hoff Hwf)
    as (info & Hrun & Hzero & Hin & Hout).
  exists info. split_and!; try done.
  intros i Hsome.
  destruct (decide (i ∈ py_range 1 (Z.of_nat (length ms) + 1))) as [Hi|Hi].
  - apply elem_of_py_range in Hi. lia.
  - rewrite Hout in Hsome by done.
    destruct (decide (i = 0)) as [->|Hne]; [lia|].
    rewrite lookup_insert_ne, lookup_empty in Hsome by done.
    by destruct Hsome.
Qed.

Lemma members_round_trip_witness :
  exists info,
    get_info 1 member_buffer = Return info (after_members [sample_member] member_buffer) /\
    info !! 1 = Some (Member sample_member).
Proof.
  destruct (members_round_trip member_buffer [xff] [x00] [sample_member])
    as (info & Hrun & _ & Hin & _).
  - reflexivity.
  - reflexivity.
  - repeat constructor; try (simpl; lia).
    exists two_attributes. repeat constructor; simpl; lia.
  - exists info. split; [exact Hrun|]. exact (Hin 0%nat sample_member eq_refl).
Defined.

(** ** Constants as the format writes them *)

Lemma set_offset_same st : set_offset (offset st) st = st.
Proof. by destruct st. Qed.

Lemma consumes_ret {A} (a : A) : consumes (ret a) [] a.
Proof.
  intros st pre post _ _. cbn [length]. by rewrite Z.add_0_r, set_offset_same.
Qed.

Lemma consumes_bind {A B} (m : M A) (k : A -> M B) bs1 bs2 a b :
  consumes m bs1 a -> consumes (k a) bs2 b -> consumes (bind m k) (bs1 ++ bs2) b.
Proof.
  intros Hm Hk st pre post Hdata Hoff.
  rewrite <- app_assoc in Hdata.
  rewrite (bind_eq_Return _ _ _ _ _ (Hm st pre _ Hdata Hoff)).
  rewrite (Hk _ (pre ++ bs1) post).
  - unfold set_offset. cbn. rewrite length_app. f_equal. f_equal. lia.
  - cbn [data set_offset]. by rewrite <- app_assoc.
  - cbn [offset set_offset]. rewrite length_app. lia.
Qed.

Lemma consumes_bind_pure {A B} (m : M A) (k : A -> M B) bs a b :
  consumes m bs a -> (forall st, k a st = Return b st) -> consumes (bind m k) bs b.
Proof.
  intros Hm Hk st pre post Hdata Hoff.
  by rewrite (bind_eq_Return _ _ _ _ _ (Hm st pre _ Hdata Hoff)), Hk.
Qed.

Lemma consumes_read_slice n bs :
  Z.of_nat (length bs) = n -> consumes (read_slice n) bs bs.
Proof.
  intros <- st pre post Hdata Hoff. unfold read_slice.
  by rewrite Hdata, py_slice_middle.
Qed.

Lemma consumes_get_u1 b : consumes get_u1 [b] (u8 b).
Proof.
  intros st pre post Hdata Hoff. unfold get_u1, py_index.
  rewrite Hdata, Hoff, length_app. cbn [length app].
  destruct (Z.ltb_spec (Z.of_nat (length pre)) 0); [lia|].
  destruct (Z.leb_spec 0 (Z.of_nat (length pre))); [|lia].
  destruct (Z.ltb_spec (Z.of_nat (length pre)) (Z.of_nat (length pre + S (length post))));
    [|lia].
  cbn [andb]. rewrite Nat2Z.id, list_lookup_middle by done. done.
Qed.

Lemma int_from_bytes_u8 n : 0 <= n < 2 ^ 64 -> int_from_bytes (u8_bytes n) = n.
Proof.
  intros Hn. unfold u8_bytes. rewrite int_from_bytes_app, length_u4_bytes.
  rewrite !int_from_bytes_u4.
  - change (256 ^ Z.of_nat 4) with 4294967296.
    pose proof (Z.div_mod n 4294967296). lia.
  - apply Z.mod_pos_bound. lia.
  - split; [apply Z.div_pos; lia|apply Z.div_lt_upper_bound; lia].
Qed.

Lemma consumes_int_u2 n : 0 <= n < 65536 -> consumes int_u2 (u2_bytes n) n.
Proof.
  intros Hn. apply (consumes_bind_pure _ _ _ (u2_bytes n)).
  - by apply consumes_read_slice.
  - intros st. unfold ret. by rewrite int_from_bytes_u2.
Qed.

Lemma consumes_int_u4 n : 0 <= n < 2 ^ 32 -> consumes int_u4 (u4_bytes n) n.
Proof.
  intros Hn. apply (consumes_bind_pure _ _ _ (u4_bytes n)).
  - by apply consumes_read_slice.
  - intros st. unfold ret. by rewrite int_from_bytes_u4.
Qed.

Lemma consumes_int_u8 n : 0 <= n < 2 ^ 64 -> consumes int_u8 (u8_bytes n) n.
Proof.
  intros Hn. apply (consumes_bind_pure _ _ _ (u8_bytes n)).
  - by apply consumes_read_slice.
  - intros st. unfold ret. by rewrite int_from_bytes_u8.
Qed.

Lemma utf8_decode_bytes_of s :
  Forall (fun p => 0 <= p < 128) s -> utf8_decode (bytes_of s) = Some s.
Proof.
  induction 1 as [|p s Hp _ IH]; [done|].
  cbn [bytes_of map utf8_decode]. fold (bytes_of s). cbv zeta.
  rewrite u8_byte_of_Z by lia.
  destruct (Z.ltb_spec p 128); [|lia]. by rewrite IH.
Qed.

Lemma length_bytes_of zs : length (bytes_of zs) = length zs.
Proof. apply length_map. Qed.

(** The reader of an entry's tag reads the entry back from its bytes. *)
Lemma tag_table_encoded c :
  writable_constant c ->
  exists read,
    tag_table (constant_tag c) = Some read /\
    consumes read (constant_payload c) c.
Proof.
  destruct c as [s|v|bs|v|bs|n|n|a b|a b|a b|a b|k i|n|a b];
    cbn [writable_constant constant_tag constant_payload tag_table];
    intros Hc; eexists; (split; [reflexivity|]).
  - destruct Hc as (Hascii & Hlen).
    apply (consumes_bind_pure _ _ _ (bytes_of s)).
    + unfold get_extended. cbn [Z.eqb].
      apply (consumes_bind _ _ _ _ (Z.of_nat (length s)));
        [apply consumes_int_u2; lia|].
      apply consumes_read_slice. by rewrite length_bytes_of.
    + intros st. unfold bind, str_decode. by rewrite utf8_decode_bytes_of.
  - apply (consumes_bind_pure _ _ _ v); [by apply consumes_int_u4|done].
  - apply (consumes_bind_pure _ _ _ bs).
    + apply consumes_read_slice. lia.
    + intros st. unfold bind, struct_unpack. by rewrite Hc.
  - apply (consumes_bind_pure _ _ _ v); [by apply consumes_int_u8|done].
  - apply (consumes_bind_pure _ _ _ bs).
    + apply consumes_read_slice. lia.
    + intros st. unfold bind, struct_unpack. by rewrite Hc.
  - apply (consumes_bind_pure _ _ _ n); [by apply consumes_int_u2|done].
  - apply (consumes_bind_pure _ _ _ n); [by apply consumes_int_u2|done].
  - destruct Hc. apply (consumes_bind _ _ _ _ a); [by apply consumes_int_u2|].
    apply (consumes_bind_pure _ _ _ b); [by apply consumes_int_u2|done].
  - destruct Hc. apply (consumes_bind _ _ _ _ a); [by apply consumes_int_u2|].
    apply (consumes_bind_pure _ _ _ b); [by apply consumes_int_u2|done].
  - destruct Hc. apply (consumes_bind _ _ _ _ a); [by apply consumes_int_u2|].
    apply (consumes_bind_pure _ _ _ b); [by apply consumes_int_u2|done].
  - destruct Hc. apply (consumes_bind _ _ _ _ a); [by apply consumes_int_u2|].
    apply (consumes_bind_pure _ _ _ b); [by apply consumes_int_u2|done].
  - destruct Hc as (Hk & Hi).
    change (byte_of_Z k :: u2_bytes i) with ([byte_of_Z k] ++ u2_bytes i).
    apply (consumes_bind _ _ _ _ k).
    + rewrite <- (u8_byte_of_Z k) at 2 by done. apply consumes_get_u1.
    + apply (consumes_bind_pure _ _ _ i); [by apply consumes_int_u2|done].
  - apply (consumes_bind_pure _ _ _ n); [by apply consumes_int_u2|done].
  - destruct Hc. apply (consumes_bind _ _ _ _ a); [by apply consumes_int_u2|].
    apply (consumes_bind_pure _ _ _ b); [by apply consumes_int_u2|done].
Qed.

Lemma constant_tag_byte c : u8 (byte_of_Z (constant_tag c)) = constant_tag c.
Proof. apply u8_byte_of_Z. destruct c; cbn; lia. Qed.

(** One iteration of the pool loop on an entry the format wrote. *)
Lemma constant_pool_body_encoded index (pool : gmap Z pool_value) st pre c post :
  data st = pre ++ encode_constant c ++ post ->
  offset st = Z.of_nat (length pre) ->
  writable_constant c ->
  exists r st',
    constant_pool_body index pool st = Return r st' /\
    snd r = <[index := PoolConstant c]> pool /\
    data st' = data st /\
    offset st' = offset st + Z.of_nat (length (encode_constant c)).
Proof.
  unfold encode_constant. intros Hdata Hoff Hc.
  destruct (tag_table_encoded c Hc) as (read & Htable & Hread).
  assert (Htag : get_u1 st
                 = Return (constant_tag c) (set_offset (offset st + 1) st)).
  { rewrite <- (constant_tag_byte c) at 1.
    apply (consumes_get_u1 _ st pre (constant_payload c ++ post)); [|done].
    by rewrite Hdata. }
  assert (Hentry : read (set_offset (offset st + 1) st)
                   = Return c (set_offset (offset st + 1
                                           + Z.of_nat (length (constant_payload c))) st)).
  { rewrite (Hread _ (pre ++ [byte_of_Z (constant_tag c)]) post).
    - done.
    - cbn [data set_offset]. rewrite Hdata, <- app_assoc. done.
    - cbn [offset set_offset]. rewrite length_app. cbn [length]. lia. }
  unfold constant_pool_body.
  rewrite (bind_eq_Return _ _ _ _ _ Htag), Htable.
  rewrite (bind_eq_Return _ _ _ _ _ Hentry).
  destruct (names_code (constant_tag c) c); cbv [bind modify ret];
    do 2 eexists; (split; [reflexivity|]);
    cbn [snd data offset set_offset set_i_am_code length];
    split_and!; try done; lia.
Qed.

Lemma constant_pool_loop_encoded cs : forall indices (pool : gmap Z pool_value) st pre post,
  length indices = length cs -> NoDup indices ->
  data st = pre ++ flat_map encode_constant cs ++ post ->
  offset st = Z.of_nat (length pre) ->
  Forall writable_constant cs ->
  exists pool' st',
    constant_pool_loop indices pool st = Return pool' st' /\
    offset st' = offset st + Z.of_nat (length (flat_map encode_constant cs)) /\
    (forall k index c, indices !! k = Some index -> cs !! k = Some c ->
                       pool' !! index = Some (PoolConstant c)).
Proof.
  induction cs as [|c cs IH]; intros indices pool st pre post Hlen Hnd Hdata Hoff Hwf.
  - destruct indices; [|discriminate]. exists pool, st. cbn.
    split; [done|]. split; [lia|]. intros k index c Hk. by destruct k.
  - destruct indices as [|index indices]; [discriminate|].
    injection Hlen as Hlen. apply NoDup_cons in Hnd as (Hfresh & Hnd).
    apply Forall_cons in Hwf as (Hc & Hwf).
    cbn [flat_map] in Hdata. rewrite <- app_assoc in Hdata.
    destruct (constant_pool_body_encoded index pool st pre c _ Hdata Hoff Hc)
      as (r & st1 & Hbody & Hpool & Hdata1 & Hoff1).
    destruct (IH indices (snd r) st1 (pre ++ encode_constant c) post)
      as (pool' & st' & Hloop & Hoff' & Hin); try done.
    + by rewrite Hdata1, Hdata, <- app_assoc.
    + rewrite Hoff1, length_app. lia.
    + exists pool', st'. cbn [constant_pool_loop].
      rewrite (bind_eq_Return _ _ _ _ _ Hbody). split; [done|]. split.
      * cbn [flat_map]. rewrite length_app. lia.
      * intros [|k] index' c' Hindex Hc'.
        -- injection Hindex as <-. injection Hc' as <-.
           apply constant_pool_loop_spec in Hloop as (Hout & _); [|done].
           rewrite Hout, Hpool by done. apply lookup_insert_eq.
        -- by eapply Hin.
Qed.

Lemma get_constant_pool_encoded st pre post cs :
  data st = pre ++ flat_map encode_constant cs ++ post ->
  offset st = Z.of_nat (length pre) ->
  pool_count st = Z.of_nat (length cs) + 1 ->
  Forall writable_constant cs ->
  exists pool st',
    get_constant_pool st = Return pool st' /\
    (forall k c, cs !! k = Some c -> pool !! (1 + Z.of_nat k) = Some (PoolConstant c)) /\
    offset st' = offset st + Z.of_nat (length (flat_map encode_constant cs)).
Proof.
  intros Hdata Hoff Hcount Hwf.
  destruct (constant_pool_loop_encoded cs (py_range 1 (pool_count st))
              (<[0 := PoolCount (pool_count st)]> ∅) st pre post)
    as (pool & st' & Hloop & Hoff' & Hin); try done.
  { unfold py_range. rewrite length_map, length_seq. lia. }
  { apply NoDup_py_range. }
  exists pool, st'. split; [exact Hloop|]. split; [|done].
  intros k c Hc. apply (Hin k); [|done].
  apply lookup_py_range. apply lookup_lt_Some in Hc. lia.
Qed.

(** X20: Entries written one after another, with a declared count of one more
    than their number, are read back entry by entry: they are stored, in
    order, under the consecutive keys from 1 (a [Long] or [Double] takes
    one key like any other), the cursor ends right behind the last one,
    and the sentinel is the last key holding the text ["Code"], if any. *)
Theorem pool_round_trip (st : state) (pre post : list byte) (cs : list constant) :
  data st = pre ++ flat_map encode_constant cs ++ post ->
  offset st = Z.of_nat (length pre) ->
  pool_count st = Z.of_nat (length cs) + 1 ->
  Forall writable_constant cs ->
  exists pool st',
    get_constant_pool st = Return pool st' /\
    pool !! 0 = Some (PoolCount (pool_count st)) /\
    (forall k c, cs !! k = Some c -> pool !! (1 + Z.of_nat k) = Some (PoolConstant c)) /\
    offset st' = offset st + Z.of_nat (length (flat_map encode_constant cs)) /\
    i_am_code st'
    = last_code_index pool (py_range 1 (pool_count st)) (i_am_code st) /\
    data st' = data st /\ run_code st' = run_code st.
Proof.
  intros Hdata Hoff Hcount Hwf.
  destruct (get_constant_pool_encoded st pre post cs Hdata Hoff Hcount Hwf)
    as (pool & st' & Hrun & Hin & Hoff').
  exists pool, st'. split; [done|].
  destruct (get_constant_pool_spec _ _ _ Hrun)
    as (Hzero & _ & _ & Hcode & Hdata' & Hacc & _).
  by split_and!.
Qed.

Lemma pool_round_trip_witness :
  exists pool st',
    get_constant_pool constants_buffer = Return pool st' /\
    pool !! 3 = Some (PoolConstant (Long 1)) /\
    pool !! 4 = Some (PoolConstant (Utf8 str_Code)) /\
    offset st'
    = offset constants_buffer
      + Z.of_nat (length (flat_map encode_constant sample_constants)).
Proof.
  destruct (pool_round_trip constants_buffer (header ++ u2_bytes 7) (u2_bytes 0x21)
              sample_constants)
    as (pool & st' & Hrun & _ & Hin & Hoff & _).
  - unfold constants_buffer. cbn [data]. by rewrite <- app_assoc.
  - reflexivity.
  - reflexivity.
  - repeat constructor; simpl; lia.
  - exists pool, st'. split; [exact Hrun|].
    split; [exact (Hin 2%nat (Long 1) eq_refl)|].
    split; [exact (Hin 3%nat (Utf8 str_Code) eq_refl)|exact Hoff].
Defined.

(** ** Class files as the format writes them *)

Lemma omap_members_range (info : gmap Z info_value) ms : forall lo,
  (forall k m, ms !! k = Some m -> info !! (lo + Z.of_nat k) = Some (Member m)) ->
  omap (fun val => match info !! val with
                   | Some (Member m) => Some m
                   | _ => None
                   end)
       (py_range lo (lo + Z.of_nat (length ms)))
  = ms.
Proof.
  induction ms as [|m ms IH]; intros lo Hin.
  - by rewrite py_range_nil by (simpl; lia).
  - rewrite py_range_cons by (simpl; lia). cbn [omap list_omap].
    pose proof (Hin 0%nat m eq_refl) as Hm. rewrite Z.add_0_r in Hm. rewrite Hm.
    f_equal.
    replace (lo + Z.of_nat (length (m :: ms)))
      with (lo + 1 + Z.of_nat (length ms)) by (simpl; lia).
    apply IH. intros k m' Hk.
    replace (lo + 1 + Z.of_nat k) with (lo + Z.of_nat (S k)) by lia.
    by apply Hin.
Qed.

Lemma members_of_lookups (info : gmap Z info_value) ms :
  info !! 0 = Some (ValuesCount (Z.of_nat (length ms))) ->
  (forall k m, ms !! k = Some m -> info !! (1 + Z.of_nat k) = Some (Member m)) ->
  members_of (Some info) = ms.
Proof.
  intros Hzero Hin. unfold members_of, values_count. rewrite Hzero.
  replace (Z.of_nat (length ms) + 1) with (1 + Z.of_nat (length ms)) by lia.
  by apply omap_members_range.
Qed.

(** A section under [if count:], written by the format and read back. *)
Lemma section_round_trip st pre post ms :
  data st = pre ++ flat_map encode_member ms ++ post ->
  offset st = Z.of_nat (length pre) ->
  Forall writable_member ms ->
  exists section,
    when_nonzero (Z.of_nat (length ms)) get_info st
    = Return section (after_members ms st) /\
    members_of section = ms.
Proof.
  intros Hdata Hoff Hwf. unfold when_nonzero.
  destruct (Z.eqb_spec (Z.of_nat (length ms)) 0) as [Hz|Hnz].
  - destruct ms; [|simpl in Hz; lia].
    exists None. by rewrite after_members_nil.
  - destruct (get_info_encoded st pre post ms Hdata Hoff Hwf)
      as (info & Hrun & Hzero & Hin & _).
    exists (Some info). rewrite (bind_eq_Return _ _ _ _ _ Hrun).
    split; [done|]. by apply members_of_lookups.
Qed.

Lemma class_attributes_encoded st pre post attrs :
  data st = pre ++ flat_map encode_attribute attrs ++ post ->
  offset st = Z.of_nat (length pre) ->
  Forall writable_attribute attrs ->
  exists items,
    when_nonzero (Z.of_nat (length attrs)) get_attributes st
    = Return items (after_attributes attrs st) /\
    attributes_of items = attrs.
Proof.
  intros Hdata Hoff Hwf. unfold when_nonzero.
  destruct (Z.eqb_spec (Z.of_nat (length attrs)) 0) as [Hz|Hnz].
  - destruct attrs; [|simpl in Hz; lia].
    exists None. split; [|done]. unfold ret, after_attributes, code_bodies.
    cbn [declared_span foldr flat_map]. rewrite Z.add_0_r, app_nil_r. by destruct st.
  - pose proof (get_attributes_encoded st pre post attrs Hdata Hoff Hwf) as Hrun.
    exists (Some (Span (declared_span attrs) :: map Attr attrs)).
    rewrite (bind_eq_Return _ _ _ _ _ Hrun). split; [done|].
    unfold attributes_of.
    change (Span (declared_span attrs) :: map Attr attrs)
      with ([Span (declared_span attrs)] ++ map Attr attrs).
    by rewrite attrs_of_app, attrs_of_Attr.
Qed.

Lemma slice_of_parts {A} (contents pre mid post : list A) lo hi :
  contents = pre ++ mid ++ post ->
  lo = Z.of_nat (length pre) -> hi = lo + Z.of_nat (length mid) ->
  py_slice contents lo hi = mid.
Proof. intros ->. apply py_slice_middle. Qed.

Lemma last_code_index_sentinel (pool : gmap Z pool_value) n :
  pool !! 0 = Some (PoolCount n) ->
  last_code_index pool (py_range 1 n) 0 = code_sentinel pool.
Proof. intros Hzero. unfold code_sentinel, stored_count. by rewrite Hzero. Qed.

(** X21: A class file without interfaces and without [Long] or [Double]
    constants, written as the format writes it, is read back whole: the constructor returns, the header fields, the
    constants (under consecutive keys), the fields, the methods and the
    class attributes are those written, the cursor ends at the end of
    the file, and the accumulator holds the bytes of the attributes named
    by the sentinel, in file order. *)
Theorem class_round_trip (src : class_source) :
  writable_class src ->
  exists cf st,
    ClassFile (encode_class src) = Return cf st /\
    magic cf = src_magic src /\
    minor cf = src_minor src /\
    major cf = src_major src /\
    (forall k c, src_constants src !! k = Some c ->
                 constant_pool cf !! (1 + Z.of_nat k) = Some (PoolConstant c)) /\
    cf_access_flags cf = src_flags src /\
    this_class cf = src_this src /\
    super_class cf = src_super src /\
    interfaces cf = None /\
    members_of (fields cf) = src_fields src /\
    members_of (methods cf) = src_methods src /\
    attributes_of (class_attributes cf) = src_attributes src /\
    offset st = Z.of_nat (length (encode_class src)) /\
    i_am_code st = code_sentinel (constant_pool cf) /\
    run_code st
    = code_bodies (i_am_code st)
        (members_attributes (src_fields src)
         ++ members_attributes (src_methods src) ++ src_attributes src).
Proof.
  destruct src as [mg mi ma cs fl th su fs ms ats].
  unfold writable_class, encode_class, encode_header, encode_body.
  cbn [src_magic src_minor src_major src_constants src_flags src_this src_super
       src_fields src_methods src_attributes].
  intros (Hmg & Hmi & Hma & Hpc & Hcs & _ & Hfl & Hth & Hsu & Hnf & Hfs & Hnm & Hms
          & Hna & Hats).
  set (pc := Z.of_nat (length cs) + 1) in *.
  set (P := flat_map encode_constant cs).
  set (F := flat_map encode_member fs).
  set (Mb := flat_map encode_member ms).
  set (Ab := flat_map encode_attribute ats).
  set (nf := u2_bytes (Z.of_nat (length fs))).
  set (nm := u2_bytes (Z.of_nat (length ms))).
  set (na := u2_bytes (Z.of_nat (length ats))).
  set (H := mg ++ u2_bytes mi ++ u2_bytes ma ++ u2_bytes pc).
  set (B := fl ++ th ++ su ++ u2_bytes 0 ++ nf ++ F ++ nm ++ Mb ++ na ++ Ab).
  set (contents := H ++ P ++ B).
  assert (HlenH : length H = 10%nat)
    by (subst H; rewrite !length_app, !length_u2_bytes; lia).
  rewrite ClassFile_unfold.
  assert (Hhead : after_header contents = mkState contents 10 0 [] pc).
  { unfold after_header. f_equal.
    rewrite (slice_of_parts contents (mg ++ u2_bytes mi ++ u2_bytes ma)
               (u2_bytes pc) (P ++ B));
      [apply int_from_bytes_u2; lia| |
       rewrite !length_app, !length_u2_bytes; lia|
       rewrite length_u2_bytes; lia].
    subst contents H. by rewrite <- !app_assoc. }
  destruct (get_constant_pool_encoded (mkState contents 10 0 [] pc) H B cs)
    as (pool & s1 & Hpool & Hin & Hoff1); [done|cbn; lia|done|done|].
  pose proof (get_constant_pool_spec _ _ _ Hpool)
    as (Hzero & _ & _ & Hcode1 & Hdata1 & Hacc1 & Hcount1).
  rewrite Hhead, Hpool. cbv zeta.
  cbn [data offset i_am_code run_code pool_count] in Hoff1, Hcode1, Hdata1, Hacc1, Hcount1, Hzero.
  rewrite (last_code_index_sentinel pool pc Hzero) in Hcode1.
  fold P in Hoff1. set (np := Z.of_nat (length P)) in *.
  destruct s1 as [d1 o1 c1 r1 n1].
  cbn [data offset i_am_code run_code pool_count set_offset] in *. subst d1 o1 r1 n1.
  assert (Hparts : forall pre mid post lo hi,
            contents = pre ++ mid ++ post ->
            lo = Z.of_nat (length pre) -> hi = lo + Z.of_nat (length mid) ->
            py_slice contents lo hi = mid)
    by (intros; by eapply slice_of_parts).
  assert (Hs1 : py_slice contents 0 4 = mg).
  { apply (Hparts [] mg (u2_bytes mi ++ u2_bytes ma ++ u2_bytes pc ++ P ++ B));
      [subst contents H B; by rewrite <- ?app_assoc|simpl; lia|lia]. }
  assert (Hs2 : py_slice contents 4 6 = u2_bytes mi).
  { apply (Hparts mg _ (u2_bytes ma ++ u2_bytes pc ++ P ++ B));
      [subst contents H B; by rewrite <- ?app_assoc|lia|rewrite length_u2_bytes; lia]. }
  assert (Hs3 : py_slice contents 6 8 = u2_bytes ma).
  { apply (Hparts (mg ++ u2_bytes mi) _ (u2_bytes pc ++ P ++ B));
      [subst contents H B; by rewrite <- ?app_assoc
      |rewrite length_app, length_u2_bytes; lia|rewrite length_u2_bytes; lia]. }
  assert (Hs4 : py_slice contents (10 + np) (10 + np + 2) = fl).
  { apply (Hparts (H ++ P) _ (th ++ su ++ u2_bytes 0 ++ nf ++ F ++ nm ++ Mb ++ na ++ Ab));
      [subst contents B; by rewrite <- ?app_assoc
      |subst np; rewrite length_app; lia|lia]. }
  assert (Hs5 : py_slice contents (10 + np + 2) (10 + np + 2 + 2) = th).
  { apply (Hparts (H ++ P ++ fl) _ (su ++ u2_bytes 0 ++ nf ++ F ++ nm ++ Mb ++ na ++ Ab));
      [subst contents B; by rewrite <- ?app_assoc
      |subst np; rewrite !length_app; lia|lia]. }
  assert (Hs6 : py_slice contents (10 + np + 2 + 2) (10 + np + 2 + 2 + 2) = su).
  { apply (Hparts (H ++ P ++ fl ++ th) _ (u2_bytes 0 ++ nf ++ F ++ nm ++ Mb ++ na ++ Ab));
      [subst contents B; by rewrite <- ?app_assoc
      |subst np; rewrite !length_app; lia|lia]. }
  assert (Hs7 : py_slice contents (10 + np + 6) (10 + np + 6 + 2) = u2_bytes 0).
  { apply (Hparts (H ++ P ++ fl ++ th ++ su) _ (nf ++ F ++ nm ++ Mb ++ na ++ Ab));
      [subst contents B; by rewrite <- ?app_assoc
      |subst np; rewrite !length_app; lia|rewrite length_u2_bytes; lia]. }
  assert (Hs8 : py_slice contents (10 + np + 2 + 2 + 2 + 2) (10 + np + 2 + 2 + 2 + 2 + 2) = nf).
  { apply (Hparts (H ++ P ++ fl ++ th ++ su ++ u2_bytes 0) _ (F ++ nm ++ Mb ++ na ++ Ab));
      [subst contents B; by rewrite <- ?app_assoc
      |subst np; rewrite !length_app, length_u2_bytes; lia
      |subst nf; rewrite length_u2_bytes; lia]. }
  rewrite Hs7. change (int_from_bytes (u2_bytes 0)) with 0.
  change (when_nonzero 0 get_info ?s) with (Return (@None (gmap Z info_value)) s).
  cbv beta iota. cbn [data offset i_am_code run_code pool_count set_offset].
  rewrite Hs8. subst nf. rewrite int_from_bytes_u2 by lia.
  set (nf := u2_bytes (Z.of_nat (length fs))) in *.
  unfold set_offset. cbn [data offset i_am_code run_code pool_count].
  destruct (section_round_trip
              (mkState contents (10 + np + 2 + 2 + 2 + 2 + 2) c1 [] pc)
              (H ++ P ++ fl ++ th ++ su ++ u2_bytes 0 ++ nf)
              (nm ++ Mb ++ na ++ Ab) fs) as (Sf & Hrunf & Hmemf);
    [subst contents B; cbn [data]; by rewrite <- ?app_assoc
    |subst np nf; cbn [offset]; rewrite !length_app, !length_u2_bytes; lia
    |done|].
  rewrite Hrunf. cbv beta iota. unfold after_members.
  cbn [data offset i_am_code run_code pool_count app].
  fold F. set (nF := Z.of_nat (length F)) in *.
  assert (Hs9 : py_slice contents (10 + np + 2 + 2 + 2 + 2 + 2 + nF)
                         (10 + np + 2 + 2 + 2 + 2 + 2 + nF + 2) = nm).
  { apply (Hparts (H ++ P ++ fl ++ th ++ su ++ u2_bytes 0 ++ nf ++ F) _ (Mb ++ na ++ Ab));
      [subst contents B; by rewrite <- ?app_assoc
      |subst np nf nF; rewrite !length_app, !length_u2_bytes; lia
      |subst nm; rewrite length_u2_bytes; lia]. }
  rewrite Hs9. subst nm. rewrite int_from_bytes_u2 by lia.
  set (nm := u2_bytes (Z.of_nat (length ms))) in *.
  destruct (section_round_trip
              (mkState contents (10 + np + 2 + 2 + 2 + 2 + 2 + nF + 2) c1
                       (code_bodies c1 (members_attributes fs)) pc)
              (H ++ P ++ fl ++ th ++ su ++ u2_bytes 0 ++ nf ++ F ++ nm)
              (na ++ Ab) ms) as (Sm & Hrunm & Hmemm);
    [subst contents B; cbn [data]; by rewrite <- ?app_assoc
    |subst np nf nF nm; cbn [offset]; rewrite !length_app, !length_u2_bytes; lia
    |done|].
  rewrite Hrunm. cbv beta iota. unfold after_members.
  cbn [data offset i_am_code run_code pool_count].
  fold Mb. set (nM := Z.of_nat (length Mb)) in *.
  assert (Hs10 : py_slice contents (10 + np + 2 + 2 + 2 + 2 + 2 + nF + 2 + nM)
                          (10 + np + 2 + 2 + 2 + 2 + 2 + nF + 2 + nM + 2) = na).
  { apply (Hparts (H ++ P ++ fl ++ th ++ su ++ u2_bytes 0 ++ nf ++ F ++ nm ++ Mb) _ Ab);
      [subst contents B; by rewrite <- ?app_assoc
      |subst np nf nF nm nM; rewrite !length_app, !length_u2_bytes; lia
      |subst na; rewrite length_u2_bytes; lia]. }
  rewrite Hs10. subst na. rewrite int_from_bytes_u2 by lia.
  set (na := u2_bytes (Z.of_nat (length ats))) in *.
  set (s8 := mkState contents (10 + np + 2 + 2 + 2 + 2 + 2 + nF + 2 + nM + 2) c1
               (code_bodies c1 (members_attributes fs)
                ++ code_bodies c1 (members_attributes ms)) pc).
  assert (Hdata8 : data s8
                   = (H ++ P ++ fl ++ th ++ su ++ u2_bytes 0 ++ nf ++ F ++ nm ++ Mb ++ na)
                     ++ flat_map encode_attribute ats ++ [])
    by (subst s8 contents B Ab; cbn [data]; by rewrite <- ?app_assoc, app_nil_r).
  assert (Hoff8 : offset s8
                  = Z.of_nat (length (H ++ P ++ fl ++ th ++ su ++ u2_bytes 0 ++ nf
                                      ++ F ++ nm ++ Mb ++ na)))
    by (subst s8 np nf nF nm nM na; cbn [offset];
        rewrite !length_app, !length_u2_bytes; lia).
  destruct (class_attributes_encoded s8 _ [] ats Hdata8 Hoff8 Hats)
    as (Sa & Hruna & Hmema).
  pose proof (declared_span_encoded ats Hats) as Hspan.
  rewrite Hruna. cbv beta iota.
  eexists _, _. split; [reflexivity|].
  cbn [magic minor major constant_pool cf_access_flags this_class super_class
       interfaces fields methods class_attributes].
  unfold after_attributes. subst s8.
  cbn [data offset i_am_code run_code pool_count].
  rewrite Hs1, Hs2, Hs3, Hs4, Hs5, Hs6, !int_from_bytes_u2 by done.
  split_and!; try done.
  - rewrite Hspan. subst contents H B np nf nF nm nM na. fold Ab.
    rewrite !length_app, !length_u2_bytes. lia.
  - by rewrite !code_bodies_app, app_assoc.
Qed.

(** The constructor on the bytes of [sample_source]. *)
Lemma class_round_trip_witness :
  exists cf st,
    ClassFile (encode_class sample_source) = Return cf st /\
    members_of (methods cf) = src_methods sample_source /\
    offset st = Z.of_nat (length (encode_class sample_source)) /\
    run_code st = [x01; x02; x03].
Proof.
  destruct (class_round_trip sample_source)
    as (cf & st & Hrun & _ & _ & _ & Hpool & _ & _ & _ & _ & _ & Hmethods & _
        & Hoff & Hcode & Hacc).
  - unfold writable_class. cbn [sample_source src_magic src_minor src_major
      src_constants src_flags src_this src_super src_fields src_methods
      src_attributes].
    split_and!; try (simpl; lia); try reflexivity.
    + repeat constructor; simpl; lia.
    + by repeat constructor.
    + repeat constructor; try (simpl; lia). exists []. by repeat constructor.
    + repeat constructor; try (simpl; lia).
      exists [mkAttribute 4 3 [x01; x02; x03]].
      repeat constructor; simpl; lia.
    + repeat constructor; simpl; lia.
  - exists cf, st. split; [exact Hrun|]. split; [exact Hmethods|].
    split; [exact Hoff|].
    rewrite Hacc, Hcode. vm_compute in Hrun. injection Hrun as <- _.
    vm_compute. reflexivity.
Defined.
